(** * Router-state reconciliation of the Cisco L3 configuration agent

    A shallow embedding of
      - [neutron/plugins/cisco/l3/agent/cfg_agent.py]        (L3PluginApi, L3NATAgent),
      - [neutron/plugins/cisco/l3/agent/router_info.py]      (RouterInfo),
      - [neutron/plugins/cisco/l3/agent/l3_cfg_agent.py]     (HostingEntities),
      - [neutron/plugins/cisco/l3/agent/csr1000v/csr1000v_routing_driver.py]
    and the properties of the reconciliation engine proved about it.

    Python dictionaries with a fixed set of keys are records, dictionaries
    used as maps are [gmap]s, lists are lists.  Methods that mutate [self]
    are state transformers in an exception monad whose failures keep the
    state reached so far, as a raised Python exception does.  The routing
    driver the agent talks to is the abstract [RoutingDriver]: its calls are
    recorded in a trace, and an oracle decides which of them raise. *)

From stdpp Require Import base gmap strings list.
From Stdlib Require Import ZArith.

Local Open Scope string_scope.

(** ** Python runtime: exceptions, outcomes, list primitives *)

Inductive exn : Type :=
  | KeyError (key : string)
  | ValueError (msg : string)
  | TypeError (msg : string)
  | AttributeError (attr : string)
  | UnboundLocalError (var : string)
  | AddrFormatError (addr : string)
  | Exception (msg : string)
  | FuelExhausted.

Inductive outcome (S A : Type) : Type :=
  | Ok (a : A) (s : S)
  | Raise (e : exn) (s : S).
Arguments Ok {S A} a s.
Arguments Raise {S A} e s.

Definition M (S A : Type) : Type := S -> outcome S A.

Definition ret {S A} (a : A) : M S A := fun s => Ok a s.

Definition bind {S A B} (m : M S A) (k : A -> M S B) : M S B :=
  fun s => match m s with
           | Ok a s' => k a s'
           | Raise e s' => Raise e s'
           end.

Definition raise {S A} (e : exn) : M S A := fun s => Raise e s.
Definition get {S} : M S S := fun s => Ok s s.
Definition gets {S A} (f : S -> A) : M S A := fun s => Ok (f s) s.
Definition modify {S} (f : S -> S) : M S unit := fun s => Ok tt (f s).

Notation "'do' x <- m ; k" := (bind m (fun x => k))
  (at level 10, x name, m at level 100, k at level 200).
Notation "'run' m ; k" := (bind m (fun _ => k))
  (at level 10, m at level 100, k at level 200).

(** The state a computation ends in, and whether it ended normally. *)
Definition final {S A} (o : outcome S A) : S :=
  match o with Ok _ s => s | Raise _ s => s end.

Definition completes {S A} (o : outcome S A) : bool :=
  match o with Ok _ _ => true | Raise _ _ => false end.

(** A computation over a local variable of type [T], run from inside a
    computation over [S]; an exception leaves the caller's state as it is. *)
Definition local {S T A} (m : M T A) (t : T) : M S (A * T) :=
  fun s => match m t with
           | Ok a t' => Ok (a, t') s
           | Raise e _ => Raise e s
           end.

(** [for x in l: body(x)] over a list that the body does not mutate. *)
Fixpoint for_each {S A} (body : A -> M S unit) (l : list A) : M S unit :=
  match l with
  | [] => ret tt
  | x :: l' => run body x ; for_each body l'
  end.

(** [for x in lst: body(x)] over a list that lives in the state and that the
    body may mutate.  Python's list iterator keeps an index: at every step
    it yields the element now at that index, or stops when the index has
    reached the current length. *)
Fixpoint for_live {S A} (fuel : nat) (lst : S -> list A)
    (body : A -> M S unit) (i : nat) : M S unit :=
  match fuel with
  | O => raise FuelExhausted
  | Datatypes.S fuel' =>
      do l <- gets lst ;
      match l !! i with
      | None => ret tt
      | Some x => run body x ; for_live fuel' lst body (Datatypes.S i)
      end
  end.

(** [l.remove(x)]: drops the first element equal to [x]. *)
Fixpoint remove_first {A} `{EqDecision A} (x : A) (l : list A) : list A :=
  match l with
  | [] => []
  | y :: l' => if decide (x = y) then l' else y :: remove_first x l'
  end.

Definition py_remove {S A} `{EqDecision A} (x : A) (lst : S -> list A)
    (set : list A -> S -> S) : M S unit :=
  do l <- gets lst ;
  if bool_decide (x ∈ l) then modify (set (remove_first x l))
  else raise (ValueError "list.remove(x): x not in list").

(** Truth value of a string-or-None. *)
Definition truthy (o : option string) : bool :=
  match o with
  | Some s => bool_decide (s ≠ "")
  | None => false
  end.

(** ** Data model: the dictionaries of a router's sync data *)

Module Port.
Record t : Type := mk {
    id : string;
    admin_state_up : bool;
    fixed_ips : list string;          (* the 'ip_address' of each fixed ip *)
    subnet_cidr : string;             (* port['subnet']['cidr'] *)
    subnet_gateway_ip : option string;(* port['subnet']['gateway_ip'] *)
    ip_cidr : option string           (* absent until _set_subnet_info *)
  }.
Definition set_ip_cidr (c : string) (p : t) : t :=
    mk (id p) (admin_state_up p) (fixed_ips p) (subnet_cidr p)
       (subnet_gateway_ip p) (Some c).
End Port.

Module FloatingIp.
Record t : Type := mk {
    id : string;
    floating_ip_address : string;
    fixed_ip_address : option string;
    port_id : option string
  }.
End FloatingIp.

Module Route.
Record t : Type := mk {
    destination : string;
    nexthop : string
  }.
End Route.

(** The 'created_at' entry arrives as a string and is overwritten with a
    datetime by [is_hosting_entity_reachable]; times are seconds. *)
Inductive timestamp : Type :=
  | TsString (s : string)
  | TsDatetime (t : Z).

Module HostingDevice.
Record t : Type := mk {
    id : string;
    host_type : string;
    ip_address : string;
    port : string;
    created_at : timestamp;
    booting_time : Z;
    backlog_insertion_ts : option Z
  }.
Definition set_created_at (c : timestamp) (h : t) : t :=
    mk (id h) (host_type h) (ip_address h) (port h) c (booting_time h)
       (backlog_insertion_ts h).
Definition set_backlog_insertion_ts (b : option Z) (h : t) : t :=
    mk (id h) (host_type h) (ip_address h) (port h) (created_at h)
       (booting_time h) b.
End HostingDevice.

Module Router.
Record t : Type := mk {
    id : string;
    admin_state_up : bool;
    gw_port : option Port.t;
    interfaces : list Port.t;          (* l3_constants.INTERFACE_KEY *)
    floatingips : list FloatingIp.t;   (* l3_constants.FLOATINGIP_KEY *)
    routes : list Route.t;
    enable_snat : option bool;
    hosting_device : option HostingDevice.t
  }.
Definition set_gw_port (g : option Port.t) (r : t) : t :=
    mk (id r) (admin_state_up r) g (interfaces r) (floatingips r) (routes r)
       (enable_snat r) (hosting_device r).
Definition set_interfaces (l : list Port.t) (r : t) : t :=
    mk (id r) (admin_state_up r) (gw_port r) l (floatingips r) (routes r)
       (enable_snat r) (hosting_device r).
Definition set_floatingips (l : list FloatingIp.t) (r : t) : t :=
    mk (id r) (admin_state_up r) (gw_port r) (interfaces r) l (routes r)
       (enable_snat r) (hosting_device r).
Definition set_hosting_device (h : option HostingDevice.t) (r : t) : t :=
    mk (id r) (admin_state_up r) (gw_port r) (interfaces r) (floatingips r)
       (routes r) (enable_snat r) h.
End Router.

#[global] Instance Port_eq_dec : EqDecision Port.t.
Proof. solve_decision. Defined.
#[global] Instance FloatingIp_eq_dec : EqDecision FloatingIp.t.
Proof. solve_decision. Defined.
#[global] Instance Route_eq_dec : EqDecision Route.t.
Proof. solve_decision. Defined.

(** ** router_info.py *)

Module RouterInfo.
Record t : Type := mk {
    router_id : string;
    ex_gw_port : option Port.t;
    snat_enabled : bool;
    internal_ports : list Port.t;
    floating_ips : list FloatingIp.t;
    router : Router.t;
    routes : list Route.t
  }.

  (** The [router] setter: enable_snat by default if it wasn't specified. *)
Definition set_router (r : Router.t) (ri : t) : t :=
    mk (router_id ri) (ex_gw_port ri) (default true (Router.enable_snat r))
       (internal_ports ri) (floating_ips ri) r (routes ri).

Definition init (router_id : string) (r : Router.t) : t :=
    set_router r (mk router_id None true [] [] r []).

Definition set_ex_gw_port (g : option Port.t) (ri : t) : t :=
    mk (router_id ri) g (snat_enabled ri) (internal_ports ri)
       (floating_ips ri) (router ri) (routes ri).
Definition set_internal_ports (l : list Port.t) (ri : t) : t :=
    mk (router_id ri) (ex_gw_port ri) (snat_enabled ri) l
       (floating_ips ri) (router ri) (routes ri).
Definition set_floating_ips (l : list FloatingIp.t) (ri : t) : t :=
    mk (router_id ri) (ex_gw_port ri) (snat_enabled ri) (internal_ports ri)
       l (router ri) (routes ri).
Definition set_routes (l : list Route.t) (ri : t) : t :=
    mk (router_id ri) (ex_gw_port ri) (snat_enabled ri) (internal_ports ri)
       (floating_ips ri) (router ri) l.
  (** In-place update of the dictionary [ri.router]; the setter is not run. *)
Definition update_router (f : Router.t -> Router.t) (ri : t) : t :=
    mk (router_id ri) (ex_gw_port ri) (snat_enabled ri) (internal_ports ri)
       (floating_ips ri) (f (router ri)) (routes ri).

Definition N_ROUTER_PREFIX : string := "nrouter-".

Definition router_name (ri : t) : string := N_ROUTER_PREFIX ++ router_id ri.
End RouterInfo.

(** ** hosting_entity_driver.py: the calls of the abstract RoutingDriver *)

Module RoutingDriver.
Inductive call : Type :=
    | router_added (router_id : string)
    | router_removed (router_id : string) (deconfigure : bool)
    | internal_network_added (port : Port.t)
    | internal_network_removed (port : Port.t)
    | external_gateway_added (ex_gw_port : Port.t)
    | external_gateway_removed (ex_gw_port : Port.t)
    | enable_internal_network_NAT (port ex_gw_port : Port.t)
    | disable_internal_network_NAT (port ex_gw_port : Port.t)
    | floating_ip_added (ex_gw_port : option Port.t)
        (floating_ip : string) (fixed_ip : option string)
    | floating_ip_removed (ex_gw_port : option Port.t)
        (floating_ip : string) (fixed_ip : option string)
    | routes_updated (action : string) (route : Route.t).
End RoutingDriver.

(** The driver object cached per hosting device: its connection parameters
    and the session, if one is open. *)
Module Driver.
Record t : Type := mk {
    _csr_host : string;
    _csr_ssh_port : string;
    _csr_user : string;
    _csr_password : string;
    _csr_conn : option nat
  }.
Definition clear_connection (d : t) : t :=
    mk (_csr_host d) (_csr_ssh_port d) (_csr_user d) (_csr_password d) None.
End Driver.

#[global] Instance timestamp_eq_dec : EqDecision timestamp.
Proof. solve_decision. Defined.
#[global] Instance HostingDevice_eq_dec : EqDecision HostingDevice.t.
Proof. solve_decision. Defined.

(** Python's [==] between the two kinds of value that [remove_driver]
    compares: a string never equals a dictionary. *)
Inductive pyval : Type :=
  | PyStr (s : string)
  | PyDict (h : HostingDevice.t).

Definition py_eq (a b : pyval) : bool :=
  match a, b with
  | PyStr s, PyStr s' => bool_decide (s = s')
  | PyDict h, PyDict h' => bool_decide (h = h')
  | _, _ => false
  end.

Definition py_in (a : pyval) (l : list pyval) : bool := existsb (py_eq a) l.

(** Modelled from the spec: [timeutils.is_older_than(before, seconds)] of
    neutron.openstack.common, which is not among the sources.  The spec
    speaks of an age that "exceeds" the timeout and of a device "still
    under" its boot grace: the age [now - before] is compared strictly. *)
Definition is_older_than (utcnow before seconds : Z) : bool :=
  bool_decide (seconds < utcnow - before)%Z.

(** ** l3_cfg_agent.py: class HostingEntities *)

Module HostingEntities.

Record backlog_entry : Type := mk_entry {
  he : HostingDevice.t;
  routers : list string
}.

Record t : Type := mk {
  router_id_hosting_entities : gmap string HostingDevice.t;
  _drivers : gmap string Driver.t;
  backlog_hosting_entities : gmap string backlog_entry
}.

Definition init : t := mk ∅ ∅ ∅.

Definition set_bindings (b : gmap string HostingDevice.t) (s : t) : t :=
  mk b (_drivers s) (backlog_hosting_entities s).
Definition set_drivers (d : gmap string Driver.t) (s : t) : t :=
  mk (router_id_hosting_entities s) d (backlog_hosting_entities s).
Definition set_backlog (b : gmap string backlog_entry) (s : t) : t :=
  mk (router_id_hosting_entities s) (_drivers s) b.

(** When the router carries no 'hosting_device' the KeyError is caught and
    logged, and the final [return _csr_driver] finds the name unbound. *)
Definition _set_driver (router_info : RouterInfo.t) : M t Driver.t :=
  match Router.hosting_device (RouterInfo.router router_info) with
  | None => raise (UnboundLocalError "_csr_driver")
  | Some hosting_entity =>
      let _csr_driver :=
        Driver.mk (HostingDevice.ip_address hosting_entity)
                  (HostingDevice.port hosting_entity) "stack" "cisco" None in
      run modify (fun s =>
            set_bindings (<[RouterInfo.router_id router_info := hosting_entity]>
                            (router_id_hosting_entities s)) s) ;
      run modify (fun s =>
            set_drivers (<[HostingDevice.id hosting_entity := _csr_driver]>
                           (_drivers s)) s) ;
      ret _csr_driver
  end.

Definition get_driver (router_info : RouterInfo.t) : M t Driver.t :=
  do s <- get ;
  match router_id_hosting_entities s !! RouterInfo.router_id router_info with
  | Some hosting_entity =>
      match _drivers s !! HostingDevice.id hosting_entity with
      | Some driver => ret driver
      | None => _set_driver router_info
      end
  | None => _set_driver router_info
  end.

Definition clear_driver_connection (he_id : string) : M t unit :=
  do s <- get ;
  match _drivers s !! he_id with
  | Some driver =>
      modify (set_drivers (<[he_id := Driver.clear_connection driver]> (_drivers s)))
  | None => ret tt
  end.

(** [del self.router_id_hosting_entities[router_id]], then every cached
    driver whose key is not [in] the remaining bindings' values is dropped;
    the keys are strings and the values are the device dictionaries. *)
Definition remove_driver (router_id : string) : M t unit :=
  do s <- get ;
  match router_id_hosting_entities s !! router_id with
  | None => raise (KeyError router_id)
  | Some _ =>
      run modify (set_bindings (delete router_id (router_id_hosting_entities s))) ;
      do s' <- get ;
      let values :=
        (fun kv : string * HostingDevice.t => PyDict kv.2)
          <$> map_to_list (router_id_hosting_entities s') in
      modify (set_drivers
                (filter (fun kv : string * Driver.t => py_in (PyStr kv.1) values = true)
                        (_drivers s')))
  end.

Definition pop (he_id : string) : M t unit :=
  modify (fun s => set_drivers (delete he_id (_drivers s)) s).

Definition get_backlogged_hosting_entities (s : t) : gmap string (list string) :=
  routers <$> backlog_hosting_entities s.

Section Environment.

(** The clock, the outcome of [linux_utils.execute(ping_cmd)] for a
    management address, [datetime.strptime] on the agreed format, and
    [cfg.CONF.hosting_entity_dead_timeout]. *)
Variable utcnow : Z.
Variable ping_succeeds : string -> bool.
Variable strptime : string -> option Z.
Variable hosting_entity_dead_timeout : Z.

Definition _send_ping (ip : string) : option Z :=
  if ping_succeeds ip then None else Some (-1)%Z.

Definition is_pingable (mgmt_ip : string) : bool :=
  match _send_ping mgmt_ip with
  | Some r => if bool_decide (r ≠ 0%Z) then false else true
  | None => true
  end.

(** Returns the verdict together with the router dictionary, whose
    'hosting_device' entry the method updates in place. *)
Definition is_hosting_entity_reachable (router_id : string) (router : Router.t)
    : M t (bool * Router.t) :=
  match Router.hosting_device router with
  | None => raise (KeyError "hosting_device")
  | Some he0 =>
      let he_id := HostingDevice.id he0 in
      let he_mgmt_ip := HostingDevice.ip_address he0 in
      match HostingDevice.created_at he0 with
      | TsDatetime _ => raise (TypeError "must be string, not datetime.datetime")
      | TsString str =>
          match strptime str with
          | None => raise (ValueError "time data does not match format")
          | Some created_at =>
              let he1 := HostingDevice.set_created_at (TsDatetime created_at) he0 in
              do s <- get ;
              match backlog_hosting_entities s !! he_id with
              | None =>
                  if is_pingable he_mgmt_ip
                  then ret (true, Router.set_hosting_device (Some he1) router)
                  else
                    let he2 :=
                      HostingDevice.set_backlog_insertion_ts
                        (Some (utcnow `max` (created_at + HostingDevice.booting_time he1))%Z)
                        he1 in
                    run modify (set_backlog
                          (<[he_id := mk_entry he2 [router_id]]>
                             (backlog_hosting_entities s))) ;
                    run clear_driver_connection he_id ;
                    ret (false, Router.set_hosting_device (Some he2) router)
              | Some entry =>
                  run modify (set_backlog
                        (<[he_id := mk_entry (he entry) (routers entry ++ [router_id])]>
                           (backlog_hosting_entities s))) ;
                  ret (false, Router.set_hosting_device (Some he1) router)
              end
          end
      end
  end.

(** The response dictionary {'reachable': [...], 'dead': [...]}. *)
Record response : Type := mk_response {
  reachable : list string;
  dead : list string
}.

(** One turn of the loop over [self.backlog_hosting_entities.keys()]; the
    state pairs the object with the response being built. *)
Definition check_one (he_id : string) : M (t * response) unit :=
  do sr <- get ;
  let '(s, resp) := sr in
  match backlog_hosting_entities s !! he_id with
  | None => raise (KeyError he_id)
  | Some entry =>
      let h := he entry in
      match HostingDevice.created_at h with
      | TsString _ => raise (TypeError "unsupported operand type(s) for -")
      | TsDatetime created_at =>
          if negb (is_older_than utcnow created_at (HostingDevice.booting_time h))
          then ret tt
          else if is_pingable (HostingDevice.ip_address h)
          then
            modify (fun _ =>
              (set_backlog (delete he_id (backlog_hosting_entities s)) s,
               mk_response (reachable resp ++ [he_id]) (dead resp)))
          else
            match HostingDevice.backlog_insertion_ts h with
            | None => raise (KeyError "backlog_insertion_ts")
            | Some ts =>
                if is_older_than utcnow ts hosting_entity_dead_timeout
                then
                  modify (fun _ =>
                    (set_backlog (delete he_id (backlog_hosting_entities s)) s,
                     mk_response (reachable resp) (dead resp ++ [he_id])))
                else ret tt
            end
      end
  end.

Definition check_backlogged_hosting_entities : M t response :=
  fun s =>
    match for_each check_one (map_to_list (backlog_hosting_entities s)).*1
                   (s, mk_response [] []) with
    | Ok _ (s', resp) => Ok resp s'
    | Raise e (s', _) => Raise e s'
    end.

End Environment.

End HostingEntities.

(** ** cfg_agent.py: class L3PluginApi

    The agent reaches the controller through the methods of this class.  A
    call site names an attribute and passes positional and keyword
    arguments; Python looks the attribute up and binds the arguments to the
    method's parameters before the body runs. *)

Module L3PluginApi.

Inductive arg : Type :=
  | AContext
  | ANone
  | AList (ids : list string).

Inductive message : Type :=
  | cfg_sync_routers (router_ids : arg) (hosting_device_ids : arg)
  | get_external_network_id_msg
  | report_non_responding_hosting_devices (hosting_device_ids : arg).

Inductive transport : Type := call | cast.

Record method : Type := mk_method {
  params : list string;                       (* after self *)
  defaults : list (string * arg);
  body : (string -> arg) -> transport * message
}.

Definition get_routers : method :=
  mk_method ["context"; "router_ids"; "hd_ids"]
            [("router_ids", ANone); ("hd_ids", AList [])]
            (fun a => (call, cfg_sync_routers (a "router_ids") (a "hd_ids"))).

Definition get_external_network_id : method :=
  mk_method ["context"] [] (fun _ => (call, get_external_network_id_msg)).

Definition report_dead_hosting_devices : method :=
  mk_method ["context"; "hd_ids"] [("hd_ids", AList [])]
            (fun a => (cast, report_non_responding_hosting_devices (a "hd_ids"))).

(** The attributes a call site can name. *)
Definition methods : list (string * method) :=
  [("get_routers", get_routers);
   ("get_external_network_id", get_external_network_id);
   ("report_dead_hosting_devices", report_dead_hosting_devices)].

Fixpoint assoc {A} (k : string) (l : list (string * A)) : option A :=
  match l with
  | [] => None
  | (k', v) :: l' => if bool_decide (k = k') then Some v else assoc k l'
  end.

(** Argument binding: positional arguments fill the parameters from the
    left, every keyword must name a parameter not yet filled, and what is
    left takes its default. *)
Definition bind_arguments (m : method) (positional : list arg)
    (keywords : list (string * arg)) : exn + list (string * arg) :=
  if bool_decide (length (params m) < length positional)
  then inl (TypeError "takes fewer positional arguments")
  else
    let bound := zip (params m) positional in
    match list_find (fun kv : string * arg => kv.1 ∉ params m) keywords with
    | Some (_, (k, _)) =>
        inl (TypeError ("got an unexpected keyword argument " ++ k))
    | None =>
        match list_find (fun kv : string * arg => is_Some (assoc kv.1 bound)) keywords with
        | Some (_, (k, _)) =>
            inl (TypeError ("got multiple values for keyword argument " ++ k))
        | None =>
            let given := (bound ++ keywords)%list in
            match list_find (fun p => assoc p (given ++ defaults m)%list = None) (params m) with
            | Some _ => inl (TypeError "missing a required argument")
            | None => inr (given ++ defaults m)%list
            end
        end
    end.

(** A call [self.plugin_rpc.<name>(...)] with its arguments: the message the
    method body hands to the transport, or the exception of the call. *)
Definition invoke (name : string) (positional : list arg)
    (keywords : list (string * arg)) : exn + transport * message :=
  match assoc name methods with
  | None => inl (AttributeError name)
  | Some m =>
      match bind_arguments m positional keywords with
      | inl e => inl e
      | inr env => inr (body m (fun p => default ANone (assoc p env)))
      end
  end.

End L3PluginApi.

(** ** cfg_agent.py: class L3NATAgent, one router's reconciliation pass *)

Module L3NATAgent.

(** What a pass works on: the RouterInfo object, the registry of hosting
    entities and the calls the routing driver has received so far. *)
Record state : Type := mk_state {
  ri : RouterInfo.t;
  _he : HostingEntities.t;
  calls : list RoutingDriver.call
}.

Definition set_ri (f : RouterInfo.t -> RouterInfo.t) (st : state) : state :=
  mk_state (f (ri st)) (_he st) (calls st).

Definition lift_he {A} (m : M HostingEntities.t A) : M state A :=
  fun st => match m (_he st) with
            | Ok a h => Ok a (mk_state (ri st) h (calls st))
            | Raise e h => Raise e (mk_state (ri st) h (calls st))
            end.

Section Pass.

(** Whether the driver raises on a call, given the calls it has served. *)
Variable driver_raises : list RoutingDriver.call -> RoutingDriver.call -> bool.
(** [netaddr.IPNetwork(cidr).prefixlen], printed; [None] for a bad cidr. *)
Variable netaddr_prefixlen : string -> option string.
(** The order in which Python iterates over a set of routes. *)
Variable set_order : list Route.t -> list Route.t.

Definition get_driver : M state Driver.t :=
  do st <- get ; lift_he (HostingEntities.get_driver (ri st)).

Definition invoke (driver : Driver.t) (c : RoutingDriver.call) : M state unit :=
  fun st =>
    if driver_raises (calls st) c then Raise (Exception "Error!") st
    else Ok tt (mk_state (ri st) (_he st) (calls st ++ [c])).

Definition _set_subnet_info {S} (port : Port.t) : M S Port.t :=
  match Port.fixed_ips port with
  | [] => raise (Exception ("Router port " ++ Port.id port ++ " has no IP address"))
  | ip :: _ =>
      match netaddr_prefixlen (Port.subnet_cidr port) with
      | None => raise (AddrFormatError (Port.subnet_cidr port))
      | Some prefixlen => ret (Port.set_ip_cidr (ip ++ "/" ++ prefixlen) port)
      end
  end.

Definition _get_ex_gw_port : M state (option Port.t) :=
  gets (fun st => Router.gw_port (RouterInfo.router (ri st))).

Definition external_gateway_added (ex_gw_port : Port.t) : M state unit :=
  do driver <- get_driver ;
  run invoke driver (RoutingDriver.external_gateway_added ex_gw_port) ;
  do st <- get ;
  if RouterInfo.snat_enabled (ri st)
     && bool_decide (0 < length (RouterInfo.internal_ports (ri st)))
  then for_each (fun port =>
                   invoke driver (RoutingDriver.enable_internal_network_NAT port ex_gw_port))
                (RouterInfo.internal_ports (ri st))
  else ret tt.

Definition external_gateway_removed (ex_gw_port : Port.t) : M state unit :=
  do driver <- get_driver ;
  do st <- get ;
  run (if RouterInfo.snat_enabled (ri st)
          && bool_decide (0 < length (RouterInfo.internal_ports (ri st)))
       then for_each (fun port =>
                        invoke driver (RoutingDriver.disable_internal_network_NAT port ex_gw_port))
                     (RouterInfo.internal_ports (ri st))
       else ret tt) ;
  invoke driver (RoutingDriver.external_gateway_removed ex_gw_port).

Definition internal_network_added (port : Port.t) (ex_gw_port : option Port.t)
    : M state unit :=
  do driver <- get_driver ;
  run invoke driver (RoutingDriver.internal_network_added port) ;
  do st <- get ;
  match ex_gw_port with
  | Some gw =>
      if RouterInfo.snat_enabled (ri st)
      then invoke driver (RoutingDriver.enable_internal_network_NAT port gw)
      else ret tt
  | None => ret tt
  end.

Definition internal_network_removed (port : Port.t) (ex_gw_port : option Port.t)
    : M state unit :=
  do driver <- get_driver ;
  run invoke driver (RoutingDriver.internal_network_removed port) ;
  do st <- get ;
  match ex_gw_port with
  | Some gw =>
      if RouterInfo.snat_enabled (ri st)
      then invoke driver (RoutingDriver.disable_internal_network_NAT port gw)
      else ret tt
  | None => ret tt
  end.

Definition floating_ip_added (ex_gw_port : option Port.t) (floating_ip : string)
    (fixed_ip : option string) : M state unit :=
  do driver <- get_driver ;
  invoke driver (RoutingDriver.floating_ip_added ex_gw_port floating_ip fixed_ip).

Definition floating_ip_removed (ex_gw_port : option Port.t) (floating_ip : string)
    (fixed_ip : option string) : M state unit :=
  do driver <- get_driver ;
  invoke driver (RoutingDriver.floating_ip_removed ex_gw_port floating_ip fixed_ip).

(** First loop of [process_router_floating_ips]: the desired floating IPs
    that have a port; [id_to_fip_map] is the local dictionary. *)
Fixpoint floating_ips_add_loop (existing_floating_ip_ids : list string)
    (ex_gw_port : Port.t) (floating_ips : list FloatingIp.t)
    (id_to_fip_map : gmap string FloatingIp.t)
    : M state (gmap string FloatingIp.t) :=
  match floating_ips with
  | [] => ret id_to_fip_map
  | fip :: rest =>
      if truthy (FloatingIp.port_id fip) then
        run (if bool_decide (FloatingIp.id fip ∉ existing_floating_ip_ids) then
               run modify (set_ri (fun r =>
                     RouterInfo.set_floating_ips (RouterInfo.floating_ips r ++ [fip]) r)) ;
               floating_ip_added (Some ex_gw_port)
                 (FloatingIp.floating_ip_address fip) (FloatingIp.fixed_ip_address fip)
             else ret tt) ;
        floating_ips_add_loop existing_floating_ip_ids ex_gw_port rest
          (<[FloatingIp.id fip := fip]> id_to_fip_map)
      else
        floating_ips_add_loop existing_floating_ip_ids ex_gw_port rest id_to_fip_map
  end.

Definition ri_floating_ips (st : state) : list FloatingIp.t :=
  RouterInfo.floating_ips (ri st).

Definition remove_floating_ip (fip : FloatingIp.t) : M state unit :=
  py_remove fip ri_floating_ips
    (fun l => set_ri (RouterInfo.set_floating_ips l)).

(** Body of the second loop, which runs over [ri.floating_ips] itself. *)
Definition floating_ips_sync_body (floating_ip_ids_to_remove : list string)
    (id_to_fip_map : gmap string FloatingIp.t) (fip : FloatingIp.t)
    : M state unit :=
  if bool_decide (FloatingIp.id fip ∈ floating_ip_ids_to_remove) then
    run remove_floating_ip fip ;
    do st <- get ;
    floating_ip_removed (RouterInfo.ex_gw_port (ri st))
      (FloatingIp.floating_ip_address fip) (FloatingIp.fixed_ip_address fip)
  else
    match id_to_fip_map !! FloatingIp.id fip with
    | None => raise (KeyError (FloatingIp.id fip))
    | Some new_fip =>
        let new_fixed_ip := FloatingIp.fixed_ip_address new_fip in
        let existing_fixed_ip := FloatingIp.fixed_ip_address fip in
        if truthy new_fixed_ip && truthy existing_fixed_ip
           && bool_decide (new_fixed_ip ≠ existing_fixed_ip)
        then
          let floating_ip := FloatingIp.floating_ip_address fip in
          do st <- get ;
          run floating_ip_removed (RouterInfo.ex_gw_port (ri st))
                floating_ip existing_fixed_ip ;
          do st <- get ;
          run floating_ip_added (RouterInfo.ex_gw_port (ri st))
                floating_ip new_fixed_ip ;
          run remove_floating_ip fip ;
          modify (set_ri (fun r =>
            RouterInfo.set_floating_ips (RouterInfo.floating_ips r ++ [new_fip]) r))
        else ret tt
    end.

Definition process_router_floating_ips (ex_gw_port : Port.t) : M state unit :=
  do st <- get ;
  let floating_ips := Router.floatingips (RouterInfo.router (ri st)) in
  let existing_floating_ip_ids := FloatingIp.id <$> RouterInfo.floating_ips (ri st) in
  let cur_floating_ip_ids := FloatingIp.id <$> floating_ips in
  do id_to_fip_map <-
    floating_ips_add_loop existing_floating_ip_ids ex_gw_port floating_ips ∅ ;
  let floating_ip_ids_to_remove :=
    list_difference existing_floating_ip_ids cur_floating_ip_ids in
  do st <- get ;
  for_live (S (length (ri_floating_ips st))) ri_floating_ips
    (floating_ips_sync_body floating_ip_ids_to_remove id_to_fip_map) 0.

(** Modelled from the spec: [common_utils.diff_list_of_dict(old, new)] of
    neutron.common.utils, which is not among the sources.  Routes are
    compared as whole {destination, nexthop} entries: the added routes are
    the desired ones with no equal applied entry, the removed routes the
    applied ones with no equal desired entry.  Both results are built from
    Python sets, so they hold no duplicates and come in the order
    [set_order], which a caller must not rely on. *)
Definition diff_list_of_dict (old_list new_list : list Route.t)
    : list Route.t * list Route.t :=
  (set_order (remove_dups (list_difference new_list old_list)),
   set_order (remove_dups (list_difference old_list new_list))).

(** [for del_route in removes: if ...: removes.remove(del_route)], a loop
    over the very list it shrinks. *)
Definition suppress_replaced (route : Route.t) : M (list Route.t) unit :=
  do removes <- get ;
  for_live (S (length removes)) id
    (fun del_route =>
       if bool_decide (Route.destination route = Route.destination del_route)
       then py_remove del_route id (fun l _ => l)
       else ret tt) 0.

Fixpoint routes_replace_loop (adds removes : list Route.t)
    : M state (list Route.t) :=
  match adds with
  | [] => ret removes
  | route :: rest =>
      do r <- local (suppress_replaced route) removes ;
      do driver <- get_driver ;
      run invoke driver (RoutingDriver.routes_updated "replace" route) ;
      routes_replace_loop rest r.2
  end.

Definition routes_updated : M state unit :=
  do st <- get ;
  let new_routes := Router.routes (RouterInfo.router (ri st)) in
  let old_routes := RouterInfo.routes (ri st) in
  let '(adds, removes) := diff_list_of_dict old_routes new_routes in
  do removes <- routes_replace_loop adds removes ;
  run for_each (fun route =>
                  do driver <- get_driver ;
                  invoke driver (RoutingDriver.routes_updated "delete" route))
               removes ;
  modify (set_ri (RouterInfo.set_routes new_routes)).

(** [for p in new_ports]: the port dictionary is shared between the desired
    list ([i] is its place there) and the applied list it is appended to,
    so the 'ip_cidr' that [_set_subnet_info] stores shows in both. *)
Definition add_new_port (ex_gw_port : option Port.t) (ip : nat * Port.t)
    : M state unit :=
  do p <- _set_subnet_info ip.2 ;
  run modify (set_ri (RouterInfo.update_router (fun r =>
        Router.set_interfaces (<[ip.1 := p]> (Router.interfaces r)) r))) ;
  run internal_network_added p ex_gw_port ;
  modify (set_ri (fun r =>
    RouterInfo.set_internal_ports (RouterInfo.internal_ports r ++ [p]) r)).

Definition remove_old_port (ex_gw_port : option Port.t) (p : Port.t)
    : M state unit :=
  run internal_network_removed p ex_gw_port ;
  py_remove p (fun st => RouterInfo.internal_ports (ri st))
    (fun l => set_ri (RouterInfo.set_internal_ports l)).

(** The copy of 'ha_info' into [ri.ha_info] and the log lines are left
    out: no driver call of the agent depends on them. *)
Definition process_router : M state unit :=
  do ex_gw_port <- _get_ex_gw_port ;
  do st <- get ;
  let internal_ports := Router.interfaces (RouterInfo.router (ri st)) in
  let existing_port_ids := Port.id <$> RouterInfo.internal_ports (ri st) in
  let current_port_ids :=
    Port.id <$> filter (fun p => Port.admin_state_up p = true) internal_ports in
  let new_ports :=
    filter (fun ip : nat * Port.t =>
              Port.id ip.2 ∈ current_port_ids ∧ Port.id ip.2 ∉ existing_port_ids)
           (imap pair internal_ports) in
  let old_ports :=
    filter (fun p => Port.id p ∉ current_port_ids)
           (RouterInfo.internal_ports (ri st)) in
  run for_each (add_new_port ex_gw_port) new_ports ;
  run for_each (remove_old_port ex_gw_port) old_ports ;
  do st <- get ;
  run match ex_gw_port, RouterInfo.ex_gw_port (ri st) with
      | Some gw, None =>
          do gw' <- _set_subnet_info gw ;
          run modify (set_ri (RouterInfo.update_router (Router.set_gw_port (Some gw')))) ;
          external_gateway_added gw'
      | None, Some applied_gw => external_gateway_removed applied_gw
      | _, _ => ret tt
      end ;
  do ex_gw_port <- _get_ex_gw_port ;
  run match ex_gw_port with
      | Some gw => process_router_floating_ips gw
      | None => ret tt
      end ;
  run modify (set_ri (RouterInfo.set_ex_gw_port ex_gw_port)) ;
  routes_updated.

(** *** The agent object *)

Record t : Type := mk {
  router_info : gmap string RouterInfo.t;
  _hdm : HostingEntities.t;
  driver_calls : list RoutingDriver.call;
  fullsync : bool;
  updated_routers : list string;
  removed_routers : list string;
  casts : list L3PluginApi.message
}.

Definition set_router_info (m : gmap string RouterInfo.t) (a : t) : t :=
  mk m (_hdm a) (driver_calls a) (fullsync a) (updated_routers a)
     (removed_routers a) (casts a).
Definition set_fullsync (b : bool) (a : t) : t :=
  mk (router_info a) (_hdm a) (driver_calls a) b (updated_routers a)
     (removed_routers a) (casts a).
Definition clear_pending (a : t) : t :=
  mk (router_info a) (_hdm a) (driver_calls a) (fullsync a) [] [] (casts a).
Definition add_cast (m : L3PluginApi.message) (a : t) : t :=
  mk (router_info a) (_hdm a) (driver_calls a) (fullsync a) (updated_routers a)
     (removed_routers a) (casts a ++ [m]).

(** Runs a pass on the RouterInfo object stored under [router_id]: what the
    pass does to the object shows in [router_info], also when it raises. *)
Definition on_router {A} (router_id : string) (ri0 : RouterInfo.t)
    (m : M state A) : M t A :=
  fun a =>
    let back (st : state) :=
      mk (<[router_id := ri st]> (router_info a)) (_he st) (calls st)
         (fullsync a) (updated_routers a) (removed_routers a) (casts a) in
    match m (mk_state ri0 (_hdm a) (driver_calls a)) with
    | Ok x st => Ok x (back st)
    | Raise e st => Raise e (back st)
    end.

Definition _router_removed (router_id : string) (deconfigure : bool) : M t unit :=
  do a <- get ;
  match router_info a !! router_id with
  | None => ret tt
  | Some ri0 =>
      let ri1 :=
        RouterInfo.update_router
          (fun r => Router.set_floatingips []
                      (Router.set_interfaces [] (Router.set_gw_port None r)))
          ri0 in
      run on_router router_id ri1
            (if deconfigure then
               run process_router ;
               do driver <- get_driver ;
               run invoke driver (RoutingDriver.router_removed router_id deconfigure) ;
               lift_he (HostingEntities.remove_driver router_id)
             else ret tt) ;
      modify (fun a => set_router_info (delete router_id (router_info a)) a)
  end.

(** *** The full-resync task *)

Variable utcnow : Z.
Variable ping_succeeds : string -> bool.
Variable hosting_entity_dead_timeout : Z.
(** The controller's answer to a [call]. *)
Variable controller : L3PluginApi.message -> list Router.t.
Variable conf_use_namespaces : bool.
Variable conf_router_id : string.
(** [_process_routers]: its workers run in a green pool; the task below
    is stated for whatever it does to the agent. *)
Variable _process_routers : list Router.t -> bool -> M t unit.

Definition plugin_rpc (name : string) (positional : list L3PluginApi.arg)
    (keywords : list (string * L3PluginApi.arg)) : M t (list Router.t) :=
  match L3PluginApi.invoke name positional keywords with
  | inl e => raise e
  | inr (L3PluginApi.call, msg) => ret (controller msg)
  | inr (L3PluginApi.cast, msg) => run modify (add_cast msg) ; ret []
  end.

Definition _router_ids : L3PluginApi.arg :=
  if negb conf_use_namespaces then L3PluginApi.AList [conf_router_id]
  else L3PluginApi.ANone.

Definition lift_hdm {A} (m : M HostingEntities.t A) : M t A :=
  fun a =>
    let back h := mk (router_info a) h (driver_calls a) (fullsync a)
                     (updated_routers a) (removed_routers a) (casts a) in
    match m (_hdm a) with
    | Ok x h => Ok x (back h)
    | Raise e h => Raise e (back h)
    end.

(** [try: body / except Exception: handler / else: orelse]. *)
Definition try_except_else {S} (body : M S unit) (handler : exn -> M S unit)
    (orelse : M S unit) : M S unit :=
  fun s => match body s with
           | Ok _ s' => orelse s'
           | Raise e s' => handler e s'
           end.

(** The [else] branch of [_sync_routers_task]: the backlog follow-up. *)
Definition process_backlog : M t unit :=
  do res <- lift_hdm (HostingEntities.check_backlogged_hosting_entities
                        utcnow ping_succeeds hosting_entity_dead_timeout) ;
  run match HostingEntities.reachable res with
      | [] => ret tt
      | _ :: _ =>
          do routers <- plugin_rpc "get_routers" [L3PluginApi.AContext]
                          [("router_ids", L3PluginApi.ANone);
                           ("he_ids", L3PluginApi.AList (HostingEntities.reachable res))] ;
          _process_routers routers true
      end ;
  match HostingEntities.dead res with
  | [] => ret tt
  | _ :: _ =>
      run plugin_rpc "report_dead_hosting_entities" [L3PluginApi.AContext]
            [("he_ids", L3PluginApi.AList (HostingEntities.dead res))] ;
      ret tt
  end.

Definition _sync_routers_task : M t unit :=
  do a <- get ;
  if negb (fullsync a) then ret tt
  else
    try_except_else
      (run modify clear_pending ;
       do routers <- plugin_rpc "get_routers" [L3PluginApi.AContext; _router_ids] [] ;
       run _process_routers routers true ;
       modify (set_fullsync false))
      (fun _ => modify (set_fullsync true))
      process_backlog.

End Pass.

(** *** Routers coming and going

    [updated_routers] and [removed_routers] are Python sets: each is kept
    as the list of its elements, without repetition, in the order in which
    the set is iterated. *)

Definition set_removed_routers (l : list string) (a : t) : t :=
  mk (router_info a) (_hdm a) (driver_calls a) (fullsync a) (updated_routers a)
     l (casts a).

(** [s.add(x)] and [s.remove(x)] on a set kept as a list. *)
Definition set_add (x : string) (l : list string) : list string :=
  if bool_decide (x ∈ l) then l else l ++ [x].


Section Loop.

Variable driver_raises : list RoutingDriver.call -> RoutingDriver.call -> bool.
Variable netaddr_prefixlen : string -> option string.
Variable set_order : list Route.t -> list Route.t.

(** Runs [m] on a RouterInfo object that [router_info] does not hold: the
    registry and the driver see what [m] does, the table does not. *)
Definition on_new_router {A} (ri0 : RouterInfo.t) (m : M state A)
    : M t (A * RouterInfo.t) :=
  fun a =>
    let back (st : state) :=
      mk (router_info a) (_he st) (calls st) (fullsync a) (updated_routers a)
         (removed_routers a) (casts a) in
    match m (mk_state ri0 (_hdm a) (driver_calls a)) with
    | Ok x st => Ok (x, ri st) (back st)
    | Raise e st => Raise e (back st)
    end.

Definition _router_added (router_id : string) (router : Router.t) : M t unit :=
  do r <- on_new_router (RouterInfo.init router_id router)
            (do driver <- get_driver ;
             invoke driver_raises driver (RoutingDriver.router_added router_id)) ;
  modify (fun a => set_router_info (<[router_id := r.2]> (router_info a)) a).

Definition router_deleted (router_id : string) : M t unit :=
  modify (fun a => set_removed_routers (set_add router_id (removed_routers a)) a).

(** The payload of the notification is the dictionary {'router_id': ...}. *)
Definition router_removed_from_agent (payload_router_id : option string) : M t unit :=
  match payload_router_id with
  | None => raise (KeyError "router_id")
  | Some router_id =>
      modify (fun a => set_removed_routers (set_add router_id (removed_routers a)) a)
  end.

(** [payload['hosting_data'].items()] in the order of iteration; the entry
    of a hosting entity may lack the key 'routers'. *)
Definition hosting_entity_removed
    (hosting_data : list (string * option (list string))) (deconfigure : bool)
    : M t unit :=
  for_each (fun item : string * option (list string) =>
              run for_each (fun router_id =>
                              _router_removed driver_raises netaddr_prefixlen set_order
                                router_id deconfigure)
                           (default [] item.2) ;
              lift_hdm (HostingEntities.pop item.1))
           hosting_data.


Variable controller : L3PluginApi.message -> list Router.t.
Variable _process_routers : list Router.t -> bool -> M t unit.


End Loop.

End L3NATAgent.

(** ** csr1000v_routing_driver.py: the configuration pushes of the driver

    The snippet templates of cisco_csr_snippets are not among the sources:
    a configuration string is kept as the snippet's name applied to the
    values substituted into it.  The device is an oracle: its reply to
    [edit_config] and what its running configuration shows may depend on
    everything pushed before. *)

Module CSR1000vRoutingDriver.

Inductive confstr : Type :=
  | ENABLE_INTF (intf : string)
  | CREATE_VRF (vrf : string)
  | REMOVE_VRF (vrf : string)
  | CREATE_SUBINTERFACE (subinterface vlan vrf ip mask : string)
  | REMOVE_SUBINTERFACE (subinterface : string)
  | CREATE_ACL (acl network netmask : string)
  | SET_DYN_SRC_TRL_INTFC (acl outer_intfc vrf : string)
  | REMOVE_DYN_SRC_TRL_INTFC (acl outer_intfc vrf : string)
  | REMOVE_ACL (acl : string)
  | SET_NAT (intfc type : string)
  | REMOVE_NAT (intfc type : string)
  | SET_STATIC_SRC_TRL (fixed_ip floating_ip vrf : string)
  | REMOVE_STATIC_SRC_TRL (fixed_ip floating_ip vrf : string)
  | SET_IP_ROUTE (vrf dest mask next_hop : string)
  | REMOVE_IP_ROUTE (vrf dest mask next_hop : string)
  | SET_DEFAULT_ROUTE (vrf gw_ip : string)
  | REMOVE_DEFAULT_ROUTE (vrf gw_ip : string)
  | OTHER (text : string).

(** Lines looked for in the running configuration. *)
Inductive cfgline : Type :=
  | SNAT_CFG (acl outer_intfc vrf : string)
  | DEFAULT_ROUTE_CFG (vrf gw_ip : string).

(** The driver object: the cached session, the flag set once the data
    interfaces are enabled, and every [edit_config] with its reply. *)
Record t : Type := mk {
  _csr_conn : bool;
  _intfs_enabled : bool;
  pushed : list (confstr * string)
}.

Definition DEV_NAME_LEN : nat := 14.

(** [ri.router_name()[:self.DEV_NAME_LEN]]. *)
Definition _csr_get_vrf_name (ri : RouterInfo.t) : string :=
  String.substring 0 DEV_NAME_LEN (RouterInfo.router_name ri).

(** [needle in haystack] on strings. *)
Fixpoint contains (needle haystack : string) : bool :=
  if String.prefix needle haystack then true
  else match haystack with
       | EmptyString => false
       | String _ rest => contains needle rest
       end.

Section Device.

Variable connect_succeeds : bool.
Variable reply : list (confstr * string) -> confstr -> string.
Variable running_vrfs : list (confstr * string) -> list string.
Variable running_has_interface : list (confstr * string) -> string -> bool.
Variable running_has_cfg : list (confstr * string) -> cfgline -> bool.
Variable running_has_acl : list (confstr * string) -> string -> string -> string -> bool.

(** [_check_response]: true when the reply carries the success marker,
    otherwise the error is logged and an exception raised. *)
Definition _check_response {S} (xml_str : string) (snippet_name : string) : M S bool :=
  if contains "<ok />" xml_str then ret true
  else raise (Exception "Error!").

(** [conn.edit_config(target='running', config=confstr)]; [conn] is [None]
    when no session could be opened. *)
Definition edit_config (conn : bool) (c : confstr) : M t string :=
  if conn then
    fun d => let r := reply (pushed d) c in
             Ok r (mk (_csr_conn d) (_intfs_enabled d) (pushed d ++ [(c, r)]))
  else raise (AttributeError "edit_config").

(** [try: body / except Exception: handler]. *)
Definition try_except {S A} (body : M S A) (handler : exn -> M S A) : M S A :=
  fun s => match body s with
           | Ok a s' => Ok a s'
           | Raise e s' => handler e s'
           end.

Definition _enable_intfs (conn : bool) : M t bool :=
  try_except
    (run for_each (fun i =>
                     do rpc_obj <- edit_config conn (ENABLE_INTF i) ;
                     do _ <- _check_response rpc_obj "ENABLE_INTF" ;
                     ret tt)
                  ["GigabitEthernet 2"; "GigabitEthernet 3"] ;
     ret true)
    (fun _ => ret false).

(** Returns the session, or [None] (here [false]) when connecting failed
    and the failure was logged. *)
Definition _get_connection : M t bool :=
  do d <- get ;
  if _csr_conn d then ret true
  else if connect_succeeds then
    run modify (fun d => mk true (_intfs_enabled d) (pushed d)) ;
    do d <- get ;
    run (if negb (_intfs_enabled d) then
           do b <- _enable_intfs true ;
           modify (fun d => mk (_csr_conn d) b (pushed d))
         else ret tt) ;
    ret true
  else ret false.

Definition _get_running_config : M t (list (confstr * string)) :=
  do conn <- _get_connection ;
  if conn then gets pushed else raise (AttributeError "get_config").

Definition _get_vrfs : M t (list string) :=
  do seen <- _get_running_config ; ret (running_vrfs seen).

Definition _interface_exists (interface : string) : M t bool :=
  do seen <- _get_running_config ; ret (running_has_interface seen interface).

Definition _cfg_exists (cfg_str : cfgline) : M t bool :=
  do seen <- _get_running_config ; ret (running_has_cfg seen cfg_str).

Definition _check_acl (acl_no network netmask : string) : M t bool :=
  do seen <- _get_running_config ; ret (running_has_acl seen acl_no network netmask).

Definition push (conn : bool) (c : confstr) (snippet_name : string) : M t bool :=
  do rpc_obj <- edit_config conn c ;
  _check_response rpc_obj snippet_name.

Definition create_vrf (vrf_name : string) : M t unit :=
  try_except
    (do conn <- _get_connection ;
     do _ <- push conn (CREATE_VRF vrf_name) "CREATE_VRF" ;
     ret tt)
    (fun _ => ret tt).

Definition remove_vrf (vrf_name : string) : M t unit :=
  do vrfs <- _get_vrfs ;
  if bool_decide (vrf_name ∈ vrfs) then
    do conn <- _get_connection ;
    do _ <- push conn (REMOVE_VRF vrf_name) "REMOVE_VRF" ;
    ret tt
  else ret tt.

Definition edit_running_config (c : confstr) (snippet : string) : M t unit :=
  do conn <- _get_connection ;
  do _ <- push conn c snippet ;
  ret tt.

Definition create_subinterface (subinterface vlan_id vrf_name ip mask : string)
    : M t unit :=
  do _ <- _get_vrfs ;
  edit_running_config (CREATE_SUBINTERFACE subinterface vlan_id vrf_name ip mask)
    "CREATE_SUBINTERFACE".

Definition remove_subinterface (subinterface vlan_id vrf_name ip : string)
    : M t unit :=
  do conn <- _get_connection ;
  do present <- _interface_exists subinterface ;
  if present then
    do _ <- push conn (REMOVE_SUBINTERFACE subinterface) "REMOVE_SUBINTERFACE" ;
    ret tt
  else ret tt.

Definition nat_rules_for_internet_access
    (acl_no network netmask inner_intfc outer_intfc vrf_name : string) : M t unit :=
  do conn <- _get_connection ;
  do acl_present <- _check_acl acl_no network netmask ;
  run (if negb acl_present then
         do _ <- push conn (CREATE_ACL acl_no network netmask) "CREATE_ACL" ; ret tt
       else ret tt) ;
  do _ <- push conn (SET_DYN_SRC_TRL_INTFC acl_no outer_intfc vrf_name) "CREATE_SNAT" ;
  do _ <- push conn (SET_NAT inner_intfc "inside") "SET_NAT" ;
  do _ <- push conn (SET_NAT outer_intfc "outside") "SET_NAT" ;
  ret tt.

Definition add_interface_nat (intfc_name type : string) : M t unit :=
  do conn <- _get_connection ;
  do _ <- push conn (SET_NAT intfc_name type) ("SET_NAT " ++ type) ;
  ret tt.

Definition remove_interface_nat (intfc_name type : string) : M t unit :=
  do conn <- _get_connection ;
  do _ <- push conn (REMOVE_NAT intfc_name type) ("REMOVE_NAT " ++ type) ;
  ret tt.

Definition remove_dyn_nat_rule (acl_no outer_intfc_name vrf_name : string) : M t unit :=
  do conn <- _get_connection ;
  do present <- _cfg_exists (SNAT_CFG acl_no outer_intfc_name vrf_name) ;
  run (if present then
         do _ <- push conn (REMOVE_DYN_SRC_TRL_INTFC acl_no outer_intfc_name vrf_name)
                   "REMOVE_DYN_SRC_TRL_INTFC" ;
         ret tt
       else ret tt) ;
  do _ <- push conn (REMOVE_ACL acl_no) "REMOVE_ACL" ;
  ret tt.

Definition add_floating_ip (floating_ip fixed_ip vrf : string) : M t unit :=
  do conn <- _get_connection ;
  do _ <- push conn (SET_STATIC_SRC_TRL fixed_ip floating_ip vrf) "SET_STATIC_SRC_TRL" ;
  ret tt.

Definition remove_floating_ip (floating_ip fixed_ip vrf : string) : M t unit :=
  do conn <- _get_connection ;
  do _ <- push conn (REMOVE_STATIC_SRC_TRL fixed_ip floating_ip vrf)
            "REMOVE_STATIC_SRC_TRL" ;
  ret tt.

Definition add_static_route (dest dest_mask next_hop vrf : string) : M t unit :=
  do conn <- _get_connection ;
  do _ <- push conn (SET_IP_ROUTE vrf dest dest_mask next_hop) "SET_IP_ROUTE" ;
  ret tt.

Definition remove_static_route (dest dest_mask next_hop vrf : string) : M t unit :=
  do conn <- _get_connection ;
  do _ <- push conn (REMOVE_IP_ROUTE vrf dest dest_mask next_hop) "REMOVE_IP_ROUTE" ;
  ret tt.

Definition add_default_static_route (gw_ip vrf : string) : M t unit :=
  do conn <- _get_connection ;
  do present <- _cfg_exists (DEFAULT_ROUTE_CFG vrf gw_ip) ;
  if negb present then
    do _ <- push conn (SET_DEFAULT_ROUTE vrf gw_ip) "SET_DEFAULT_ROUTE" ;
    ret tt
  else ret tt.

Definition remove_default_static_route (gw_ip vrf : string) : M t unit :=
  do conn <- _get_connection ;
  do present <- _cfg_exists (DEFAULT_ROUTE_CFG vrf gw_ip) ;
  if present then
    do _ <- push conn (REMOVE_DEFAULT_ROUTE vrf gw_ip) "REMOVE_DEFAULT_ROUTE" ;
    ret tt
  else ret tt.

(** The push operations of the driver, by name and arguments. *)
Inductive operation : Type :=
  | op_create_vrf (vrf : string)
  | op_remove_vrf (vrf : string)
  | op_create_subinterface (subinterface vlan vrf ip mask : string)
  | op_remove_subinterface (subinterface vlan vrf ip : string)
  | op_nat_rules_for_internet_access
      (acl network netmask inner_intfc outer_intfc vrf : string)
  | op_add_interface_nat (intfc type : string)
  | op_remove_interface_nat (intfc type : string)
  | op_remove_dyn_nat_rule (acl outer_intfc vrf : string)
  | op_add_floating_ip (floating_ip fixed_ip vrf : string)
  | op_remove_floating_ip (floating_ip fixed_ip vrf : string)
  | op_add_static_route (dest mask next_hop vrf : string)
  | op_remove_static_route (dest mask next_hop vrf : string)
  | op_add_default_static_route (gw_ip vrf : string)
  | op_remove_default_static_route (gw_ip vrf : string).

Definition perform (o : operation) : M t unit :=
  match o with
  | op_create_vrf v => create_vrf v
  | op_remove_vrf v => remove_vrf v
  | op_create_subinterface s vl v ip m => create_subinterface s vl v ip m
  | op_remove_subinterface s vl v ip => remove_subinterface s vl v ip
  | op_nat_rules_for_internet_access a n m i o v =>
      nat_rules_for_internet_access a n m i o v
  | op_add_interface_nat i ty => add_interface_nat i ty
  | op_remove_interface_nat i ty => remove_interface_nat i ty
  | op_remove_dyn_nat_rule a o v => remove_dyn_nat_rule a o v
  | op_add_floating_ip fl fx v => add_floating_ip fl fx v
  | op_remove_floating_ip fl fx v => remove_floating_ip fl fx v
  | op_add_static_route d m n v => add_static_route d m n v
  | op_remove_static_route d m n v => remove_static_route d m n v
  | op_add_default_static_route g v => add_default_static_route g v
  | op_remove_default_static_route g v => remove_default_static_route g v
  end.

End Device.

End CSR1000vRoutingDriver.

(** ** Sample data

    A router on the hosting device [hd1], with a gateway port, one internal
    port, two floating IPs and two routes, and the variations of it that
    the properties below are tried on. *)

Module Sample.

Definition hd1 : HostingDevice.t :=
  HostingDevice.mk "hd1" "CSR1000v" "20.0.0.5" "22"
    (TsString "2014-01-01 00:00:00") 300 None.

Definition gw : Port.t :=
  Port.mk "gw" true ["19.4.4.4"] "19.4.4.0/24" (Some "19.4.4.1") (Some "19.4.4.4/24").

Definition p1 : Port.t :=
  Port.mk "p1" true ["35.4.0.4"] "35.4.0.0/24" (Some "35.4.0.1") (Some "35.4.0.4/24").

Definition fip1 : FloatingIp.t :=
  FloatingIp.mk "fip1" "8.8.8.8" (Some "7.7.7.7") (Some "port1").
Definition fip2 : FloatingIp.t :=
  FloatingIp.mk "fip2" "8.8.8.9" (Some "7.7.7.9") (Some "port2").
(** The same floating IPs mapped to other fixed addresses. *)
Definition fip1' : FloatingIp.t :=
  FloatingIp.mk "fip1" "8.8.8.8" (Some "7.7.7.8") (Some "port1").
Definition fip2' : FloatingIp.t :=
  FloatingIp.mk "fip2" "8.8.8.9" (Some "7.7.7.10") (Some "port2").
(** [fip1] as the controller sends it once its port is gone. *)
Definition fip1_unbound : FloatingIp.t :=
  FloatingIp.mk "fip1" "8.8.8.8" (Some "7.7.7.7") None.

Definition route1 : Route.t := Route.mk "135.207.0.0/16" "1.2.3.4".
Definition route2 : Route.t := Route.mk "135.207.111.111/32" "1.2.3.4".
Definition route2' : Route.t := Route.mk "135.207.111.111/32" "1.2.3.5".
Definition route2'' : Route.t := Route.mk "135.207.111.111/32" "1.2.3.6".

Definition router (fips : list FloatingIp.t) (routes : list Route.t) : Router.t :=
  Router.mk "r1" true (Some gw) [p1] fips routes (Some true) (Some hd1).

(** The RouterInfo once [gw], [p1], the floating IPs [applied] and the
    routes [applied_routes] are applied, with the desired state [r]. *)
Definition router_info (applied : list FloatingIp.t) (applied_routes : list Route.t)
    (r : Router.t) : RouterInfo.t :=
  RouterInfo.mk "r1" (Some gw) true [p1] applied r applied_routes.

Definition driver : Driver.t := Driver.mk "20.0.0.5" "22" "stack" "cisco" (Some 1).

Definition registry : HostingEntities.t :=
  HostingEntities.mk {["r1" := hd1]} {["hd1" := driver]} ∅.

Definition state (applied : list FloatingIp.t) (applied_routes : list Route.t)
    (r : Router.t) : L3NATAgent.state :=
  L3NATAgent.mk_state (router_info applied applied_routes r) registry [].

Definition agent (ri : RouterInfo.t) (h : HostingEntities.t) : L3NATAgent.t :=
  L3NATAgent.mk {["r1" := ri]} h [] true [] [] [].

(** A driver that serves every call, a /24 everywhere, and sets iterated
    in the order of the list they were built from. *)
Definition obliging : list RoutingDriver.call -> RoutingDriver.call -> bool :=
  fun _ _ => false.
Definition prefixlen_24 : string -> option string := fun _ => Some "24".
Definition as_listed : list Route.t -> list Route.t := fun l => l.

Definition process_router : M L3NATAgent.state unit :=
  L3NATAgent.process_router obliging prefixlen_24 as_listed.

(** The device [hd1] backlogged at time 1000 after its creation at 0. *)
Definition hd1_backlogged : HostingDevice.t :=
  HostingDevice.mk "hd1" "CSR1000v" "20.0.0.5" "22" (TsDatetime 0) 300 (Some 1000%Z).

Definition backlogged_registry : HostingEntities.t :=
  HostingEntities.mk {["r1" := hd1]} ∅
    {["hd1" := HostingEntities.mk_entry hd1_backlogged ["r1"]]}.

Definition nobody_answers : string -> bool := fun _ => false.
Definition everybody_answers : string -> bool := fun _ => true.
Definition strptime : string -> option Z := fun _ => Some 0%Z.

(** A device that answers every push with an error reply. *)
Definition rejecting : list (CSR1000vRoutingDriver.confstr * string)
    -> CSR1000vRoutingDriver.confstr -> string :=
  fun _ _ => "<rpc-reply><rpc-error><error-tag>operation-failed</error-tag></rpc-error></rpc-reply>".

Definition connected : CSR1000vRoutingDriver.t := CSR1000vRoutingDriver.mk true true [].

End Sample.

(** * Properties *)

Local Open Scope list_scope.

(** ** The exception monad *)

Lemma bind_Ok {S A B} (m : M S A) (k : A -> M S B) s b s2 :
  bind m k s = Ok b s2 <-> exists a s1, m s = Ok a s1 /\ k a s1 = Ok b s2.
Proof.
  unfold bind. destruct (m s) as [a s1|e s1]; split.
  - eauto.
  - intros (a' & s1' & [= <- <-] & H). exact H.
  - discriminate.
  - intros (a' & s1' & [=] & _).
Qed.

Lemma bind_Raise {S A B} (m : M S A) (k : A -> M S B) s e s2 :
  bind m k s = Raise e s2 <->
  m s = Raise e s2 \/ exists a s1, m s = Ok a s1 /\ k a s1 = Raise e s2.
Proof.
  unfold bind. destruct (m s) as [a s1|e1 s1]; split.
  - eauto.
  - intros [[=]|(a' & s1' & [= <- <-] & H)]. exact H.
  - intros [= <- <-]. by left.
  - intros [[= <- <-]|(a' & s1' & [=] & _)]. done.
Qed.

Lemma bind_of_Ok {S A B} (m : M S A) (k : A -> M S B) s a s1 :
  m s = Ok a s1 -> bind m k s = k a s1.
Proof. unfold bind. by intros ->. Qed.

Lemma for_each_app {S A} (body : A -> M S unit) (l1 l2 : list A) s :
  for_each body (l1 ++ l2) s = bind (for_each body l1) (fun _ => for_each body l2) s.
Proof.
  revert s. induction l1 as [|x l1 IH]; intros s; simpl; [done|].
  unfold bind in *. destruct (body x s) as [[] s1|e s1]; [|done].
  apply IH.
Qed.

Lemma filter_ext_elem {A} (P Q : A -> Prop) `{forall x, Decision (P x)}
    `{forall x, Decision (Q x)} (l : list A) :
  (forall x, x ∈ l -> P x <-> Q x) -> filter P l = filter Q l.
Proof.
  induction l as [|x l IH]; intros HPQ; [done|].
  rewrite !filter_cons. rewrite IH by (intros y Hy; apply HPQ; by right).
  destruct (decide (P x)) as [HP|HP], (decide (Q x)) as [HQ|HQ]; try done;
    exfalso; apply (HPQ x) in HP || apply (HPQ x) in HQ; try done; by left.
Qed.

(** ** The backlog of unreachable hosting entities *)

(** What [check_backlogged_hosting_entities] decides for one entry. *)
Inductive verdict : Type := Skipped | NowReachable | NowDead | StillBacklogged.

#[global] Instance verdict_eq_dec : EqDecision verdict.
Proof. solve_decision. Defined.

Section Backlog.

Import HostingEntities.

Variable utcnow : Z.
Variable ping_succeeds : string -> bool.
Variable hosting_entity_dead_timeout : Z.


Definition judge (created_at insertion_ts : Z) (h : HostingDevice.t) : verdict :=
  if bool_decide (utcnow - created_at <= HostingDevice.booting_time h)%Z then Skipped
  else if is_pingable ping_succeeds (HostingDevice.ip_address h) then NowReachable
  else if bool_decide (hosting_entity_dead_timeout < utcnow - insertion_ts)%Z then NowDead
  else StillBacklogged.

(** Entries as [is_hosting_entity_reachable] files them: 'created_at' is
    a datetime and 'backlog_insertion_ts' is set. *)
Definition entry_wf (e : backlog_entry) : Prop :=
  exists c ts, HostingDevice.created_at (he e) = TsDatetime c /\
               HostingDevice.backlog_insertion_ts (he e) = Some ts.

Definition backlog_wf (s : t) : Prop :=
  forall k e, backlog_hosting_entities s !! k = Some e -> entry_wf e.

Definition entry_verdict (e : backlog_entry) : verdict :=
  match HostingDevice.created_at (he e), HostingDevice.backlog_insertion_ts (he e) with
  | TsDatetime c, Some ts => judge c ts (he e)
  | _, _ => Skipped
  end.

Definition leaves (v : verdict) : bool :=
  match v with NowReachable | NowDead => true | _ => false end.

Definition after_one (k : string) (v : verdict) (sr : t * response) : t * response :=
  match v with
  | NowReachable =>
      (set_backlog (delete k (backlog_hosting_entities sr.1)) sr.1,
       mk_response (reachable sr.2 ++ [k]) (dead sr.2))
  | NowDead =>
      (set_backlog (delete k (backlog_hosting_entities sr.1)) sr.1,
       mk_response (reachable sr.2) (dead sr.2 ++ [k]))
  | _ => sr
  end.

Lemma check_one_verdict k e s resp :
  backlog_hosting_entities s !! k = Some e -> entry_wf e ->
  check_one utcnow ping_succeeds hosting_entity_dead_timeout k (s, resp)
  = Ok tt (after_one k (entry_verdict e) (s, resp)).
Proof.
  intros Hk (c & ts & Hc & Hts).
  unfold check_one, bind, get, entry_verdict, judge, is_older_than. simpl.
  rewrite Hk, Hc, Hts. simpl.
  repeat (case_bool_decide; simpl); try lia; try reflexivity;
    destruct (is_pingable ping_succeeds _); try reflexivity;
    repeat (case_bool_decide; simpl); try lia; reflexivity.
Qed.

Definition verdict_of (s : t) (k : string) : verdict :=
  match backlog_hosting_entities s !! k with
  | Some e => entry_verdict e
  | None => Skipped
  end.

Lemma check_loop_closed (l : list string) : forall s resp,
  NoDup l ->
  (forall k, k ∈ l -> exists e, backlog_hosting_entities s !! k = Some e /\ entry_wf e) ->
  exists s' resp',
    for_each (check_one utcnow ping_succeeds hosting_entity_dead_timeout) l (s, resp)
      = Ok tt (s', resp') /\
    router_id_hosting_entities s' = router_id_hosting_entities s /\
    _drivers s' = _drivers s /\
    (forall k, backlog_hosting_entities s' !! k =
               if bool_decide (k ∈ l) && leaves (verdict_of s k) then None
               else backlog_hosting_entities s !! k) /\
    reachable resp' = reachable resp ++ filter (fun k => verdict_of s k = NowReachable) l /\
    dead resp' = dead resp ++ filter (fun k => verdict_of s k = NowDead) l.
Proof.
  induction l as [|k l IH]; intros s resp Hnd Hin.
  - exists s, resp. simpl. rewrite !app_nil_r. repeat split; done.
  - apply NoDup_cons in Hnd as [Hk Hnd].
    destruct (Hin k) as (e & He & Hwf); [left|].
    simpl. erewrite bind_of_Ok by (by apply check_one_verdict).
    set (sr1 := after_one k (entry_verdict e) (s, resp)).
    assert (Hother : forall k', k' ≠ k ->
              backlog_hosting_entities sr1.1 !! k' = backlog_hosting_entities s !! k').
    { intros k' Hne. subst sr1. unfold after_one.
      destruct (entry_verdict e); simpl; try done; by rewrite lookup_delete_ne. }
    destruct (IH sr1.1 sr1.2) as (s' & resp' & Hrun & Hb & Hd & Hbl & Hr & Hdd); [done| |].
    { intros k' Hk'. destruct (Hin k') as (e' & He' & Hwf'); [by right|].
      exists e'. split; [|done]. rewrite Hother; [done|]. intros ->. done. }
    assert (Hv : forall k', k' ∈ l -> verdict_of sr1.1 k' = verdict_of s k').
    { intros k' Hk'. unfold verdict_of. rewrite Hother; [done|]. intros ->. done. }
    exists s', resp'. destruct sr1 as [s1 r1] eqn:Hsr1. simpl in *.
    assert (Hkv : verdict_of s k = entry_verdict e) by (unfold verdict_of; by rewrite He).
    split; [done|].
    assert (Hs1 : router_id_hosting_entities s1 = router_id_hosting_entities s /\
                  _drivers s1 = _drivers s).
    { subst sr1. unfold after_one in Hsr1.
      destruct (entry_verdict e); simpl in Hsr1; injection Hsr1 as <- <-; done. }
    destruct Hs1 as [Hs1b Hs1d].
    split; [congruence|]. split; [congruence|]. split; [|split].
    + intros k'. rewrite Hbl. destruct (decide (k' = k)) as [->|Hne].
      * rewrite (bool_decide_eq_false_2 (k ∈ l)) by done. simpl.
        rewrite (bool_decide_eq_true_2 (k ∈ k :: l)) by left. simpl.
        rewrite Hkv. subst sr1. unfold after_one in Hsr1.
        destruct (entry_verdict e); simpl in *; injection Hsr1 as <- <-; simpl;
          try done; by rewrite lookup_delete_eq.
      * rewrite Hother by done.
        destruct (decide (k' ∈ l)) as [Hl|Hl].
        -- rewrite (bool_decide_eq_true_2 (k' ∈ l)) by done.
           rewrite (bool_decide_eq_true_2 (k' ∈ k :: l)) by (by right).
           by rewrite Hv.
        -- rewrite (bool_decide_eq_false_2 (k' ∈ l)) by done.
           rewrite (bool_decide_eq_false_2 (k' ∈ k :: l)); [done|].
           rewrite elem_of_cons. tauto.
    + rewrite Hr. rewrite filter_cons. rewrite Hkv.
      rewrite (filter_ext_elem _ (fun k0 => verdict_of s k0 = NowReachable) l)
        by (intros k' Hk'; by rewrite Hv).
      subst sr1. unfold after_one in Hsr1.
      destruct (entry_verdict e); simpl in *; injection Hsr1 as <- <-; simpl;
        rewrite ?decide_True by done; rewrite ?decide_False by done;
        by rewrite <- ?app_assoc.
    + rewrite Hdd. rewrite filter_cons. rewrite Hkv.
      rewrite (filter_ext_elem _ (fun k0 => verdict_of s k0 = NowDead) l)
        by (intros k' Hk'; by rewrite Hv).
      subst sr1. unfold after_one in Hsr1.
      destruct (entry_verdict e); simpl in *; injection Hsr1 as <- <-; simpl;
        rewrite ?decide_True by done; rewrite ?decide_False by done;
        by rewrite <- ?app_assoc.
Qed.

End Backlog.

Lemma judge_ping_irrelevant utcnow dead_timeout ping ping' c ts h :
  ((HostingDevice.booting_time h < utcnow - c)%Z ->
   ping' (HostingDevice.ip_address h) = ping (HostingDevice.ip_address h)) ->
  judge utcnow ping' dead_timeout c ts h = judge utcnow ping dead_timeout c ts h.
Proof.
  intros Hp. unfold judge, HostingEntities.is_pingable, HostingEntities._send_ping.
  case_bool_decide; [done|]. rewrite Hp by lia. done.
Qed.

Lemma check_backlog_closed utcnow ping dead_timeout (s : HostingEntities.t) :
  backlog_wf s ->
  let keys := (map_to_list (HostingEntities.backlog_hosting_entities s)).*1 in
  exists s',
    HostingEntities.check_backlogged_hosting_entities utcnow ping dead_timeout s
      = Ok (HostingEntities.mk_response
              (filter (fun k => verdict_of utcnow ping dead_timeout s k = NowReachable) keys)
              (filter (fun k => verdict_of utcnow ping dead_timeout s k = NowDead) keys))
           s' /\
    HostingEntities.router_id_hosting_entities s'
      = HostingEntities.router_id_hosting_entities s /\
    HostingEntities._drivers s' = HostingEntities._drivers s /\
    (forall k, HostingEntities.backlog_hosting_entities s' !! k =
               if leaves (verdict_of utcnow ping dead_timeout s k) then None
               else HostingEntities.backlog_hosting_entities s !! k).
Proof.
  intros Hwf l.
  assert (Hnd : NoDup l) by apply NoDup_fst_map_to_list.
  assert (Hl : forall k, k ∈ l <->
                 is_Some (HostingEntities.backlog_hosting_entities s !! k)).
  { intros k. subst l. rewrite list_elem_of_fmap. split.
    - intros ([k' e] & -> & Hin). apply elem_of_map_to_list in Hin. by exists e.
    - intros [e He]. exists (k, e). split; [done|]. by apply elem_of_map_to_list. }
  destruct (check_loop_closed utcnow ping dead_timeout l s
              (HostingEntities.mk_response [] [])) as
    (s' & resp' & Hrun & Hb & Hd & Hbl & Hr & Hdd); [done| |].
  { intros k Hk. apply Hl in Hk as [e He]. exists e. split; [done|]. by eapply Hwf. }
  exists s'. unfold HostingEntities.check_backlogged_hosting_entities.
  fold l. rewrite Hrun. simpl in Hr, Hdd. destruct resp' as [r d]. simpl in *.
  subst r d. split; [done|]. split; [done|]. split; [done|].
  intros k. rewrite Hbl. destruct (decide (k ∈ l)) as [Hk|Hk].
  - by rewrite bool_decide_eq_true_2.
  - rewrite bool_decide_eq_false_2 by done. simpl.
    assert (HostingEntities.backlog_hosting_entities s !! k = None) as Hn.
    { apply eq_None_not_Some. by rewrite <- Hl. }
    rewrite Hn. by destruct (leaves _).
Qed.

Lemma HostingEntities_eq (s1 s2 : HostingEntities.t) :
  HostingEntities.router_id_hosting_entities s1
    = HostingEntities.router_id_hosting_entities s2 ->
  HostingEntities._drivers s1 = HostingEntities._drivers s2 ->
  (forall k, HostingEntities.backlog_hosting_entities s1 !! k
             = HostingEntities.backlog_hosting_entities s2 !! k) ->
  s1 = s2.
Proof.
  destruct s1, s2. simpl. intros -> -> H. f_equal. by apply map_eq.
Qed.

(** C8: [check_backlogged_hosting_entities] leaves a backlogged device alone
    while its age since 'created_at' is within the booting time, whatever a
    probe would say; past it the device is probed: when it answers, its
    entry is cleared and its id reported reachable; when it does not and
    its age since 'backlog_insertion_ts' exceeds the dead timeout, its id
    is reported dead, once, and the entry purged; otherwise the entry stays
    as it is. *)
Theorem check_backlog_boot_grace_and_dead_escalation
    utcnow ping dead_timeout (s : HostingEntities.t) :
  backlog_wf s ->
  exists resp s',
    HostingEntities.check_backlogged_hosting_entities utcnow ping dead_timeout s
      = Ok resp s' /\
    NoDup (HostingEntities.reachable resp) /\
    NoDup (HostingEntities.dead resp) /\
    (forall he_id e c ts,
       HostingEntities.backlog_hosting_entities s !! he_id = Some e ->
       HostingDevice.created_at (HostingEntities.he e) = TsDatetime c ->
       HostingDevice.backlog_insertion_ts (HostingEntities.he e) = Some ts ->
       let h := HostingEntities.he e in
       let past_grace := (HostingDevice.booting_time h < utcnow - c)%Z in
       let answers :=
         HostingEntities.is_pingable ping (HostingDevice.ip_address h) in
       let kept :=
         (HostingEntities.backlog_hosting_entities s' !! he_id = Some e /\
          (he_id ∉ HostingEntities.reachable resp) /\
          (he_id ∉ HostingEntities.dead resp)) in
       let purged :=
         (HostingEntities.backlog_hosting_entities s' !! he_id = None) in
       ((utcnow - c <= HostingDevice.booting_time h)%Z -> kept) /\
       (past_grace -> answers = true ->
        purged /\ he_id ∈ HostingEntities.reachable resp /\
        he_id ∉ HostingEntities.dead resp) /\
       (past_grace -> answers = false -> (dead_timeout < utcnow - ts)%Z ->
        purged /\ he_id ∈ HostingEntities.dead resp /\
        he_id ∉ HostingEntities.reachable resp) /\
       (past_grace -> answers = false -> (utcnow - ts <= dead_timeout)%Z -> kept)) /\
    (forall ping',
       (forall he_id e c,
          HostingEntities.backlog_hosting_entities s !! he_id = Some e ->
          HostingDevice.created_at (HostingEntities.he e) = TsDatetime c ->
          (HostingDevice.booting_time (HostingEntities.he e) < utcnow - c)%Z ->
          ping' (HostingDevice.ip_address (HostingEntities.he e))
          = ping (HostingDevice.ip_address (HostingEntities.he e))) ->
       HostingEntities.check_backlogged_hosting_entities utcnow ping' dead_timeout s
       = Ok resp s').
Proof.
  intros Hwf.
  destruct (check_backlog_closed utcnow ping dead_timeout s Hwf)
    as (s' & Hrun & Hb & Hd & Hbl).
  eexists _, s'. split; [exact Hrun|]. simpl.
  split; [apply NoDup_filter, NoDup_fst_map_to_list|].
  split; [apply NoDup_filter, NoDup_fst_map_to_list|].
  split.
  - intros he_id e c ts He Hc Hts.
    assert (Hv : verdict_of utcnow ping dead_timeout s he_id
                 = judge utcnow ping dead_timeout c ts (HostingEntities.he e)).
    { unfold verdict_of, entry_verdict. by rewrite He, Hc, Hts. }
    assert (Hkey : he_id ∈ (map_to_list (HostingEntities.backlog_hosting_entities s)).*1).
    { apply list_elem_of_fmap. exists (he_id, e). split; [done|].
      by apply elem_of_map_to_list. }
    rewrite !list_elem_of_filter, Hbl, Hv. unfold judge.
    repeat split; intros; repeat (case_bool_decide; try lia); simpl;
      repeat match goal with
             | H : HostingEntities.is_pingable _ _ = _ |- _ => rewrite H; simpl
             end;
      repeat (case_bool_decide; try lia); simpl; try done;
      try (intros [? _]; done); try (intros [[=] _]).
  - intros ping' Hp.
    destruct (check_backlog_closed utcnow ping' dead_timeout s Hwf)
      as (s'' & Hrun' & Hb' & Hd' & Hbl').
    assert (Hv : forall k, verdict_of utcnow ping' dead_timeout s k
                           = verdict_of utcnow ping dead_timeout s k).
    { intros k. unfold verdict_of, entry_verdict.
      destruct (HostingEntities.backlog_hosting_entities s !! k) as [e|] eqn:He; [|done].
      destruct (HostingDevice.created_at (HostingEntities.he e)) as [|c] eqn:Hc; [done|].
      destruct (HostingDevice.backlog_insertion_ts (HostingEntities.he e)); [|done].
      apply judge_ping_irrelevant. intros. by eapply Hp. }
    rewrite Hrun'. f_equal.
    + f_equal; apply filter_ext_elem; intros k _; by rewrite Hv.
    + apply HostingEntities_eq; [congruence|congruence|].
      intros k. by rewrite Hbl, Hbl', Hv.
Qed.

(** ** The reachability check *)

(** C7, as the code has it: when the hosting entity of a router is not
    backlogged and the probe fails, [is_hosting_entity_reachable] files a
    backlog entry whose insertion timestamp is
    [max(now, created_at + booting_time)] and whose router list is this
    router id, clears the connection of the driver cached for the device,
    which stays in the cache, and returns false; when the device is already
    backlogged it appends the router id to the entry and returns false,
    whatever a probe would say. *)
Theorem reachability_check_backlogs_device
    utcnow ping strptime (s : HostingEntities.t) router_id router he0 str c :
  Router.hosting_device router = Some he0 ->
  HostingDevice.created_at he0 = TsString str ->
  strptime str = Some c ->
  let he_id := HostingDevice.id he0 in
  let he1 := HostingDevice.set_created_at (TsDatetime c) he0 in
  let he2 :=
    HostingDevice.set_backlog_insertion_ts
      (Some (utcnow `max` (c + HostingDevice.booting_time he0))%Z) he1 in
  (HostingEntities.backlog_hosting_entities s !! he_id = None ->
   HostingEntities.is_pingable ping (HostingDevice.ip_address he0) = false ->
   HostingEntities.is_hosting_entity_reachable utcnow ping strptime router_id router s
   = Ok (false, Router.set_hosting_device (Some he2) router)
        (HostingEntities.mk
           (HostingEntities.router_id_hosting_entities s)
           (alter Driver.clear_connection he_id (HostingEntities._drivers s))
           (<[he_id := HostingEntities.mk_entry he2 [router_id]]>
              (HostingEntities.backlog_hosting_entities s)))) /\
  (forall e ping',
     HostingEntities.backlog_hosting_entities s !! he_id = Some e ->
     HostingEntities.is_hosting_entity_reachable utcnow ping' strptime router_id router s
     = Ok (false, Router.set_hosting_device (Some he1) router)
          (HostingEntities.mk
             (HostingEntities.router_id_hosting_entities s)
             (HostingEntities._drivers s)
             (<[he_id := HostingEntities.mk_entry (HostingEntities.he e)
                           (HostingEntities.routers e ++ [router_id])]>
                (HostingEntities.backlog_hosting_entities s)))).
Proof.
  intros Hhd Hc Hp he_id he1 he2. split.
  - intros Hb Hping.
    unfold HostingEntities.is_hosting_entity_reachable.
    rewrite Hhd, Hc, Hp. unfold bind, get. fold he_id. rewrite Hb.
    simpl. rewrite Hping. unfold modify, HostingEntities.clear_driver_connection,
      bind, get, ret. simpl.
    destruct (HostingEntities._drivers s !! he_id) as [d|] eqn:Hd; simpl.
    + unfold HostingEntities.set_drivers, HostingEntities.set_backlog. simpl.
      do 2 f_equal. apply map_eq. intros k. rewrite lookup_alter, lookup_insert.
      case_decide; subst; by rewrite ?Hd.
    + unfold HostingEntities.set_backlog. simpl. do 2 f_equal.
      apply map_eq. intros k. rewrite lookup_alter.
      case_decide; subst; by rewrite ?Hd.
  - intros e ping' Hb.
    unfold HostingEntities.is_hosting_entity_reachable.
    rewrite Hhd, Hc, Hp. unfold bind, get. fold he_id. rewrite Hb.
    reflexivity.
Qed.

(** ** The driver's configuration pushes *)

Section Pushes.

Import CSR1000vRoutingDriver.

Variable connect_succeeds : bool.
Variable reply : list (confstr * string) -> confstr -> string.
Variable running_vrfs : list (confstr * string) -> list string.
Variable running_has_interface : list (confstr * string) -> string -> bool.
Variable running_has_cfg : list (confstr * string) -> cfgline -> bool.
Variable running_has_acl : list (confstr * string) -> string -> string -> string -> bool.
















End Pushes.

(** ** The full-resync task and its backlog follow-up *)

Section SyncTask.

Import L3NATAgent.

Variable utcnow : Z.
Variable ping_succeeds : string -> bool.
Variable hosting_entity_dead_timeout : Z.
Variable controller : L3PluginApi.message -> list Router.t.
Variable conf_use_namespaces : bool.
Variable conf_router_id : string.
Variable _process_routers : list Router.t -> bool -> M L3NATAgent.t unit.

Lemma get_routers_rejects_he_ids ids :
  L3PluginApi.invoke "get_routers" [L3PluginApi.AContext]
    [("router_ids", L3PluginApi.ANone); ("he_ids", L3PluginApi.AList ids)]
  = inl (TypeError "got an unexpected keyword argument he_ids").
Proof. reflexivity. Qed.

Lemma no_report_dead_hosting_entities ids :
  L3PluginApi.invoke "report_dead_hosting_entities" [L3PluginApi.AContext]
    [("he_ids", L3PluginApi.AList ids)]
  = inl (AttributeError "report_dead_hosting_entities").
Proof. reflexivity. Qed.

Lemma first_get_routers_binds router_ids :
  L3PluginApi.invoke "get_routers" [L3PluginApi.AContext; router_ids] []
  = inr (L3PluginApi.call, L3PluginApi.cfg_sync_routers router_ids (L3PluginApi.AList [])).
Proof. reflexivity. Qed.

(** C3 fails on the code: after a full resync whose first part succeeds,
    the follow-up for the devices that [check_backlogged_hosting_entities]
    reports reachable raises a TypeError, since [get_routers] has no
    parameter [he_ids]; when none is reachable and some are dead, the
    report raises an AttributeError, since the API object has no method
    [report_dead_hosting_entities].  Neither exception is caught by the
    task. *)
Theorem sync_task_backlog_followup_raises (a a1 : L3NATAgent.t) res h :
  fullsync a = true ->
  _process_routers
    (controller (L3PluginApi.cfg_sync_routers
                   (_router_ids conf_use_namespaces conf_router_id)
                   (L3PluginApi.AList [])))
    true (clear_pending a) = Ok tt a1 ->
  HostingEntities.check_backlogged_hosting_entities utcnow ping_succeeds
    hosting_entity_dead_timeout (_hdm a1) = Ok res h ->
  let task := _sync_routers_task utcnow ping_succeeds hosting_entity_dead_timeout
                controller conf_use_namespaces conf_router_id _process_routers a in
  (HostingEntities.reachable res <> [] ->
   exists a', task = Raise (TypeError "got an unexpected keyword argument he_ids") a') /\
  (HostingEntities.reachable res = [] -> HostingEntities.dead res <> [] ->
   exists a', task = Raise (AttributeError "report_dead_hosting_entities") a').
Proof.
  intros Hfull Hproc Hcheck task.
  assert (Htask : task = process_backlog utcnow ping_succeeds
                    hosting_entity_dead_timeout controller _process_routers
                    (set_fullsync false a1)).
  { subst task. unfold _sync_routers_task, bind, get. rewrite Hfull. cbn [negb].
    unfold try_except_else, bind, modify, plugin_rpc.
    rewrite first_get_routers_binds. unfold ret. cbv beta iota. by rewrite Hproc. }
  rewrite Htask. unfold process_backlog, bind, lift_hdm.
  cbn [_hdm set_fullsync]. rewrite Hcheck.
  split.
  - intros Hr. destruct (HostingEntities.reachable res) as [|k l]; [done|].
    unfold plugin_rpc. rewrite get_routers_rejects_he_ids. unfold raise. eauto.
  - intros -> Hd. destruct (HostingEntities.dead res) as [|k l]; [done|].
    unfold plugin_rpc, ret. rewrite no_report_dead_hosting_entities.
    unfold raise. eauto.
Qed.

End SyncTask.

(** ** One reconciliation pass: the driver calls and the frame *)

Section PassFacts.

Import L3NATAgent.

Variable driver_raises : list RoutingDriver.call -> RoutingDriver.call -> bool.
Variable netaddr_prefixlen : string -> option string.
Variable set_order : list Route.t -> list Route.t.

Lemma lift_he_Ok {A} (m : M HostingEntities.t A) st a st' :
  lift_he m st = Ok a st' -> ri st' = ri st /\ calls st' = calls st.
Proof.
  unfold lift_he. destruct (m (_he st)); intros [= <- <-]; done.
Qed.

Lemma lift_he_final {A} (m : M HostingEntities.t A) st :
  ri (final (lift_he m st)) = ri st /\ calls (final (lift_he m st)) = calls st.
Proof. unfold lift_he. by destruct (m (_he st)). Qed.

Lemma get_driver_Ok st d st' :
  get_driver st = Ok d st' -> ri st' = ri st /\ calls st' = calls st.
Proof. unfold get_driver, bind, get. apply lift_he_Ok. Qed.

Lemma get_driver_final st :
  ri (final (get_driver st)) = ri st /\ calls (final (get_driver st)) = calls st.
Proof. unfold get_driver, bind, get. apply lift_he_final. Qed.

Lemma invoke_Ok d c st st' :
  invoke driver_raises d c st = Ok tt st' ->
  ri st' = ri st /\ _he st' = _he st /\ calls st' = calls st ++ [c].
Proof.
  unfold invoke. destruct (driver_raises _ _); [done|]. by intros [= <-].
Qed.

(** A call made through a freshly fetched driver. *)
Lemma driver_call_Ok c st st' :
  bind get_driver (fun d => invoke driver_raises d c) st = Ok tt st' ->
  ri st' = ri st /\ calls st' = calls st ++ [c].
Proof.
  intros (d & st1 & Hg & Hi)%bind_Ok.
  apply get_driver_Ok in Hg as [Hr Hc]. apply invoke_Ok in Hi as (Hr' & _ & Hc').
  split; congruence.
Qed.

(** *** Loops over a list that shrinks under them *)

Lemma for_live_skip {S A} (lst : S -> list A) (body : A -> M S unit) s n :
  (forall j x, j < n -> lst s !! j = Some x -> body x s = Ok tt s) ->
  n <= length (lst s) ->
  forall fuel i, i <= n ->
    for_live (n - i + fuel) lst body i s = for_live fuel lst body n s.
Proof.
  intros Hbody Hn fuel i. remember (n - i) as k eqn:Hk. revert i Hk.
  induction k as [|k IH]; intros i Hk Hi.
  - assert (i = n) as -> by lia. done.
  - simpl. unfold bind at 1, gets at 1.
    destruct (lst s !! i) as [x|] eqn:Hx.
    + unfold bind. rewrite (Hbody i x) by (done || lia). apply IH; lia.
    + apply lookup_ge_None in Hx. lia.
Qed.

(** *** [list.remove] *)

Lemma elem_of_remove_first {A} `{EqDecision A} (x y : A) (l : list A) :
  y ∈ remove_first x l -> y ∈ l.
Proof.
  induction l as [|z l IH]; simpl; [done|].
  destruct (decide (x = z)); [by right|].
  intros [->|Hy]%elem_of_cons; [by left|right; auto].
Qed.

Lemma elem_of_remove_first_ne {A} `{EqDecision A} (x y : A) (l : list A) :
  y ∈ l -> y ≠ x -> y ∈ remove_first x l.
Proof.
  induction l as [|z l IH]; simpl; [done|].
  intros [->|Hy]%elem_of_cons Hne.
  - destruct (decide (x = z)); [congruence|by left].
  - destruct (decide (x = z)); [done|right; auto].
Qed.

Lemma NoDup_remove_first {A} `{EqDecision A} (x : A) (l : list A) :
  NoDup l -> NoDup (remove_first x l) /\ x ∉ remove_first x l.
Proof.
  induction l as [|z l IH]; simpl; [intros; split; [constructor|by intros ?%elem_of_nil]|].
  intros [Hz Hl]%NoDup_cons. destruct (decide (x = z)) as [->|Hne]; [done|].
  destruct (IH Hl) as [IH1 IH2]. split.
  - apply NoDup_cons. split; [|done]. intros ?%elem_of_remove_first. done.
  - intros [?|?]%elem_of_cons; done.
Qed.

Lemma length_remove_first {A} `{EqDecision A} (x : A) (l : list A) :
  x ∈ l -> S (length (remove_first x l)) = length l.
Proof.
  induction l as [|z l IH]; simpl; [by intros ?%elem_of_nil|].
  destruct (decide (x = z)); [done|].
  intros [?|?]%elem_of_cons; [done|]. simpl. by rewrite IH.
Qed.

Lemma filter_none {A} (P : A -> Prop) `{forall x, Decision (P x)} (l : list A) :
  (forall y, y ∈ l -> ~ P y) -> filter P l = [].
Proof.
  induction l as [|z l IH]; intros Hn; [done|].
  rewrite filter_cons, decide_False by (apply Hn; by left).
  apply IH. intros y Hy. apply Hn. by right.
Qed.

Lemma filter_unique {A} (P : A -> Prop) `{forall x, Decision (P x)} (x : A) (l : list A) :
  NoDup l -> x ∈ l -> P x -> (forall y, y ∈ l -> P y -> y = x) -> filter P l = [x].
Proof.
  induction l as [|z l IH]; [by intros _ ?%elem_of_nil|].
  intros [Hz Hl]%NoDup_cons Hx HP Hu. rewrite filter_cons.
  destruct (decide (P z)) as [HPz|HPz].
  - assert (z = x) as -> by (apply Hu; [by left|done]). f_equal.
    apply filter_none. intros y Hy HPy.
    assert (y = x) as -> by (apply Hu; [by right|done]). done.
  - apply elem_of_cons in Hx as [->|Hx]; [done|].
    apply IH; try done. intros y Hy. apply Hu. by right.
Qed.

(** *** Routes *)

Definition suppress_body (route del_route : Route.t) : M (list Route.t) unit :=
  if bool_decide (Route.destination route = Route.destination del_route)
  then py_remove del_route id (fun l _ => l)
  else ret tt.

Definition same_destination_at_most_once (D : string) (l : list Route.t) : Prop :=
  forall x y, x ∈ l -> y ∈ l ->
    Route.destination x = D -> Route.destination y = D -> x = y.

Lemma suppress_loop (route : Route.t) : forall fuel i (l : list Route.t),
  length l - i < fuel -> NoDup l ->
  exists l',
    for_live fuel id (suppress_body route) i l = Ok tt l' /\
    NoDup l' /\
    (forall x, x ∈ l' -> x ∈ l) /\
    (forall x, x ∈ l -> Route.destination x ≠ Route.destination route -> x ∈ l') /\
    (same_destination_at_most_once (Route.destination route) l ->
     (forall j x, j < i -> l !! j = Some x ->
                  Route.destination x ≠ Route.destination route) ->
     forall x, x ∈ l' -> Route.destination x ≠ Route.destination route).
Proof.
  induction fuel as [|fuel IH]; intros i l Hfuel Hnd; [lia|].
  simpl. unfold bind at 1, gets at 1. unfold id at 1.
  destruct (l !! i) as [d|] eqn:Hd.
  - assert (Hdl : d ∈ l) by (by eapply list_elem_of_lookup_2).
    assert (Hi : i < length l) by (by eapply lookup_lt_Some).
    unfold bind, suppress_body at 1. case_bool_decide as Hdest.
    + unfold py_remove, bind, gets, modify, id. rewrite bool_decide_eq_true_2 by done.
      destruct (NoDup_remove_first d l Hnd) as [Hnd1 Hd1].
      pose proof (length_remove_first d l Hdl) as Hlen.
      destruct (IH (S i) (remove_first d l)) as (l' & Hrun & Hnd' & Hsub & Hkeep & _);
        [lia|done|].
      exists l'. split; [done|]. split; [done|]. split; [|split].
      * intros x Hx. eapply elem_of_remove_first; eauto.
      * intros x Hx Hne. apply Hkeep; [|done].
        apply elem_of_remove_first_ne; [done|]. intros ->. congruence.
      * intros Huniq _ x Hx Hxd. apply Hsub in Hx.
        assert (x = d) as ->.
        { apply Huniq; try done. by eapply elem_of_remove_first. }
        done.
    + unfold ret.
      destruct (IH (S i) l) as (l' & Hrun & Hnd' & Hsub & Hkeep & Huniq);
        [lia|done|].
      exists l'. split; [done|]. split; [done|]. split; [done|]. split; [done|].
      intros Hu Hbefore. apply Huniq; [done|].
      intros j x Hj Hx. destruct (decide (j = i)) as [->|Hne].
      * rewrite Hd in Hx. injection Hx as <-. congruence.
      * apply (Hbefore j); [lia|done].
  - exists l. unfold ret. split; [done|]. split; [done|]. split; [done|].
    split; [done|]. intros _ Hbefore x Hx.
    apply list_elem_of_lookup in Hx as [j Hj].
    apply (Hbefore j); [|done]. apply lookup_ge_None in Hd.
    apply lookup_lt_Some in Hj. lia.
Qed.

Lemma suppress_replaced_Ok (route : Route.t) (removes : list Route.t) :
  NoDup removes ->
  exists l',
    suppress_replaced route removes = Ok tt l' /\
    NoDup l' /\
    (forall x, x ∈ l' -> x ∈ removes) /\
    (forall x, x ∈ removes -> Route.destination x ≠ Route.destination route -> x ∈ l') /\
    (same_destination_at_most_once (Route.destination route) removes ->
     forall x, x ∈ l' -> Route.destination x ≠ Route.destination route).
Proof.
  intros Hnd. unfold suppress_replaced, bind, get.
  destruct (suppress_loop route (S (length removes)) 0 removes) as
    (l' & Hrun & Hnd' & Hsub & Hkeep & Huniq); [lia|done|].
  exists l'. split; [exact Hrun|]. split; [done|]. split; [done|]. split; [done|].
  intros Hu. apply Huniq; [done|]. intros j x Hj. lia.
Qed.

Lemma routes_replace_loop_Ok (adds : list Route.t) : forall removes st removes' st',
  NoDup removes ->
  routes_replace_loop driver_raises adds removes st = Ok removes' st' ->
  ri st' = ri st /\
  calls st' = calls st ++ (RoutingDriver.routes_updated "replace" <$> adds) /\
  NoDup removes' /\
  (forall x, x ∈ removes' -> x ∈ removes) /\
  (forall x, x ∈ removes ->
     (forall a, a ∈ adds -> Route.destination x ≠ Route.destination a) ->
     x ∈ removes') /\
  (forall a, a ∈ adds ->
     same_destination_at_most_once (Route.destination a) removes ->
     forall x, x ∈ removes' -> Route.destination x ≠ Route.destination a).
Proof.
  induction adds as [|route adds IH]; intros removes st removes' st' Hnd Hrun.
  - injection Hrun as <- <-. rewrite app_nil_r.
    repeat split; try done. intros a Ha. by apply elem_of_nil in Ha.
  - simpl in Hrun. apply bind_Ok in Hrun as ([[] l1] & st1 & Hloc & Hrun).
    destruct (suppress_replaced_Ok route removes Hnd) as
      (l' & Hsup & Hnd' & Hsub & Hkeep & Huniq).
    unfold local in Hloc. rewrite Hsup in Hloc.
    injection Hloc as <- <-.
    apply bind_Ok in Hrun as (d & st2 & Hg & Hrun).
    apply bind_Ok in Hrun as ([] & st3 & Hi & Hrun).
    apply get_driver_Ok in Hg as [Hr2 Hc2].
    apply invoke_Ok in Hi as (Hr3 & _ & Hc3). simpl in Hrun.
    destruct (IH _ _ _ _ Hnd' Hrun) as (Hr & Hc & Hnd'' & Hsub' & Hkeep' & Huniq').
    split; [congruence|]. split.
    { rewrite Hc, Hc3, Hc2. rewrite fmap_cons. by rewrite <- app_assoc. }
    split; [done|]. split; [auto|]. split.
    + intros x Hx Hne. apply Hkeep'.
      * apply Hkeep; [done|]. apply Hne. by left.
      * intros a Ha. apply Hne. by right.
    + intros a [->|Ha]%elem_of_cons Hu x Hx.
      * apply Huniq; [done|]. by apply Hsub'.
      * apply (Huniq' a Ha); [|done].
        intros y z Hy Hz. apply Hu; by apply Hsub.
Qed.

Lemma delete_loop_Ok (l : list Route.t) : forall st st',
  for_each (fun route =>
              bind get_driver (fun driver =>
                invoke driver_raises driver (RoutingDriver.routes_updated "delete" route)))
           l st = Ok tt st' ->
  ri st' = ri st /\
  calls st' = calls st ++ (RoutingDriver.routes_updated "delete" <$> l).
Proof.
  induction l as [|r l IH]; intros st st' Hrun.
  - injection Hrun as <-. by rewrite app_nil_r.
  - simpl in Hrun. apply bind_Ok in Hrun as ([] & st1 & Hc & Hrun).
    apply driver_call_Ok in Hc as [Hr1 Hc1].
    apply IH in Hrun as [Hr Hc]. split; [congruence|].
    rewrite Hc, Hc1, fmap_cons. by rewrite <- app_assoc.
Qed.

Lemma routes_updated_Ok st st' :
  (forall l, set_order l ≡ₚ l) ->
  routes_updated driver_raises set_order st = Ok tt st' ->
  let applied := RouterInfo.routes (ri st) in
  let desired := Router.routes (RouterInfo.router (ri st)) in
  exists adds removes,
    calls st' = calls st ++ (RoutingDriver.routes_updated "replace" <$> adds)
                         ++ (RoutingDriver.routes_updated "delete" <$> removes) /\
    ri st' = RouterInfo.set_routes desired (ri st) /\
    NoDup adds /\ NoDup removes /\
    (forall x, x ∈ adds <-> x ∈ desired /\ x ∉ applied) /\
    (forall x, x ∈ removes -> x ∈ applied /\ x ∉ desired) /\
    (forall x, x ∈ applied -> x ∉ desired ->
       (forall a, a ∈ adds -> Route.destination x ≠ Route.destination a) ->
       x ∈ removes) /\
    (forall a, a ∈ adds ->
       same_destination_at_most_once (Route.destination a) applied ->
       forall x, x ∈ removes -> Route.destination x ≠ Route.destination a).
Proof.
  intros Hperm Hrun applied desired.
  unfold routes_updated in Hrun. apply bind_Ok in Hrun as (st0 & ? & [= <- <-] & Hrun).
  fold applied desired in Hrun. unfold diff_list_of_dict in Hrun.
  set (adds := set_order (remove_dups (list_difference desired applied))) in *.
  set (removes0 := set_order (remove_dups (list_difference applied desired))) in *.
  apply bind_Ok in Hrun as (removes & st1 & Hrep & Hrun).
  apply bind_Ok in Hrun as ([] & st2 & Hdel & Hrun).
  injection Hrun as <-.
  assert (Hadds : forall x, x ∈ adds <-> x ∈ desired /\ x ∉ applied).
  { intros x. subst adds. rewrite Hperm, elem_of_remove_dups.
    apply list_elem_of_difference. }
  assert (Hrem0 : forall x, x ∈ removes0 <-> x ∈ applied /\ x ∉ desired).
  { intros x. subst removes0. rewrite Hperm, elem_of_remove_dups.
    apply list_elem_of_difference. }
  assert (Hnd0 : NoDup removes0).
  { subst removes0. rewrite Hperm. apply NoDup_remove_dups. }
  destruct (routes_replace_loop_Ok adds removes0 st removes st1 Hnd0 Hrep)
    as (Hr1 & Hc1 & Hnd & Hsub & Hkeep & Huniq).
  apply delete_loop_Ok in Hdel as [Hr2 Hc2].
  exists adds, removes. simpl. split.
  { rewrite Hc2, Hc1. by rewrite <- app_assoc. }
  split; [by rewrite Hr2, Hr1|].
  split; [subst adds; rewrite Hperm; apply NoDup_remove_dups|].
  split; [done|]. split; [done|]. split; [|split].
  - intros x Hx. by apply Hrem0, Hsub.
  - intros x Hx Hnx Hne. apply Hkeep; [by apply Hrem0|done].
  - intros a Ha Hu x Hx. apply (Huniq a Ha); [|done].
    intros y z Hy Hz. apply Hu; by apply Hrem0.
Qed.

End PassFacts.

(** Whether a driver call is [routes_updated] with this action for this
    destination. *)
Definition is_route_call (action destination : string) (c : RoutingDriver.call) : Prop :=
  match c with
  | RoutingDriver.routes_updated a r => a = action /\ Route.destination r = destination
  | _ => False
  end.

#[global] Instance is_route_call_dec action destination c :
  Decision (is_route_call action destination c).
Proof. destruct c; simpl; apply _. Defined.

(** C5, as the code has it: in a route-diff pass that completes, a delete
    is issued for every applied route whose destination is absent from the
    desired list; when the desired list has a route with the same
    destination and another nexthop, and this is the only desired and the
    only applied route for that destination, exactly one replace is issued
    for the destination and no delete; afterwards the applied route list is
    the desired list.  (With several desired routes for one destination one
    replace is issued for each.) *)
Theorem route_diff_replace_over_delete
    driver_raises set_order (st st' : L3NATAgent.state) :
  (forall l, set_order l ≡ₚ l) ->
  L3NATAgent.routes_updated driver_raises set_order st = Ok tt st' ->
  let applied := RouterInfo.routes (L3NATAgent.ri st) in
  let desired := Router.routes (RouterInfo.router (L3NATAgent.ri st)) in
  exists new,
    L3NATAgent.calls st' = L3NATAgent.calls st ++ new /\
    (forall r, r ∈ applied ->
       Route.destination r ∉ Route.destination <$> desired ->
       RoutingDriver.routes_updated "delete" r ∈ new) /\
    (forall r r', r ∈ applied -> r' ∈ desired ->
       Route.destination r' = Route.destination r ->
       Route.nexthop r' ≠ Route.nexthop r ->
       (forall x, x ∈ desired -> Route.destination x = Route.destination r -> x = r') ->
       (forall x, x ∈ applied -> Route.destination x = Route.destination r -> x = r) ->
       filter (is_route_call "replace" (Route.destination r)) new
         = [RoutingDriver.routes_updated "replace" r'] /\
       filter (is_route_call "delete" (Route.destination r)) new = []) /\
    RouterInfo.routes (L3NATAgent.ri st') = desired.
Proof.
  intros Hperm Hrun applied desired.
  destruct (routes_updated_Ok driver_raises set_order st st' Hperm Hrun)
    as (adds & removes & Hc & Hr & Hnda & Hndr & Hadds & Hrem & Hkeep & Huniq).
  fold applied desired in Hadds, Hrem, Hkeep, Huniq, Hr.
  eexists. split; [exact Hc|]. split; [|split].
  - intros r Hr1 Hr2. apply elem_of_app. right.
    apply list_elem_of_fmap. exists r. split; [done|]. apply Hkeep; [done| |].
    + intros Hin. apply Hr2. apply list_elem_of_fmap. eauto.
    + intros a Ha Heq. apply Hr2. apply list_elem_of_fmap. exists a.
      split; [done|]. by apply Hadds.
  - intros r r' Hr1 Hr2 Hd Hn Hud Hua.
    assert (Hr'a : r' ∈ adds).
    { apply Hadds. split; [done|]. intros Hin. apply Hn.
      by rewrite (Hua r' Hin Hd). }
    rewrite !filter_app. split.
    + rewrite (filter_none _ (_ <$> removes)).
      2:{ intros c (x & -> & _)%list_elem_of_fmap [[=] _]. }
      rewrite app_nil_r.
      assert (Hf : filter (fun x => Route.destination x = Route.destination r) adds = [r']).
      { apply filter_unique; try done. intros y Hy Hyd. apply Hud; [|done].
        by apply Hadds. }
      change [RoutingDriver.routes_updated "replace" r']
        with (RoutingDriver.routes_updated "replace" <$> [r']).
      clear -Hf. revert Hf. generalize [r']. induction adds as [|a adds IH]; intros l Hf.
      * rewrite filter_nil in Hf. by subst l.
      * rewrite fmap_cons, filter_cons. rewrite filter_cons in Hf.
        destruct (decide (Route.destination a = Route.destination r)) as [Ha|Ha].
        -- rewrite decide_True by done. destruct l as [|b l]; [done|].
           injection Hf as -> Hf. rewrite fmap_cons. f_equal. by apply IH.
        -- rewrite decide_False by (intros [_ ?]; done). by apply IH.
    + rewrite (filter_none _ (_ <$> adds)).
      2:{ intros c (x & -> & _)%list_elem_of_fmap [[=] _]. }
      apply filter_none.
      intros c (x & -> & Hx)%list_elem_of_fmap [_ Hxd].
      refine (Huniq r' Hr'a _ x Hx _); [|congruence].
      intros y z Hy Hz Hyd Hzd. rewrite (Hua y Hy), (Hua z Hz); congruence.
  - rewrite Hr. done.
Qed.

(** *** Loops whose every turn keeps a relation between states *)

Lemma for_each_Ok_inv {S A} (R : S -> S -> Prop) (body : A -> M S unit) (l : list A) :
  (forall s, R s s) -> (forall s1 s2 s3, R s1 s2 -> R s2 s3 -> R s1 s3) ->
  (forall x s s', x ∈ l -> body x s = Ok tt s' -> R s s') ->
  forall s s', for_each body l s = Ok tt s' -> R s s'.
Proof.
  intros Hrefl Htrans. induction l as [|x l IH]; intros Hbody s s' Hrun.
  - injection Hrun as <-. apply Hrefl.
  - simpl in Hrun. apply bind_Ok in Hrun as ([] & s1 & Hx & Hrun).
    eapply Htrans; [eapply Hbody; [by left|done]|].
    apply IH; [|done]. intros y s2 s3 Hy. apply Hbody. by right.
Qed.

Lemma for_live_Ok_inv {S A} (R : S -> S -> Prop) (lst : S -> list A)
    (body : A -> M S unit) :
  (forall s, R s s) -> (forall s1 s2 s3, R s1 s2 -> R s2 s3 -> R s1 s3) ->
  (forall x s s', body x s = Ok tt s' -> R s s') ->
  forall fuel i s s', for_live fuel lst body i s = Ok tt s' -> R s s'.
Proof.
  intros Hrefl Htrans Hbody. induction fuel as [|fuel IH]; intros i s s' Hrun; [done|].
  simpl in Hrun. apply bind_Ok in Hrun as (l & s0 & [= <- <-] & Hrun).
  destruct (lst s !! i) as [x|].
  - apply bind_Ok in Hrun as ([] & s1 & Hx & Hrun).
    eapply Htrans; [by eapply Hbody|by eapply IH].
  - injection Hrun as <-. apply Hrefl.
Qed.

(** ** Kinds of driver call *)

Definition is_floating_ip_call (c : RoutingDriver.call) : Prop :=
  match c with
  | RoutingDriver.floating_ip_added _ _ _
  | RoutingDriver.floating_ip_removed _ _ _ => True
  | _ => False
  end.

Definition is_routes_call (c : RoutingDriver.call) : Prop :=
  match c with
  | RoutingDriver.routes_updated _ _ => True
  | _ => False
  end.

(** What the loop over the new ports may ask of the driver: the port is
    none of those applied before ([existing] holds their ids). *)
Definition is_new_port_call (existing : list string) (c : RoutingDriver.call) : Prop :=
  match c with
  | RoutingDriver.internal_network_added p
  | RoutingDriver.enable_internal_network_NAT p _ => Port.id p ∉ existing
  | _ => False
  end.

(** What the loop over the old ports may ask of the driver, when the
    desired gateway is [gw]. *)
Definition is_old_port_call (gw : option Port.t) (c : RoutingDriver.call) : Prop :=
  match c with
  | RoutingDriver.internal_network_removed _ => True
  | RoutingDriver.disable_internal_network_NAT _ g => gw = Some g
  | _ => False
  end.

(** Every occurrence of [a] in the trace comes before every occurrence of
    [b], and both occur. *)
Definition strictly_before (a b : RoutingDriver.call) (tr : list RoutingDriver.call) : Prop :=
  a ∈ tr /\ b ∈ tr /\
  forall i j, tr !! i = Some a -> tr !! j = Some b -> i < j.


Section PassSteps.

Import L3NATAgent.

Variable driver_raises : list RoutingDriver.call -> RoutingDriver.call -> bool.
Variable netaddr_prefixlen : string -> option string.
Variable set_order : list Route.t -> list Route.t.

Lemma invoke_loop_Ok d (f : Port.t -> RoutingDriver.call) (l : list Port.t) :
  forall st st',
  for_each (fun port => invoke driver_raises d (f port)) l st = Ok tt st' ->
  ri st' = ri st /\ calls st' = calls st ++ (f <$> l).
Proof.
  induction l as [|p l IH]; intros st st' Hrun.
  - injection Hrun as <-. by rewrite app_nil_r.
  - simpl in Hrun. apply bind_Ok in Hrun as ([] & st1 & Hi & Hrun).
    apply invoke_Ok in Hi as (Hr1 & _ & Hc1). apply IH in Hrun as [Hr Hc].
    split; [congruence|]. rewrite Hc, Hc1, fmap_cons. by rewrite <- app_assoc.
Qed.

Definition nat_calls (f : Port.t -> RoutingDriver.call) (r : RouterInfo.t)
    : list RoutingDriver.call :=
  if RouterInfo.snat_enabled r && bool_decide (0 < length (RouterInfo.internal_ports r))
  then f <$> RouterInfo.internal_ports r else [].

Lemma external_gateway_added_Ok g st st' :
  external_gateway_added driver_raises g st = Ok tt st' ->
  ri st' = ri st /\
  calls st' = calls st ++ RoutingDriver.external_gateway_added g
                :: nat_calls (fun p => RoutingDriver.enable_internal_network_NAT p g) (ri st).
Proof.
  unfold external_gateway_added. intros (d & st1 & Hg & Hrun)%bind_Ok.
  apply bind_Ok in Hrun as ([] & st2 & Hi & Hrun).
  apply bind_Ok in Hrun as (? & ? & [= <- <-] & Hrun).
  apply get_driver_Ok in Hg as [Hr1 Hc1]. apply invoke_Ok in Hi as (Hr2 & _ & Hc2).
  unfold nat_calls. rewrite <- Hr1, <- Hr2.
  destruct (RouterInfo.snat_enabled (ri st2) && _).
  - apply invoke_loop_Ok in Hrun as [Hr Hc]. split; [congruence|].
    rewrite Hc, Hc2, Hc1. by rewrite <- app_assoc.
  - injection Hrun as <-. split; [congruence|]. by rewrite Hc2, Hc1.
Qed.

Lemma external_gateway_removed_Ok g st st' :
  external_gateway_removed driver_raises g st = Ok tt st' ->
  ri st' = ri st /\
  calls st' = calls st
                ++ nat_calls (fun p => RoutingDriver.disable_internal_network_NAT p g) (ri st)
                ++ [RoutingDriver.external_gateway_removed g].
Proof.
  unfold external_gateway_removed. intros (d & st1 & Hg & Hrun)%bind_Ok.
  apply bind_Ok in Hrun as (? & ? & [= <- <-] & Hrun).
  apply bind_Ok in Hrun as ([] & st2 & Hl & Hi).
  apply get_driver_Ok in Hg as [Hr1 Hc1]. apply invoke_Ok in Hi as (Hr2 & _ & Hc2).
  unfold nat_calls. rewrite <- Hr1.
  destruct (RouterInfo.snat_enabled (ri st1) && _).
  - apply invoke_loop_Ok in Hl as [Hr Hc]. split; [congruence|].
    rewrite Hc2, Hc, Hc1. by rewrite <- !app_assoc.
  - injection Hl as <-. split; [congruence|]. by rewrite Hc2, Hc1.
Qed.

Definition nat_call (f : Port.t -> RoutingDriver.call) (r : RouterInfo.t)
    (ex_gw_port : option Port.t) : list RoutingDriver.call :=
  match ex_gw_port with
  | Some g => if RouterInfo.snat_enabled r then [f g] else []
  | None => []
  end.

Lemma internal_network_added_Ok p gw st st' :
  internal_network_added driver_raises p gw st = Ok tt st' ->
  ri st' = ri st /\
  calls st' = calls st ++ RoutingDriver.internal_network_added p
                :: nat_call (RoutingDriver.enable_internal_network_NAT p) (ri st) gw.
Proof.
  unfold internal_network_added. intros (d & st1 & Hg & Hrun)%bind_Ok.
  apply bind_Ok in Hrun as ([] & st2 & Hi & Hrun).
  apply bind_Ok in Hrun as (? & ? & [= <- <-] & Hrun).
  apply get_driver_Ok in Hg as [Hr1 Hc1]. apply invoke_Ok in Hi as (Hr2 & _ & Hc2).
  unfold nat_call. rewrite <- Hr1, <- Hr2. destruct gw as [g|].
  - destruct (RouterInfo.snat_enabled (ri st2)).
    + apply invoke_Ok in Hrun as (Hr & _ & Hc). split; [congruence|].
      rewrite Hc, Hc2, Hc1. by rewrite <- app_assoc.
    + injection Hrun as <-. split; [congruence|]. by rewrite Hc2, Hc1.
  - injection Hrun as <-. split; [congruence|]. by rewrite Hc2, Hc1.
Qed.

Lemma internal_network_removed_Ok p gw st st' :
  internal_network_removed driver_raises p gw st = Ok tt st' ->
  ri st' = ri st /\
  calls st' = calls st ++ RoutingDriver.internal_network_removed p
                :: nat_call (RoutingDriver.disable_internal_network_NAT p) (ri st) gw.
Proof.
  unfold internal_network_removed. intros (d & st1 & Hg & Hrun)%bind_Ok.
  apply bind_Ok in Hrun as ([] & st2 & Hi & Hrun).
  apply bind_Ok in Hrun as (? & ? & [= <- <-] & Hrun).
  apply get_driver_Ok in Hg as [Hr1 Hc1]. apply invoke_Ok in Hi as (Hr2 & _ & Hc2).
  unfold nat_call. rewrite <- Hr1, <- Hr2. destruct gw as [g|].
  - destruct (RouterInfo.snat_enabled (ri st2)).
    + apply invoke_Ok in Hrun as (Hr & _ & Hc). split; [congruence|].
      rewrite Hc, Hc2, Hc1. by rewrite <- app_assoc.
    + injection Hrun as <-. split; [congruence|]. by rewrite Hc2, Hc1.
  - injection Hrun as <-. split; [congruence|]. by rewrite Hc2, Hc1.
Qed.

Lemma set_subnet_info_Ok {S} (p p' : Port.t) (s s' : S) :
  _set_subnet_info netaddr_prefixlen p s = Ok p' s' ->
  s' = s /\ exists c, p' = Port.set_ip_cidr c p.
Proof.
  unfold _set_subnet_info. destruct (Port.fixed_ips p); [done|].
  destruct (netaddr_prefixlen _); [|done]. intros [= <- <-]. eauto.
Qed.

(** The RouterInfo with its ports, desired and applied, blanked: what the
    loops over the ports leave alone. *)
Definition without_ports (r : RouterInfo.t) : RouterInfo.t :=
  RouterInfo.set_internal_ports []
    (RouterInfo.update_router (Router.set_interfaces []) r).

Lemma without_ports_fields r r' :
  without_ports r' = without_ports r ->
  RouterInfo.ex_gw_port r' = RouterInfo.ex_gw_port r /\
  RouterInfo.snat_enabled r' = RouterInfo.snat_enabled r /\
  RouterInfo.floating_ips r' = RouterInfo.floating_ips r /\
  RouterInfo.routes r' = RouterInfo.routes r /\
  RouterInfo.router_id r' = RouterInfo.router_id r /\
  Router.gw_port (RouterInfo.router r') = Router.gw_port (RouterInfo.router r) /\
  Router.floatingips (RouterInfo.router r') = Router.floatingips (RouterInfo.router r) /\
  Router.routes (RouterInfo.router r') = Router.routes (RouterInfo.router r) /\
  Router.hosting_device (RouterInfo.router r')
    = Router.hosting_device (RouterInfo.router r).
Proof.
  destruct r as [? ? ? ? ? [] ?], r' as [? ? ? ? ? [] ?].
  unfold without_ports. simpl. intros [=]. by subst.
Qed.

Lemma add_new_port_Ok gw ip st st' :
  add_new_port driver_raises netaddr_prefixlen gw ip st = Ok tt st' ->
  exists p',
    Port.id p' = Port.id ip.2 /\
    without_ports (ri st') = without_ports (ri st) /\
    RouterInfo.internal_ports (ri st') = RouterInfo.internal_ports (ri st) ++ [p'] /\
    calls st' = calls st ++ RoutingDriver.internal_network_added p'
                  :: nat_call (RoutingDriver.enable_internal_network_NAT p') (ri st) gw.
Proof.
  unfold add_new_port. intros (p' & st1 & Hs & Hrun)%bind_Ok.
  apply set_subnet_info_Ok in Hs as [-> [c ->]].
  apply bind_Ok in Hrun as ([] & st2 & [= <-] & Hrun).
  apply bind_Ok in Hrun as ([] & st3 & Hadd & [= <-]).
  apply internal_network_added_Ok in Hadd as [Hr Hc].
  exists (Port.set_ip_cidr c ip.2). split; [done|]. simpl in *.
  rewrite Hr, Hc. destruct st as [r h cs]. simpl.
  destruct r as [? ? ? ? ? [] ?]. done.
Qed.

Lemma remove_old_port_Ok gw p st st' :
  remove_old_port driver_raises gw p st = Ok tt st' ->
  without_ports (ri st') = without_ports (ri st) /\
  p ∈ RouterInfo.internal_ports (ri st) /\
  RouterInfo.internal_ports (ri st') = remove_first p (RouterInfo.internal_ports (ri st)) /\
  calls st' = calls st ++ RoutingDriver.internal_network_removed p
                :: nat_call (RoutingDriver.disable_internal_network_NAT p) (ri st) gw.
Proof.
  unfold remove_old_port. intros ([] & st1 & Hrem & Hrun)%bind_Ok.
  apply internal_network_removed_Ok in Hrem as [Hr Hc].
  unfold py_remove in Hrun. apply bind_Ok in Hrun as (l & ? & [= <- <-] & Hrun).
  case_bool_decide as Hin; [|done]. injection Hrun as <-. simpl.
  rewrite Hr in *. rewrite Hc. destruct (ri st) as [? ? ? ? ? [] ?]. done.
Qed.

Definition ports_of (st : state) : list Port.t := RouterInfo.internal_ports (ri st).

Lemma new_ports_loop_Ok gw existing (l : list (nat * Port.t)) st st' :
  (forall ip, ip ∈ l -> Port.id ip.2 ∉ existing) ->
  for_each (add_new_port driver_raises netaddr_prefixlen gw) l st = Ok tt st' ->
  exists T,
    calls st' = calls st ++ T /\
    Forall (is_new_port_call existing) T /\
    without_ports (ri st') = without_ports (ri st) /\
    (forall p, p ∈ ports_of st -> p ∈ ports_of st').
Proof.
  intros Hl.
  apply (for_each_Ok_inv (fun st st' =>
    exists T, calls st' = calls st ++ T /\
      Forall (is_new_port_call existing) T /\
      without_ports (ri st') = without_ports (ri st) /\
      (forall p, p ∈ ports_of st -> p ∈ ports_of st'))).
  - intros s. exists []. rewrite app_nil_r. repeat split; auto.
  - intros s1 s2 s3 (T1 & Hc1 & HT1 & Hw1 & Hp1) (T2 & Hc2 & HT2 & Hw2 & Hp2).
    exists (T1 ++ T2). rewrite Hc2, Hc1, app_assoc.
    repeat split; [by apply Forall_app|congruence|auto].
  - intros ip s s' Hip (p' & Hid & Hw & Hp & Hc)%add_new_port_Ok.
    eexists. split; [exact Hc|]. split; [|split; [done|]].
    + apply List.Forall_cons; [simpl; rewrite Hid; by apply Hl|].
      unfold nat_call. destruct gw; [|constructor].
      destruct (RouterInfo.snat_enabled _); [|constructor].
      apply Forall_singleton. simpl. rewrite Hid. by apply Hl.
    + intros p Hin. unfold ports_of. rewrite Hp. apply elem_of_app. by left.
Qed.

Lemma old_ports_loop_Ok gw (current : list string) (l : list Port.t) st st' :
  (forall p, p ∈ l -> Port.id p ∉ current) ->
  for_each (remove_old_port driver_raises gw) l st = Ok tt st' ->
  exists T,
    calls st' = calls st ++ T /\
    Forall (is_old_port_call gw) T /\
    without_ports (ri st') = without_ports (ri st) /\
    (forall p, p ∈ ports_of st -> Port.id p ∈ current -> p ∈ ports_of st').
Proof.
  intros Hl.
  apply (for_each_Ok_inv (fun st st' =>
    exists T, calls st' = calls st ++ T /\
      Forall (is_old_port_call gw) T /\
      without_ports (ri st') = without_ports (ri st) /\
      (forall p, p ∈ ports_of st -> Port.id p ∈ current -> p ∈ ports_of st'))).
  - intros s. exists []. rewrite app_nil_r. repeat split; auto.
  - intros s1 s2 s3 (T1 & Hc1 & HT1 & Hw1 & Hp1) (T2 & Hc2 & HT2 & Hw2 & Hp2).
    exists (T1 ++ T2). rewrite Hc2, Hc1, app_assoc.
    repeat split; [by apply Forall_app|congruence|auto].
  - intros q s s' Hq (Hw & Hin & Hp & Hc)%remove_old_port_Ok.
    eexists. split; [exact Hc|]. split; [|split; [done|]].
    + apply List.Forall_cons; [done|].
      unfold nat_call. destruct gw; [|constructor].
      destruct (RouterInfo.snat_enabled _); [|constructor].
      by apply Forall_singleton.
    + intros p Hpin Hpid. unfold ports_of. rewrite Hp.
      apply elem_of_remove_first_ne; [done|]. intros ->. by apply (Hl q).
Qed.

(** *** Floating IPs *)

Definition without_floating_ips (r : RouterInfo.t) : RouterInfo.t :=
  RouterInfo.set_floating_ips [] r.

Definition floating_ip_step (st st' : state) : Prop :=
  exists T, calls st' = calls st ++ T /\
    Forall is_floating_ip_call T /\
    without_floating_ips (ri st') = without_floating_ips (ri st).

Lemma floating_ip_step_refl st : floating_ip_step st st.
Proof. exists []. rewrite app_nil_r. repeat split; auto. Qed.

Lemma floating_ip_step_trans s1 s2 s3 :
  floating_ip_step s1 s2 -> floating_ip_step s2 s3 -> floating_ip_step s1 s3.
Proof.
  intros (T1 & Hc1 & HT1 & Hw1) (T2 & Hc2 & HT2 & Hw2).
  exists (T1 ++ T2). rewrite Hc2, Hc1, app_assoc.
  repeat split; [by apply Forall_app|congruence].
Qed.

Lemma floating_ip_step_call c st st' :
  is_floating_ip_call c ->
  bind get_driver (fun d => invoke driver_raises d c) st = Ok tt st' ->
  floating_ip_step st st'.
Proof.
  intros Hc [Hr Hcs]%driver_call_Ok. exists [c].
  split; [done|]. split; [by apply Forall_singleton|by rewrite Hr].
Qed.

Lemma floating_ip_added_Ok g fl fx st st' :
  floating_ip_added driver_raises g fl fx st = Ok tt st' -> floating_ip_step st st'.
Proof. apply floating_ip_step_call. exact I. Qed.

Lemma floating_ip_removed_Ok g fl fx st st' :
  floating_ip_removed driver_raises g fl fx st = Ok tt st' -> floating_ip_step st st'.
Proof. apply floating_ip_step_call. exact I. Qed.

Lemma floating_ip_step_set l st :
  floating_ip_step st (set_ri (RouterInfo.set_floating_ips l) st).
Proof. exists []. rewrite app_nil_r. repeat split; auto. Qed.

Lemma floating_ip_step_set_fun (f : list FloatingIp.t -> list FloatingIp.t) st :
  floating_ip_step st
    (set_ri (fun r => RouterInfo.set_floating_ips (f (RouterInfo.floating_ips r)) r) st).
Proof. exists []. rewrite app_nil_r. repeat split; auto. Qed.

Lemma remove_floating_ip_Ok fip st st' :
  remove_floating_ip fip st = Ok tt st' ->
  fip ∈ ri_floating_ips st /\
  st' = set_ri (RouterInfo.set_floating_ips (remove_first fip (ri_floating_ips st))) st.
Proof.
  unfold remove_floating_ip, py_remove.
  intros (l & ? & [= <- <-] & Hrun)%bind_Ok.
  case_bool_decide; [|done]. by injection Hrun as <-.
Qed.

Lemma floating_ips_sync_body_Ok to_remove m fip st st' :
  floating_ips_sync_body driver_raises to_remove m fip st = Ok tt st' ->
  floating_ip_step st st'.
Proof.
  unfold floating_ips_sync_body. case_bool_decide.
  - intros ([] & st1 & [_ ->]%remove_floating_ip_Ok & Hrun)%bind_Ok.
    apply bind_Ok in Hrun as (? & ? & [= <- <-] & Hrun).
    eapply floating_ip_step_trans; [apply floating_ip_step_set|].
    by eapply floating_ip_removed_Ok.
  - destruct (m !! FloatingIp.id fip) as [new_fip|]; [|done].
    destruct (truthy _ && truthy _ && _); [|intros [= <-]; apply floating_ip_step_refl].
    intros (? & ? & [= <- <-] & Hrun)%bind_Ok.
    apply bind_Ok in Hrun as ([] & st1 & Hrem & Hrun).
    apply bind_Ok in Hrun as (? & ? & [= <- <-] & Hrun).
    apply bind_Ok in Hrun as ([] & st2 & Hadd & Hrun).
    apply bind_Ok in Hrun as ([] & st3 & [_ ->]%remove_floating_ip_Ok & [= <-]).
    eapply floating_ip_step_trans; [by eapply floating_ip_removed_Ok|].
    eapply floating_ip_step_trans; [by eapply floating_ip_added_Ok|].
    eapply floating_ip_step_trans; [apply floating_ip_step_set|].
    apply (floating_ip_step_set_fun (fun l => l ++ [new_fip])).
Qed.

(** The dictionary the first loop builds: for each id, the last desired
    floating IP with that id that has a port. *)
Definition id_to_fip_map_of (floating_ips : list FloatingIp.t)
    (m : gmap string FloatingIp.t) : gmap string FloatingIp.t :=
  foldl (fun m fip =>
           if truthy (FloatingIp.port_id fip) then <[FloatingIp.id fip := fip]> m else m)
        m floating_ips.

Lemma floating_ips_add_loop_Ok (existing : list string) gw (l : list FloatingIp.t) :
  forall m st m' st',
  floating_ips_add_loop driver_raises existing gw l m st = Ok m' st' ->
  m' = id_to_fip_map_of l m /\ floating_ip_step st st' /\
  exists added,
    ri_floating_ips st' = ri_floating_ips st ++ added /\
    (forall f, f ∈ added -> f ∈ l /\ FloatingIp.id f ∉ existing).
Proof.
  induction l as [|fip l IH]; intros m st m' st' Hrun.
  - injection Hrun as <- <-. split; [done|]. split; [apply floating_ip_step_refl|].
    exists []. rewrite app_nil_r. split; [done|]. intros f Hf. by apply elem_of_nil in Hf.
  - simpl in Hrun. destruct (truthy (FloatingIp.port_id fip)) eqn:Hport.
    + apply bind_Ok in Hrun as ([] & st1 & Hadd & Hrun).
      apply IH in Hrun as (-> & Hstep & added & Hfl & Hadded).
      split; [simpl; by rewrite Hport|].
      case_bool_decide as Hnew.
      * apply bind_Ok in Hadd as ([] & st0 & [= <-] & Hcall).
        pose proof Hcall as [Hr _]%driver_call_Ok.
        apply floating_ip_added_Ok in Hcall.
        split.
        { eapply floating_ip_step_trans; [|exact Hstep].
          eapply floating_ip_step_trans;
            [apply (floating_ip_step_set_fun (fun l => l ++ [fip]))|].
          exact Hcall. }
        exists (fip :: added). split.
        { rewrite Hfl. unfold ri_floating_ips. rewrite Hr. simpl.
          by rewrite <- app_assoc. }
        intros f [->|Hf]%elem_of_cons; [split; [by left|done]|].
        destruct (Hadded f Hf). split; [by right|done].
      * injection Hadd as <-. split; [done|]. exists added. split; [done|].
        intros f Hf. destruct (Hadded f Hf). split; [by right|done].
    + apply IH in Hrun as (-> & Hstep & added & Hfl & Hadded).
      split; [simpl; by rewrite Hport|]. split; [done|].
      exists added. split; [done|].
      intros f Hf. destruct (Hadded f Hf). split; [by right|done].
Qed.

Lemma process_router_floating_ips_Ok gw st st' :
  process_router_floating_ips driver_raises gw st = Ok tt st' ->
  floating_ip_step st st'.
Proof.
  unfold process_router_floating_ips.
  intros (? & ? & [= <- <-] & Hrun)%bind_Ok.
  apply bind_Ok in Hrun as (m & st1 & Hadd & Hrun).
  apply bind_Ok in Hrun as (? & ? & [= <- <-] & Hrun).
  apply floating_ips_add_loop_Ok in Hadd as (_ & Hstep & _).
  eapply floating_ip_step_trans; [exact Hstep|].
  eapply (for_live_Ok_inv floating_ip_step); [..|exact Hrun].
  - apply floating_ip_step_refl.
  - apply floating_ip_step_trans.
  - intros x s s'. apply floating_ips_sync_body_Ok.
Qed.

End PassSteps.

Section PassPhases.

Import L3NATAgent.

Variable driver_raises : list RoutingDriver.call -> RoutingDriver.call -> bool.
Variable netaddr_prefixlen : string -> option string.
Variable set_order : list Route.t -> list Route.t.

Definition current_port_ids (r : RouterInfo.t) : list string :=
  Port.id <$> filter (fun p => Port.admin_state_up p = true)
                     (Router.interfaces (RouterInfo.router r)).

Definition existing_port_ids (r : RouterInfo.t) : list string :=
  Port.id <$> RouterInfo.internal_ports r.

Definition new_ports (r : RouterInfo.t) : list (nat * Port.t) :=
  filter (fun ip : nat * Port.t =>
            Port.id ip.2 ∈ current_port_ids r ∧ Port.id ip.2 ∉ existing_port_ids r)
         (imap pair (Router.interfaces (RouterInfo.router r))).

Definition old_ports (r : RouterInfo.t) : list Port.t :=
  filter (fun p => Port.id p ∉ current_port_ids r) (RouterInfo.internal_ports r).

(** The gateway step of [process_router], for the desired gateway [gw]. *)
Definition gateway_step (gw : option Port.t) : M state unit :=
  do st <- get ;
  match gw, RouterInfo.ex_gw_port (ri st) with
  | Some g, None =>
      do gw' <- _set_subnet_info netaddr_prefixlen g ;
      run modify (set_ri (RouterInfo.update_router (Router.set_gw_port (Some gw')))) ;
      external_gateway_added driver_raises gw'
  | None, Some applied_gw => external_gateway_removed driver_raises applied_gw
  | _, _ => ret tt
  end.

Definition floating_ip_phase (gw : option Port.t) : M state unit :=
  match gw with
  | Some g => process_router_floating_ips driver_raises g
  | None => ret tt
  end.

Lemma process_router_phases st st' :
  process_router driver_raises netaddr_prefixlen set_order st = Ok tt st' ->
  let gw := Router.gw_port (RouterInfo.router (ri st)) in
  exists st1 st2 st3 st4,
    for_each (add_new_port driver_raises netaddr_prefixlen gw) (new_ports (ri st)) st
      = Ok tt st1 /\
    for_each (remove_old_port driver_raises gw) (old_ports (ri st)) st1 = Ok tt st2 /\
    gateway_step gw st2 = Ok tt st3 /\
    floating_ip_phase (Router.gw_port (RouterInfo.router (ri st3))) st3 = Ok tt st4 /\
    routes_updated driver_raises set_order
      (set_ri (RouterInfo.set_ex_gw_port (Router.gw_port (RouterInfo.router (ri st3)))) st4)
      = Ok tt st'.
Proof.
  unfold process_router. intros (gw & ? & [= <- <-] & Hrun)%bind_Ok.
  apply bind_Ok in Hrun as (? & ? & [= <- <-] & Hrun). cbv zeta in Hrun.
  apply bind_Ok in Hrun as ([] & st1 & Hnew & Hrun).
  apply bind_Ok in Hrun as ([] & st2 & Hold & Hrun).
  apply bind_Ok in Hrun as (? & ? & [= <- <-] & Hrun).
  apply bind_Ok in Hrun as ([] & st3 & Hgw & Hrun).
  apply bind_Ok in Hrun as (gw3 & ? & [= <- <-] & Hrun).
  apply bind_Ok in Hrun as ([] & st4 & Hfip & Hrun).
  apply bind_Ok in Hrun as ([] & st5 & [= <-] & Hrun).
  exists st1, st2, st3, st4. repeat split; try done.
Qed.

Lemma gateway_step_Ok gw st st' :
  gateway_step gw st = Ok tt st' ->
  without_ports (RouterInfo.update_router (Router.set_gw_port None) (ri st'))
    = without_ports (RouterInfo.update_router (Router.set_gw_port None) (ri st)) /\
  RouterInfo.internal_ports (ri st') = RouterInfo.internal_ports (ri st) /\
  Router.interfaces (RouterInfo.router (ri st'))
    = Router.interfaces (RouterInfo.router (ri st)) /\
  match gw, RouterInfo.ex_gw_port (ri st) with
  | Some g, None =>
      exists c,
        Router.gw_port (RouterInfo.router (ri st')) = Some (Port.set_ip_cidr c g) /\
        calls st' = calls st
          ++ RoutingDriver.external_gateway_added (Port.set_ip_cidr c g)
          :: nat_calls (fun p => RoutingDriver.enable_internal_network_NAT p
                                   (Port.set_ip_cidr c g)) (ri st)
  | None, Some applied_gw =>
      ri st' = ri st /\
      calls st' = calls st
        ++ nat_calls (fun p => RoutingDriver.disable_internal_network_NAT p applied_gw) (ri st)
        ++ [RoutingDriver.external_gateway_removed applied_gw]
  | _, _ => st' = st
  end.
Proof.
  unfold gateway_step. intros (? & ? & [= <- <-] & Hrun)%bind_Ok.
  destruct gw as [g|], (RouterInfo.ex_gw_port (ri st)) as [ag|] eqn:Hag.
  - injection Hrun as <-. done.
  - apply bind_Ok in Hrun as (g' & ? & [-> [c ->]]%set_subnet_info_Ok & Hrun).
    apply bind_Ok in Hrun as ([] & ? & [= <-] & Hrun).
    apply external_gateway_added_Ok in Hrun as [Hr Hc]. rewrite Hr, Hc. simpl.
    destruct (ri st) as [? ? ? ? ? [] ?]. simpl. repeat split; eauto.
  - apply external_gateway_removed_Ok in Hrun as [Hr Hc]. rewrite Hr. done.
  - injection Hrun as <-. done.
Qed.

Lemma floating_ip_phase_Ok gw st st' :
  floating_ip_phase gw st = Ok tt st' -> floating_ip_step st st'.
Proof.
  destruct gw; simpl.
  - apply process_router_floating_ips_Ok.
  - intros [= <-]. apply floating_ip_step_refl.
Qed.

Lemma routes_updated_calls st st' :
  routes_updated driver_raises set_order st = Ok tt st' ->
  exists T, calls st' = calls st ++ T /\ Forall is_routes_call T /\
    ri st' = RouterInfo.set_routes (Router.routes (RouterInfo.router (ri st))) (ri st).
Proof.
  unfold routes_updated. intros (? & ? & [= <- <-] & Hrun)%bind_Ok.
  destruct (diff_list_of_dict _ _ _) as [adds removes0].
  apply bind_Ok in Hrun as (removes & st1 & Hrep & Hrun).
  apply bind_Ok in Hrun as ([] & st2 & Hdel & [= <-]).
  assert (Hrep' : ri st1 = ri st /\
            calls st1 = calls st ++ (RoutingDriver.routes_updated "replace" <$> adds)).
  { clear Hdel. revert removes0 st Hrep.
    induction adds as [|a adds IH]; intros removes0 st Hrep.
    - injection Hrep as <- <-. by rewrite app_nil_r.
    - simpl in Hrep. apply bind_Ok in Hrep as (r & st0 & Hloc & Hrep).
      assert (st0 = st) as ->.
      { unfold local in Hloc. destruct (suppress_replaced a removes0); by inversion Hloc. }
      apply bind_Ok in Hrep as (d & sa & Hg & Hrep).
      apply bind_Ok in Hrep as ([] & sb & Hi & Hrep).
      apply get_driver_Ok in Hg as [Hr2 Hc2]. apply invoke_Ok in Hi as (Hr3 & _ & Hc3).
      apply IH in Hrep as [Hr Hc]. split; [congruence|].
      rewrite Hc, Hc3, Hc2, fmap_cons. by rewrite <- app_assoc. }
  destruct Hrep' as [Hr1 Hc1]. apply delete_loop_Ok in Hdel as [Hr2 Hc2].
  eexists. split; [simpl; rewrite Hc2, Hc1, <- app_assoc; reflexivity|].
  split; [|simpl; by rewrite Hr2, Hr1].
  apply Forall_app. split; apply Forall_fmap, Forall_forall; by intros.
Qed.

End PassPhases.

(** ** The fuel of the loops suffices

    [FuelExhausted] is no Python exception: it marks a loop of the model
    that was given too few turns.  No pass ends with it. *)

Definition never_exhausts {S A} (m : M S A) : Prop :=
  forall s e s', m s = Raise e s' -> e <> FuelExhausted.

Lemma never_exhausts_ret {S A} (a : A) : never_exhausts (ret (S:=S) a).
Proof. by intros s e s'. Qed.

Lemma never_exhausts_raise {S A} (e : exn) :
  e <> FuelExhausted -> never_exhausts (raise (S:=S) (A:=A) e).
Proof. by intros He s e' s' [= <- _]. Qed.

Lemma never_exhausts_get {S} : never_exhausts (get (S:=S)).
Proof. by intros s e s'. Qed.

Lemma never_exhausts_gets {S A} (f : S -> A) : never_exhausts (gets f).
Proof. by intros s e s'. Qed.

Lemma never_exhausts_modify {S} (f : S -> S) : never_exhausts (modify f).
Proof. by intros s e s'. Qed.

Lemma never_exhausts_bind {S A B} (m : M S A) (k : A -> M S B) :
  never_exhausts m -> (forall a, never_exhausts (k a)) -> never_exhausts (bind m k).
Proof.
  intros Hm Hk s e s' [H|(a & s1 & _ & H)]%bind_Raise; [by eapply Hm|by eapply Hk].
Qed.

Lemma never_exhausts_if {S A} (b : bool) (m1 m2 : M S A) :
  never_exhausts m1 -> never_exhausts m2 -> never_exhausts (if b then m1 else m2).
Proof. by destruct b. Qed.

Lemma never_exhausts_for_each {S A} (body : A -> M S unit) (l : list A) :
  (forall x, never_exhausts (body x)) -> never_exhausts (for_each body l).
Proof.
  intros Hbody. induction l as [|x l IH]; [apply never_exhausts_ret|].
  simpl. apply never_exhausts_bind; [apply Hbody|by intros _].
Qed.

Lemma never_exhausts_py_remove {S A} `{EqDecision A} (x : A) (lst : S -> list A) set :
  never_exhausts (py_remove x lst set).
Proof.
  apply never_exhausts_bind; [apply never_exhausts_gets|]. intros l.
  apply never_exhausts_if; [apply never_exhausts_modify|by apply never_exhausts_raise].
Qed.

(** A loop over a list that its body never lengthens ends within as many
    turns as the list is long. *)
Lemma for_live_never_exhausts {S A} (lst : S -> list A) (body : A -> M S unit) :
  (forall x, never_exhausts (body x)) ->
  (forall x s s', body x s = Ok tt s' -> length (lst s') <= length (lst s)) ->
  forall fuel i s e s',
    length (lst s) - i < fuel ->
    for_live fuel lst body i s = Raise e s' -> e <> FuelExhausted.
Proof.
  intros Hbody Hlen. induction fuel as [|fuel IH]; intros i s e s' Hfuel Hrun; [lia|].
  simpl in Hrun. apply bind_Raise in Hrun as [[=]|(l & ? & [= <- <-] & Hrun)].
  destruct (lst s !! i) as [x|] eqn:Hx; [|done].
  apply bind_Raise in Hrun as [Hrun|([] & s1 & Hok & Hrun)]; [by eapply Hbody|].
  apply lookup_lt_Some in Hx. apply Hlen in Hok.
  eapply IH; [|exact Hrun]. lia.
Qed.

Section Fuel.

Import L3NATAgent.

Variable driver_raises : list RoutingDriver.call -> RoutingDriver.call -> bool.
Variable netaddr_prefixlen : string -> option string.
Variable set_order : list Route.t -> list Route.t.

Lemma never_exhausts_lift_he {A} (m : M HostingEntities.t A) :
  never_exhausts m -> never_exhausts (lift_he m).
Proof.
  intros Hm st e st'. unfold lift_he. destruct (m (_he st)) as [|e' h] eqn:Hmh; [done|].
  intros [= <- _]. by eapply Hm.
Qed.

Lemma never_exhausts_set_driver r : never_exhausts (HostingEntities._set_driver r).
Proof.
  unfold HostingEntities._set_driver. case_match; [|by apply never_exhausts_raise].
  repeat (apply never_exhausts_bind; [apply never_exhausts_modify|intros _]).
  apply never_exhausts_ret.
Qed.

Lemma never_exhausts_get_driver : never_exhausts get_driver.
Proof.
  unfold get_driver. apply never_exhausts_bind; [apply never_exhausts_get|intros st].
  apply never_exhausts_lift_he. unfold HostingEntities.get_driver.
  apply never_exhausts_bind; [apply never_exhausts_get|intros h].
  repeat case_match; (apply never_exhausts_ret || apply never_exhausts_set_driver).
Qed.

Lemma never_exhausts_invoke d c : never_exhausts (invoke driver_raises d c).
Proof. intros st e st'. unfold invoke. case_match; by intros [= <- _]. Qed.

Lemma never_exhausts_driver_call c :
  never_exhausts (bind get_driver (fun d => invoke driver_raises d c)).
Proof.
  apply never_exhausts_bind; [apply never_exhausts_get_driver|].
  intros d. apply never_exhausts_invoke.
Qed.

Lemma never_exhausts_floating_ips_sync_body to_remove m fip :
  never_exhausts (floating_ips_sync_body driver_raises to_remove m fip).
Proof.
  unfold floating_ips_sync_body, remove_floating_ip, floating_ip_removed,
    floating_ip_added.
  repeat first
    [ apply never_exhausts_ret | apply never_exhausts_get | apply never_exhausts_modify
    | apply never_exhausts_py_remove | apply never_exhausts_driver_call
    | by apply never_exhausts_raise
    | apply never_exhausts_if
    | apply never_exhausts_bind; [|intros ?]
    | case_match ].
Qed.

Lemma floating_ips_sync_body_length to_remove m fip st st' :
  floating_ips_sync_body driver_raises to_remove m fip st = Ok tt st' ->
  length (ri_floating_ips st') <= length (ri_floating_ips st).
Proof.
  unfold floating_ips_sync_body. case_bool_decide.
  - intros ([] & st1 & [Hin ->]%remove_floating_ip_Ok & Hrun)%bind_Ok.
    apply bind_Ok in Hrun as (? & ? & [= <- <-] & Hrun).
    apply driver_call_Ok in Hrun as [Hr _]. unfold ri_floating_ips. rewrite Hr. simpl.
    apply length_remove_first in Hin. unfold ri_floating_ips in *. lia.
  - destruct (m !! FloatingIp.id fip) as [new_fip|]; [|done].
    destruct (truthy _ && truthy _ && _); [|by intros [= <-]].
    intros (? & ? & [= <- <-] & Hrun)%bind_Ok.
    apply bind_Ok in Hrun as ([] & st1 & [Hr1 _]%driver_call_Ok & Hrun).
    apply bind_Ok in Hrun as (? & ? & [= <- <-] & Hrun).
    apply bind_Ok in Hrun as ([] & st2 & [Hr2 _]%driver_call_Ok & Hrun).
    apply bind_Ok in Hrun as ([] & st3 & [Hin ->]%remove_floating_ip_Ok & [= <-]).
    apply length_remove_first in Hin.
    unfold ri_floating_ips in *. simpl. rewrite length_app. simpl.
    rewrite Hr2, Hr1 in *. lia.
Qed.

Lemma never_exhausts_floating_ips_add_loop existing gw l :
  forall m, never_exhausts (floating_ips_add_loop driver_raises existing gw l m).
Proof.
  induction l as [|fip l IH]; intros m; [apply never_exhausts_ret|]. simpl.
  apply never_exhausts_if; [|apply IH].
  apply never_exhausts_bind; [|intros _; apply IH].
  apply never_exhausts_if; [|apply never_exhausts_ret].
  apply never_exhausts_bind; [apply never_exhausts_modify|intros _].
  apply never_exhausts_driver_call.
Qed.

Lemma never_exhausts_process_router_floating_ips gw :
  never_exhausts (process_router_floating_ips driver_raises gw).
Proof.
  unfold process_router_floating_ips.
  apply never_exhausts_bind; [apply never_exhausts_get|intros st0].
  apply never_exhausts_bind; [apply never_exhausts_floating_ips_add_loop|intros m].
  intros st e st' [[=]|(st1 & ? & [= <- <-] & Hrun)]%bind_Raise.
  eapply (for_live_never_exhausts ri_floating_ips); [| |..|exact Hrun].
  - intros x. apply never_exhausts_floating_ips_sync_body.
  - intros x s s'. apply floating_ips_sync_body_length.
  - lia.
Qed.

Lemma never_exhausts_local {T A} (m : M T A) (t : T) :
  never_exhausts m -> never_exhausts (local (S:=state) m t).
Proof.
  intros Hm st e st'. unfold local. destruct (m t) as [|e' t'] eqn:Hmt; [done|].
  intros [= <- _]. by eapply Hm.
Qed.

Lemma never_exhausts_suppress_replaced route :
  never_exhausts (suppress_replaced route).
Proof.
  intros removes e l' Hrun. unfold suppress_replaced, bind, get in Hrun.
  eapply (for_live_never_exhausts id); [| |..|exact Hrun].
  - intros x. cbv beta.
    apply never_exhausts_if; [apply never_exhausts_py_remove|apply never_exhausts_ret].
  - intros x s s'. cbv beta. case_bool_decide; [|by intros [= <-]].
    unfold py_remove. intros (l & ? & [= <- <-] & Hrm)%bind_Ok.
    case_bool_decide as Hin; [|done]. injection Hrm as <-.
    apply length_remove_first in Hin. unfold id in *. lia.
  - unfold id. lia.
Qed.

Lemma never_exhausts_routes_updated :
  never_exhausts (routes_updated driver_raises set_order).
Proof.
  unfold routes_updated.
  apply never_exhausts_bind; [apply never_exhausts_get|intros st0].
  destruct (diff_list_of_dict _ _ _) as [adds removes].
  apply never_exhausts_bind.
  - clear. revert removes. induction adds as [|a adds IH]; intros removes;
      [apply never_exhausts_ret|]. simpl.
    apply never_exhausts_bind;
      [apply never_exhausts_local, never_exhausts_suppress_replaced|intros r].
    apply never_exhausts_bind; [apply never_exhausts_get_driver|intros d].
    apply never_exhausts_bind; [apply never_exhausts_invoke|intros _]. apply IH.
  - intros removes'. apply never_exhausts_bind; [|intros _; apply never_exhausts_modify].
    apply never_exhausts_for_each. intros r. apply never_exhausts_driver_call.
Qed.

Lemma never_exhausts_set_subnet_info {S} p :
  never_exhausts (_set_subnet_info (S:=S) netaddr_prefixlen p).
Proof.
  unfold _set_subnet_info. repeat case_match;
    (apply never_exhausts_ret || by apply never_exhausts_raise).
Qed.

(** Whatever a pass ends with, it is not for want of fuel. *)
Lemma process_router_never_exhausts :
  never_exhausts (process_router driver_raises netaddr_prefixlen set_order).
Proof.
  unfold process_router, _get_ex_gw_port, add_new_port, remove_old_port,
    internal_network_added, internal_network_removed, external_gateway_added,
    external_gateway_removed.
  repeat first
    [ apply never_exhausts_ret | apply never_exhausts_get | apply never_exhausts_gets
    | apply never_exhausts_modify | apply never_exhausts_py_remove
    | apply never_exhausts_get_driver | apply never_exhausts_invoke
    | apply never_exhausts_set_subnet_info
    | apply never_exhausts_process_router_floating_ips
    | apply never_exhausts_routes_updated
    | apply never_exhausts_for_each; intros ?
    | apply never_exhausts_if
    | apply never_exhausts_bind; [|intros ?]
    | case_match ].
Qed.

End Fuel.





(** ** Router removal *)

Section Removal.

Import L3NATAgent.

Variable driver_raises : list RoutingDriver.call -> RoutingDriver.call -> bool.
Variable netaddr_prefixlen : string -> option string.
Variable set_order : list Route.t -> list Route.t.

Lemma teardown_ports_loop (l : list Port.t) : forall st st',
  RouterInfo.internal_ports (ri st) = l ->
  for_each (remove_old_port driver_raises None) l st = Ok tt st' ->
  without_ports (ri st') = without_ports (ri st) /\
  RouterInfo.internal_ports (ri st') = [] /\
  calls st' = calls st ++ (RoutingDriver.internal_network_removed <$> l).
Proof.
  induction l as [|p l IH]; intros st st' Hl Hrun.
  - injection Hrun as <-. by rewrite app_nil_r.
  - simpl in Hrun. apply bind_Ok in Hrun as ([] & st1 & Hp & Hrun).
    apply remove_old_port_Ok in Hp as (Hw & _ & Hports & Hc).
    rewrite Hl in Hports. simpl in Hports. rewrite decide_True in Hports by done.
    destruct (IH _ _ Hports Hrun) as (Hw' & Hports' & Hc').
    split; [congruence|]. split; [done|].
    rewrite Hc', Hc. simpl. by rewrite <- app_assoc.
Qed.

(** What [_router_removed] leaves of the desired state before the pass. *)
Definition cleared (r : RouterInfo.t) : RouterInfo.t :=
  RouterInfo.update_router
    (fun d => Router.set_floatingips []
                (Router.set_interfaces [] (Router.set_gw_port None d))) r.

Definition gateway_teardown (r : RouterInfo.t) : list RoutingDriver.call :=
  match RouterInfo.ex_gw_port r with
  | Some applied_gw => [RoutingDriver.external_gateway_removed applied_gw]
  | None => []
  end.

Lemma removal_pass_Ok (r : RouterInfo.t) h cs st' :
  process_router driver_raises netaddr_prefixlen set_order (mk_state (cleared r) h cs)
    = Ok tt st' ->
  RouterInfo.internal_ports (ri st') = [] /\
  RouterInfo.ex_gw_port (ri st') = None /\
  RouterInfo.floating_ips (ri st') = RouterInfo.floating_ips r /\
  RouterInfo.router_id (ri st') = RouterInfo.router_id r /\
  (exists T, Forall is_routes_call T /\
     calls st' = cs ++ (RoutingDriver.internal_network_removed <$> RouterInfo.internal_ports r)
                    ++ gateway_teardown r ++ T).
Proof.
  intros Hrun.
  destruct (process_router_phases _ _ _ _ _ Hrun) as
    (st1 & st2 & st3 & st4 & H1 & H2 & H3 & H4 & H5).
  cbn [ri] in H1, H2, H3.
  assert (Hnew : new_ports (cleared r) = []) by reflexivity.
  assert (Hold : old_ports (cleared r) = RouterInfo.internal_ports r).
  { unfold old_ports, cleared, current_port_ids. simpl.
    induction (RouterInfo.internal_ports r) as [|p l IH]; [done|].
    rewrite filter_cons, decide_True by (by intros ?%elem_of_nil). by f_equal. }
  rewrite Hnew in H1. injection H1 as <-. rewrite Hold in H2.
  apply teardown_ports_loop in H2 as (Hw2 & Hp2 & Hc2); [|done].
  simpl in Hc2.
  pose proof (without_ports_fields _ _ Hw2) as (Hex2 & _ & Hfl2 & _ & Hid2 & Hgw2 & _).
  simpl in Hex2, Hfl2, Hid2, Hgw2.
  apply gateway_step_Ok in H3 as (Hw3 & Hp3 & _ & Hg). rewrite Hex2 in Hg.
  assert (Hst3 : ri st3 = ri st2 /\ calls st3 = calls st2 ++ gateway_teardown r).
  { unfold gateway_teardown. destruct (RouterInfo.ex_gw_port r) as [ag|].
    - destruct Hg as [Hr Hc]. split; [done|]. rewrite Hc. unfold nat_calls.
      rewrite Hp2. simpl. by rewrite andb_false_r.
    - simpl in Hg. subst st3. by rewrite app_nil_r. }
  destruct Hst3 as [Hr3 Hc3].
  rewrite Hr3, Hgw2 in H4, H5. simpl in H4. injection H4 as <-.
  apply routes_updated_calls in H5 as (T & Hc5 & HT & Hr5). simpl in Hc5, Hr5.
  rewrite Hr5, Hr3. simpl. rewrite Hp2, Hfl2, Hid2.
  repeat split; try done. exists T. split; [done|].
  rewrite Hc5, Hc3, Hc2. by rewrite <- !app_assoc.
Qed.

Lemma py_in_str_dicts (k : string) (l : list (string * HostingDevice.t)) :
  py_in (PyStr k) ((fun kv : string * HostingDevice.t => PyDict kv.2) <$> l) = false.
Proof. induction l as [|x l IH]; [done|]. simpl. exact IH. Qed.

Lemma remove_driver_Ok router_id (h h' : HostingEntities.t) :
  HostingEntities.remove_driver router_id h = Ok tt h' ->
  HostingEntities.router_id_hosting_entities h' !! router_id = None /\
  (forall he_id, HostingEntities._drivers h' !! he_id = None) /\
  HostingEntities.backlog_hosting_entities h' = HostingEntities.backlog_hosting_entities h.
Proof.
  unfold HostingEntities.remove_driver.
  intros (? & ? & [= <- <-] & Hrun)%bind_Ok.
  destruct (HostingEntities.router_id_hosting_entities h !! router_id); [|done].
  apply bind_Ok in Hrun as ([] & ? & [= <-] & Hrun).
  apply bind_Ok in Hrun as (? & ? & [= <- <-] & [= <-]). simpl.
  split; [apply lookup_delete_eq|]. split; [|done].
  intros he_id. apply map_lookup_filter_None. right. intros d _. simpl.
  by rewrite py_in_str_dicts.
Qed.

(** C2, as the code has it: for a router the agent knows, removal with
    deconfigure set runs one pass over the cleared desired state.  When it
    completes, the driver has been asked to remove every applied internal
    port and then the applied gateway, nothing about floating IPs, whose
    applied list is left as it was, then the route changes and last
    [router_removed]; afterwards the router's binding and the cached
    driver are gone from the registry and the router from [router_info]. *)
Theorem router_removal_tears_down_ports_and_gateway
    router_id (a a' : L3NATAgent.t) (r : RouterInfo.t) :
  router_info a !! router_id = Some r ->
  RouterInfo.router_id r = router_id ->
  _router_removed driver_raises netaddr_prefixlen set_order router_id true a = Ok tt a' ->
  (exists st,
     process_router driver_raises netaddr_prefixlen set_order
       (mk_state (cleared r) (_hdm a) (driver_calls a)) = Ok tt st /\
     RouterInfo.internal_ports (ri st) = [] /\
     RouterInfo.ex_gw_port (ri st) = None /\
     RouterInfo.floating_ips (ri st) = RouterInfo.floating_ips r) /\
  (exists T, Forall is_routes_call T /\
     driver_calls a' = driver_calls a
       ++ (RoutingDriver.internal_network_removed <$> RouterInfo.internal_ports r)
       ++ gateway_teardown r ++ T
       ++ [RoutingDriver.router_removed router_id true]) /\
  router_info a' !! router_id = None /\
  HostingEntities.router_id_hosting_entities (_hdm a') !! router_id = None /\
  (forall he_id, HostingEntities._drivers (_hdm a') !! he_id = None).
Proof.
  intros Hri Hid. unfold _router_removed.
  intros (? & ? & [= <- <-] & Hrun)%bind_Ok. rewrite Hri in Hrun.
  fold (cleared r) in Hrun.
  apply bind_Ok in Hrun as ([] & a1 & Hpass & [= <-]).
  unfold on_router in Hpass.
  destruct (bind _ _ _) as [[] st3|] eqn:Hbody; [|done]. injection Hpass as <-.
  apply bind_Ok in Hbody as ([] & st & Hproc & Hbody).
  apply bind_Ok in Hbody as (d & st1 & Hg & Hbody).
  apply bind_Ok in Hbody as ([] & st2 & Hi & Hrem).
  pose proof (removal_pass_Ok _ _ _ _ Hproc) as (Hp & Hex & Hfl & Hrid & T & HT & Hc).
  apply get_driver_Ok in Hg as [Hr1 Hc1].
  apply invoke_Ok in Hi as (Hr2 & Hh2 & Hc2).
  unfold lift_he in Hrem.
  destruct (HostingEntities.remove_driver router_id (_he st2)) as [[] h'|] eqn:Hrd; [|done].
  injection Hrem as <-. apply remove_driver_Ok in Hrd as (Hb & Hd & _).
  simpl. split; [eauto 10|]. split.
  - exists T. split; [done|]. rewrite Hc2, Hc1, Hc. by rewrite <- !app_assoc.
  - split; [apply lookup_delete_eq|]. done.
Qed.

End Removal.

(** ** Floating IPs whose port is gone *)

Lemma id_to_fip_map_of_None (l : list FloatingIp.t) : forall m k,
  m !! k = None ->
  (forall d, d ∈ l -> FloatingIp.id d = k -> truthy (FloatingIp.port_id d) = false) ->
  id_to_fip_map_of l m !! k = None.
Proof.
  induction l as [|d l IH]; intros m k Hm Hl; [done|]. simpl. apply IH.
  - destruct (truthy (FloatingIp.port_id d)) eqn:Hp; [|done].
    rewrite lookup_insert_ne; [done|]. intros Heq.
    rewrite (Hl d) in Hp; [done|by left|done].
  - intros d' Hd'. apply Hl. by right.
Qed.

(** An applied floating IP that the second loop passes over without
    touching the list: its id is still desired, the dictionary has an entry
    for it, and the fixed address has not changed. *)
Definition undisturbed (desired : list FloatingIp.t) (x : FloatingIp.t) : Prop :=
  FloatingIp.id x ∈ FloatingIp.id <$> desired /\
  exists n, id_to_fip_map_of desired ∅ !! FloatingIp.id x = Some n /\
    truthy (FloatingIp.fixed_ip_address n) && truthy (FloatingIp.fixed_ip_address x)
      && bool_decide (FloatingIp.fixed_ip_address n ≠ FloatingIp.fixed_ip_address x)
    = false.

(** C10: when an applied floating IP's id is in the desired list only in
    entries without a port, and the loop over the applied list reaches it
    (the applied entries before it are left as they are), the lookup in
    the dictionary built from the desired entries with a port raises
    KeyError: the step ends there, with no driver call for this floating
    IP, which is still in the applied list. *)
Theorem floating_ip_without_port_raises_KeyError
    driver_raises gw (st st1 : L3NATAgent.state) m pre f rest :
  let desired := Router.floatingips (RouterInfo.router (L3NATAgent.ri st)) in
  let existing := FloatingIp.id <$> RouterInfo.floating_ips (L3NATAgent.ri st) in
  L3NATAgent.floating_ips_add_loop driver_raises existing gw desired ∅ st = Ok m st1 ->
  RouterInfo.floating_ips (L3NATAgent.ri st) = pre ++ f :: rest ->
  FloatingIp.id f ∈ FloatingIp.id <$> desired ->
  (forall d, d ∈ desired -> FloatingIp.id d = FloatingIp.id f ->
             truthy (FloatingIp.port_id d) = false) ->
  (forall x, x ∈ pre -> undisturbed desired x) ->
  L3NATAgent.process_router_floating_ips driver_raises gw st
    = Raise (KeyError (FloatingIp.id f)) st1 /\
  f ∈ RouterInfo.floating_ips (L3NATAgent.ri st1).
Proof.
  intros desired existing Hadd Hfl Hid Hport Hpre.
  pose proof (floating_ips_add_loop_Ok _ _ _ _ _ _ _ _ Hadd)
    as (-> & _ & added & Hfl1 & _).
  unfold L3NATAgent.ri_floating_ips in Hfl1. rewrite Hfl in Hfl1.
  split; [|rewrite Hfl1, !elem_of_app; left; right; by left].
  unfold L3NATAgent.process_router_floating_ips, bind at 1, get at 1.
  fold desired existing. unfold bind at 1. rewrite Hadd.
  unfold bind at 1, get at 1.
  set (body := L3NATAgent.floating_ips_sync_body driver_raises
                 (list_difference existing (FloatingIp.id <$> desired))
                 (id_to_fip_map_of desired ∅)).
  assert (Hskip : forall j x, j < length pre ->
            L3NATAgent.ri_floating_ips st1 !! j = Some x -> body x st1 = Ok tt st1).
  { intros j x Hj Hx. unfold L3NATAgent.ri_floating_ips in Hx. rewrite Hfl1 in Hx.
    rewrite <- app_assoc, lookup_app_l in Hx by done.
    apply list_elem_of_lookup_2, Hpre in Hx as (Hin & n & Hn & Hsame).
    unfold body, L3NATAgent.floating_ips_sync_body.
    rewrite bool_decide_eq_false_2.
    2:{ intros [_ ?]%list_elem_of_difference. done. }
    rewrite Hn, Hsame. done. }
  assert (Hlen : length (L3NATAgent.ri_floating_ips st1)
                 = length pre + S (length (rest ++ added))).
  { unfold L3NATAgent.ri_floating_ips. rewrite Hfl1, !length_app. simpl.
    rewrite ?length_app. lia. }
  rewrite Hlen.
  replace (S (length pre + S (length (rest ++ added))))
    with (length pre - 0 + S (S (length (rest ++ added)))) by lia.
  rewrite (for_live_skip L3NATAgent.ri_floating_ips body st1 (length pre) Hskip)
    by lia.
  simpl. unfold bind at 1, gets at 1. unfold L3NATAgent.ri_floating_ips at 1.
  rewrite Hfl1. rewrite <- app_assoc, lookup_app_r, Nat.sub_diag by done. simpl.
  unfold bind at 1, body at 1, L3NATAgent.floating_ips_sync_body.
  rewrite bool_decide_eq_false_2.
  2:{ intros [_ ?]%list_elem_of_difference. done. }
  rewrite id_to_fip_map_of_None; [done|done|exact Hport].
Qed.

(** ** The properties on the sample data *)

Ltac by_computation := vm_compute; repeat split; (reflexivity || exact I || discriminate || idtac).

(** C4 fails on the code: with two applied floating IPs whose fixed
    addresses both changed, the pass completes after remapping the first
    only.  Removing the first from the list under the loop makes the
    iterator step over the second, for which neither [floating_ip_removed]
    nor [floating_ip_added] is issued. *)
Theorem remap_of_second_floating_ip_is_skipped :
  let o := Sample.process_router
             (Sample.state [Sample.fip1; Sample.fip2] []
                (Sample.router [Sample.fip1'; Sample.fip2'] [])) in
  completes o = true /\
  L3NATAgent.calls (final o)
  = [RoutingDriver.floating_ip_removed (Some Sample.gw) "8.8.8.8" (Some "7.7.7.7");
     RoutingDriver.floating_ip_added (Some Sample.gw) "8.8.8.8" (Some "7.7.7.8")] /\
  RouterInfo.floating_ips (L3NATAgent.ri (final o)) = [Sample.fip2; Sample.fip1'] /\
  ~ strictly_before
      (RoutingDriver.floating_ip_removed (Some Sample.gw) "8.8.8.9" (Some "7.7.7.9"))
      (RoutingDriver.floating_ip_added (Some Sample.gw) "8.8.8.9" (Some "7.7.7.10"))
      (L3NATAgent.calls (final o)).
Proof.
  vm_compute. split; [reflexivity|]. split; [reflexivity|]. split; [reflexivity|].
  intros [H _]. apply elem_of_cons in H as [[=]|H].
  apply elem_of_cons in H as [[=]|H]. by apply elem_of_nil in H.
Qed.

(** C1 fails on the code: the same pass, run again on the state it left
    and with the desired state untouched, issues two more driver calls: the
    remapping that the first pass stepped over. *)
Theorem second_pass_issues_driver_calls :
  let st0 := Sample.state [Sample.fip1; Sample.fip2] []
               (Sample.router [Sample.fip1'; Sample.fip2'] []) in
  let first := Sample.process_router st0 in
  let second := Sample.process_router (final first) in
  completes first = true /\
  RouterInfo.router (L3NATAgent.ri (final first)) = RouterInfo.router (L3NATAgent.ri st0) /\
  completes second = true /\
  L3NATAgent.calls (final second)
  = L3NATAgent.calls (final first)
    ++ [RoutingDriver.floating_ip_removed (Some Sample.gw) "8.8.8.9" (Some "7.7.7.9");
        RoutingDriver.floating_ip_added (Some Sample.gw) "8.8.8.9" (Some "7.7.7.10")].
Proof. vm_compute. repeat split; reflexivity. Qed.

(** The state both theorems start from is the one a pass leaves when the
    two floating IPs are first requested. *)
Example sample_state_is_reached :
  let o := Sample.process_router
             (Sample.state [] [] (Sample.router [Sample.fip1; Sample.fip2] [])) in
  completes o = true /\
  L3NATAgent.ri (final o)
  = L3NATAgent.ri (Sample.state [Sample.fip1; Sample.fip2] []
                     (Sample.router [Sample.fip1; Sample.fip2] [])).
Proof. vm_compute. split; reflexivity. Qed.

(** Removing the floating IPs shows the same: of two applied floating IPs
    that are no longer desired the first pass removes one, the second pass
    the other. *)
Example removal_of_second_floating_ip_is_skipped :
  let first := Sample.process_router
                 (Sample.state [Sample.fip1; Sample.fip2] [] (Sample.router [] [])) in
  let second := Sample.process_router (final first) in
  L3NATAgent.calls (final first)
  = [RoutingDriver.floating_ip_removed (Some Sample.gw) "8.8.8.8" (Some "7.7.7.7")] /\
  L3NATAgent.calls (final second)
  = L3NATAgent.calls (final first)
    ++ [RoutingDriver.floating_ip_removed (Some Sample.gw) "8.8.8.9" (Some "7.7.7.9")].
Proof. vm_compute. split; reflexivity. Qed.

(** With one floating IP the remapping is as the spec has it. *)
Example single_remap_removes_then_adds :
  let o := Sample.process_router
             (Sample.state [Sample.fip1] [] (Sample.router [Sample.fip1'] [])) in
  L3NATAgent.calls (final o)
  = [RoutingDriver.floating_ip_removed (Some Sample.gw) "8.8.8.8" (Some "7.7.7.7");
     RoutingDriver.floating_ip_added (Some Sample.gw) "8.8.8.8" (Some "7.7.7.8")].
Proof. vm_compute. reflexivity. Qed.

(** The route updates of the agent's unit test [test_routing_table_update]:
    a first route, a route that takes its place, the first one added back,
    and both withdrawn. *)
Example routing_table_update :
  let pass applied desired :=
    L3NATAgent.calls (final (L3NATAgent.routes_updated Sample.obliging Sample.as_listed
                               (Sample.state [] applied (Sample.router [] desired)))) in
  pass [] [Sample.route1] = [RoutingDriver.routes_updated "replace" Sample.route1] /\
  pass [Sample.route1] [Sample.route2]
  = [RoutingDriver.routes_updated "replace" Sample.route2;
     RoutingDriver.routes_updated "delete" Sample.route1] /\
  pass [Sample.route2] [Sample.route2; Sample.route1]
  = [RoutingDriver.routes_updated "replace" Sample.route1] /\
  pass [Sample.route2; Sample.route1] []
  = [RoutingDriver.routes_updated "delete" Sample.route2;
     RoutingDriver.routes_updated "delete" Sample.route1].
Proof. vm_compute. repeat split; reflexivity. Qed.

(** A router with one internal port and no gateway: one
    [internal_network_added], no gateway and no NAT call. *)
Example internal_port_without_gateway :
  let r := Router.mk "r1" true None [Sample.p1] [] [] (Some true) (Some Sample.hd1) in
  let o := Sample.process_router
             (L3NATAgent.mk_state (RouterInfo.init "r1" r) HostingEntities.init []) in
  completes o = true /\
  L3NATAgent.calls (final o) = [RoutingDriver.internal_network_added Sample.p1] /\
  RouterInfo.internal_ports (L3NATAgent.ri (final o)) = [Sample.p1].
Proof. vm_compute. repeat split; reflexivity. Qed.

(** When the port and the gateway are new in the same pass, NAT is enabled
    for the port once when the port is added, with the gateway not yet
    configured, and once more after [external_gateway_added]. *)
Example new_port_and_new_gateway_in_one_pass :
  let o := Sample.process_router
             (L3NATAgent.mk_state (RouterInfo.init "r1" (Sample.router [] []))
                HostingEntities.init []) in
  L3NATAgent.calls (final o)
  = [RoutingDriver.internal_network_added Sample.p1;
     RoutingDriver.enable_internal_network_NAT Sample.p1 Sample.gw;
     RoutingDriver.external_gateway_added Sample.gw;
     RoutingDriver.enable_internal_network_NAT Sample.p1 Sample.gw].
Proof. vm_compute. reflexivity. Qed.

(** C2 fails as stated: the removal pass of a router with a gateway, a
    port and two floating IPs applied completes without a single call
    about its floating IPs, and the list of applied floating IPs is as it
    was when the pass ends. *)
Lemma removal_leaves_floating_ips_applied :
  let r := Sample.router_info [Sample.fip1; Sample.fip2] []
             (Sample.router [Sample.fip1; Sample.fip2] []) in
  let pass := Sample.process_router
                (L3NATAgent.mk_state (cleared r) Sample.registry []) in
  let removal := L3NATAgent._router_removed Sample.obliging Sample.prefixlen_24
                   Sample.as_listed "r1" true (Sample.agent r Sample.registry) in
  completes removal = true /\
  L3NATAgent.driver_calls (final removal)
  = [RoutingDriver.internal_network_removed Sample.p1;
     RoutingDriver.external_gateway_removed Sample.gw;
     RoutingDriver.router_removed "r1" true] /\
  RouterInfo.floating_ips (L3NATAgent.ri (final pass)) = [Sample.fip1; Sample.fip2] /\
  RouterInfo.floating_ips (L3NATAgent.ri (final pass)) <> [].
Proof. vm_compute. repeat split; (reflexivity || discriminate). Qed.

Lemma router_removal_witness :
  let r := Sample.router_info [Sample.fip1; Sample.fip2] []
             (Sample.router [Sample.fip1; Sample.fip2] []) in
  let a := Sample.agent r Sample.registry in
  exists a',
    L3NATAgent._router_removed Sample.obliging Sample.prefixlen_24 Sample.as_listed
      "r1" true a = Ok tt a' /\
    L3NATAgent.router_info a' !! "r1" = None /\
    HostingEntities._drivers (L3NATAgent._hdm a') !! "hd1" = None.
Proof.
  intros r a.
  assert (H : L3NATAgent._router_removed Sample.obliging Sample.prefixlen_24
                Sample.as_listed "r1" true a
              = Ok tt (final (L3NATAgent._router_removed Sample.obliging
                                Sample.prefixlen_24 Sample.as_listed "r1" true a)))
    by (vm_compute; reflexivity).
  eexists. split; [exact H|].
  destruct (router_removal_tears_down_ports_and_gateway Sample.obliging
              Sample.prefixlen_24 Sample.as_listed "r1" a
              (final (L3NATAgent._router_removed Sample.obliging
                        Sample.prefixlen_24 Sample.as_listed "r1" true a)) r)
    as (_ & _ & Hinfo & _ & Hdrv); [vm_compute; reflexivity|reflexivity|exact H|].
  split; [exact Hinfo|apply Hdrv].
Defined.

Lemma sync_task_witness :
  exists a',
    L3NATAgent._sync_routers_task 2000 Sample.everybody_answers 300 (fun _ => [])
      true "r1" (fun _ _ => ret tt)
      (Sample.agent (Sample.router_info [] [] (Sample.router [] []))
         Sample.backlogged_registry)
    = Raise (TypeError "got an unexpected keyword argument he_ids") a'.
Proof.
  refine (proj1 (sync_task_backlog_followup_raises 2000 Sample.everybody_answers 300
                   (fun _ => []) true "r1" (fun _ _ => ret tt) _ _
                   (HostingEntities.mk_response ["hd1"] [])
                   (HostingEntities.mk {["r1" := Sample.hd1]} ∅ ∅) _ _ _) _).
  - reflexivity.
  - reflexivity.
  - vm_compute. reflexivity.
  - discriminate.
Defined.

(** C5 fails as stated: with one applied route and two desired routes for
    its destination, both with other nexthops, two replace calls are issued
    for that destination. *)
Lemma two_replaces_for_one_destination :
  let o := L3NATAgent.routes_updated Sample.obliging Sample.as_listed
             (Sample.state [] [Sample.route2]
                (Sample.router [] [Sample.route2'; Sample.route2''])) in
  completes o = true /\
  L3NATAgent.calls (final o)
  = [RoutingDriver.routes_updated "replace" Sample.route2';
     RoutingDriver.routes_updated "replace" Sample.route2''] /\
  length (filter (is_route_call "replace" (Route.destination Sample.route2))
                 (L3NATAgent.calls (final o))) <> 1.
Proof. vm_compute. repeat split; (reflexivity || discriminate). Qed.

Lemma route_diff_witness :
  let st := Sample.state [] [Sample.route1; Sample.route2]
              (Sample.router [] [Sample.route2']) in
  let st' := final (L3NATAgent.routes_updated Sample.obliging Sample.as_listed st) in
  exists new,
    L3NATAgent.calls st' = L3NATAgent.calls st ++ new /\
    RoutingDriver.routes_updated "delete" Sample.route1 ∈ new /\
    filter (is_route_call "replace" (Route.destination Sample.route2)) new
      = [RoutingDriver.routes_updated "replace" Sample.route2'] /\
    filter (is_route_call "delete" (Route.destination Sample.route2)) new = [] /\
    RouterInfo.routes (L3NATAgent.ri st') = [Sample.route2'].
Proof.
  intros st st'.
  destruct (route_diff_replace_over_delete Sample.obliging Sample.as_listed st st')
    as (new & Hc & Hdel & Hrep & Hfin); [reflexivity|vm_compute; reflexivity|].
  exists new. split; [exact Hc|]. split; [|split; [|split]].
  - apply Hdel; [by left|]. vm_compute.
    intros [[=]|H]%elem_of_cons. by apply elem_of_nil in H.
  - apply (Hrep Sample.route2 Sample.route2'); try (vm_compute; (reflexivity || discriminate)).
    + right. by left.
    + by left.
    + intros x [->|H]%elem_of_cons _; [done|by apply elem_of_nil in H].
    + intros x [->|[->|H]%elem_of_cons]%elem_of_cons; [discriminate|done|by apply elem_of_nil in H].
  - apply (Hrep Sample.route2 Sample.route2'); try (vm_compute; (reflexivity || discriminate)).
    + right. by left.
    + by left.
    + intros x [->|H]%elem_of_cons _; [done|by apply elem_of_nil in H].
    + intros x [->|[->|H]%elem_of_cons]%elem_of_cons; [discriminate|done|by apply elem_of_nil in H].
  - exact Hfin.
Defined.


(** C7 fails as stated: after a failed probe the driver cached for the
    device is still in the cache; only its connection has been cleared. *)
Lemma failed_probe_keeps_driver_cached :
  let o := HostingEntities.is_hosting_entity_reachable 1000 Sample.nobody_answers
             Sample.strptime "r1" (Sample.router [] []) Sample.registry in
  completes o = true /\
  HostingEntities._drivers (final o) !! "hd1"
  = Some (Driver.clear_connection Sample.driver) /\
  HostingEntities._drivers (final o) !! "hd1" <> None.
Proof. vm_compute. repeat split; (reflexivity || discriminate). Qed.

Lemma reachability_check_witness :
  exists r s,
    HostingEntities.is_hosting_entity_reachable 1000 Sample.nobody_answers
      Sample.strptime "r1" (Sample.router [] []) Sample.registry = Ok (false, r) s /\
    (exists e, HostingEntities.backlog_hosting_entities s !! "hd1" = Some e /\
       HostingEntities.routers e = ["r1"] /\
       HostingDevice.backlog_insertion_ts (HostingEntities.he e) = Some 1000%Z).
Proof.
  destruct (reachability_check_backlogs_device 1000 Sample.nobody_answers
              Sample.strptime Sample.registry "r1" (Sample.router [] []) Sample.hd1
              "2014-01-01 00:00:00" 0) as [H _]; [reflexivity|reflexivity|reflexivity|].
  eexists _, _. split; [apply H; reflexivity|].
  eexists. split; [vm_compute; reflexivity|]. split; reflexivity.
Defined.

Lemma check_backlog_witness :
  exists resp s',
    HostingEntities.check_backlogged_hosting_entities 2000 Sample.nobody_answers 300
      Sample.backlogged_registry = Ok resp s' /\
    "hd1" ∈ HostingEntities.dead resp /\
    HostingEntities.backlog_hosting_entities s' !! "hd1" = None.
Proof.
  assert (Hwf : backlog_wf Sample.backlogged_registry).
  { intros k e H.
    change (({["hd1" := HostingEntities.mk_entry Sample.hd1_backlogged ["r1"]]}
               : gmap string HostingEntities.backlog_entry) !! k = Some e) in H.
    apply lookup_singleton_Some in H as [<- <-].
    exists 0%Z, 1000%Z. split; reflexivity. }
  destruct (check_backlog_boot_grace_and_dead_escalation 2000 Sample.nobody_answers 300
              Sample.backlogged_registry Hwf) as (resp & s' & Hrun & _ & _ & Hall & _).
  exists resp, s'. split; [exact Hrun|].
  destruct (Hall "hd1" (HostingEntities.mk_entry Sample.hd1_backlogged ["r1"]) 0%Z 1000%Z)
    as (_ & _ & Hdead & _); [vm_compute; reflexivity|reflexivity|reflexivity|].
  destruct Hdead as (Hgone & Hin & _); [simpl; lia|reflexivity|lia|].
  split; [exact Hin|exact Hgone].
Defined.



Lemma key_error_witness :
  let st := Sample.state [Sample.fip2; Sample.fip1] []
              (Sample.router [Sample.fip1_unbound; Sample.fip2] []) in
  L3NATAgent.process_router_floating_ips Sample.obliging Sample.gw st
    = Raise (KeyError "fip1") st /\
  Sample.fip1 ∈ RouterInfo.floating_ips (L3NATAgent.ri st).
Proof.
  intros st.
  apply (floating_ip_without_port_raises_KeyError Sample.obliging Sample.gw st st
           (<["fip2" := Sample.fip2]> ∅) [Sample.fip2] Sample.fip1 []).
  - vm_compute. reflexivity.
  - reflexivity.
  - vm_compute. by left.
  - intros d [->|[->|H]%elem_of_cons]%elem_of_cons;
      [reflexivity|discriminate|by apply elem_of_nil in H].
  - intros x [->|H]%elem_of_cons; [|by apply elem_of_nil in H].
    split; [vm_compute; right; by left|].
    exists Sample.fip2. split; vm_compute; reflexivity.
Defined.

(** The whole pass of that router ends with the KeyError. *)
Example pass_aborts_with_KeyError :
  exists st',
    Sample.process_router
      (Sample.state [Sample.fip2; Sample.fip1] []
         (Sample.router [Sample.fip1_unbound; Sample.fip2] []))
    = Raise (KeyError "fip1") st' /\
    L3NATAgent.calls st' = [].
Proof. eexists. split; vm_compute; reflexivity. Qed.

(** * Further properties

    ** A pass over a router that is already configured *)

(** A loop over a live list whose turns change nothing runs to the end of
    the list. *)
Lemma for_live_idle {S A} (lst : S -> list A) (body : A -> M S unit) s :
  (forall x, x ∈ lst s -> body x s = Ok tt s) ->
  forall fuel i, length (lst s) - i < fuel -> for_live fuel lst body i s = Ok tt s.
Proof.
  intros Hbody. induction fuel as [|fuel IH]; intros i Hfuel; [lia|].
  simpl. unfold bind, gets. destruct (lst s !! i) as [x|] eqn:Hx; [|done].
  rewrite Hbody by (by eapply list_elem_of_lookup_2).
  apply IH. apply lookup_lt_Some in Hx. lia.
Qed.

Lemma id_to_fip_map_of_Some (l : list FloatingIp.t) : forall m k d,
  id_to_fip_map_of l m !! k = Some d ->
  m !! k = Some d \/
  (d ∈ l /\ truthy (FloatingIp.port_id d) = true /\ FloatingIp.id d = k).
Proof.
  induction l as [|x l IH]; intros m k d Hd; [by left|]. simpl in Hd.
  apply IH in Hd as [Hd|(Hin & Hp & Hid)].
  - destruct (truthy (FloatingIp.port_id x)) eqn:Hp; [|by left].
    destruct (decide (FloatingIp.id x = k)) as [<-|Hne].
    + rewrite lookup_insert_eq in Hd. injection Hd as <-. right.
      split; [by left|done].
    + rewrite lookup_insert_ne in Hd by done. by left.
  - right. split; [by right|done].
Qed.

Lemma id_to_fip_map_of_is_Some (l : list FloatingIp.t) : forall m k,
  is_Some (m !! k) \/
  (exists d, d ∈ l /\ truthy (FloatingIp.port_id d) = true /\ FloatingIp.id d = k) ->
  is_Some (id_to_fip_map_of l m !! k).
Proof.
  induction l as [|x l IH]; intros m k H.
  - destruct H as [H|(d & Hd & _)]; [done|by apply elem_of_nil in Hd].
  - simpl. apply IH.
    destruct H as [H|(d & [->|Hd]%elem_of_cons & Hp & Hid)].
    + left. destruct (truthy _); [|done].
      destruct (decide (FloatingIp.id x = k)) as [<-|Hne].
      * rewrite lookup_insert_eq. by eexists.
      * by rewrite lookup_insert_ne.
    + left. rewrite Hp, <- Hid, lookup_insert_eq. by eexists.
    + right. by exists d.
Qed.

Section Settled.

Import L3NATAgent.

Variable driver_raises : list RoutingDriver.call -> RoutingDriver.call -> bool.
Variable netaddr_prefixlen : string -> option string.
Variable set_order : list Route.t -> list Route.t.

(** The pass as the sequence of its steps. *)
Lemma process_router_steps st :
  process_router driver_raises netaddr_prefixlen set_order st
  = (let gw := Router.gw_port (RouterInfo.router (ri st)) in
     run for_each (add_new_port driver_raises netaddr_prefixlen gw) (new_ports (ri st)) ;
     run for_each (remove_old_port driver_raises gw) (old_ports (ri st)) ;
     run gateway_step driver_raises netaddr_prefixlen gw ;
     do ex_gw_port <- _get_ex_gw_port ;
     run floating_ip_phase driver_raises ex_gw_port ;
     run modify (set_ri (RouterInfo.set_ex_gw_port ex_gw_port)) ;
     routes_updated driver_raises set_order) st.
Proof.
  reflexivity.
Qed.


(** An applied floating IP that is still desired as it is: some desired
    entry with a port carries its id, and every such entry its fixed
    address. *)
Definition counterpart (desired : list FloatingIp.t) (f : FloatingIp.t) : Prop :=
  (exists d, d ∈ desired /\ truthy (FloatingIp.port_id d) = true /\
             FloatingIp.id d = FloatingIp.id f) /\
  (forall d, d ∈ desired -> truthy (FloatingIp.port_id d) = true ->
             FloatingIp.id d = FloatingIp.id f ->
             FloatingIp.fixed_ip_address d = FloatingIp.fixed_ip_address f).

(** The applied state of a router matches its desired state: the applied
    ports are the desired ports that are up, by id; the applied gateway is
    the desired one; with a gateway, every desired floating IP that has a
    port is applied and every applied one is still desired as it is; the
    applied routes are the desired routes. *)
Definition settled (r : RouterInfo.t) : Prop :=
  let desired := RouterInfo.router r in
  (forall i, i ∈ existing_port_ids r <-> i ∈ current_port_ids r) /\
  RouterInfo.ex_gw_port r = Router.gw_port desired /\
  (is_Some (Router.gw_port desired) ->
     (forall d, d ∈ Router.floatingips desired ->
        truthy (FloatingIp.port_id d) = true ->
        FloatingIp.id d ∈ FloatingIp.id <$> RouterInfo.floating_ips r) /\
     (forall f, f ∈ RouterInfo.floating_ips r ->
        counterpart (Router.floatingips desired) f)) /\
  RouterInfo.routes r = Router.routes desired.

Lemma floating_ips_add_loop_idle existing gw (l : list FloatingIp.t) : forall m st,
  (forall d, d ∈ l -> truthy (FloatingIp.port_id d) = true ->
             FloatingIp.id d ∈ existing) ->
  floating_ips_add_loop driver_raises existing gw l m st
  = Ok (id_to_fip_map_of l m) st.
Proof.
  induction l as [|d l IH]; intros m st Hl; [done|]. simpl.
  destruct (truthy (FloatingIp.port_id d)) eqn:Hp.
  - rewrite bool_decide_eq_false_2 by (intros Hn; apply Hn, Hl; [by left|done]).
    unfold bind at 1. simpl. apply IH. intros d' Hd'. apply Hl. by right.
  - apply IH. intros d' Hd'. apply Hl. by right.
Qed.

Lemma floating_ips_sync_body_idle (desired : list FloatingIp.t) existing f st :
  counterpart desired f ->
  floating_ips_sync_body driver_raises
    (list_difference existing (FloatingIp.id <$> desired))
    (id_to_fip_map_of desired ∅) f st = Ok tt st.
Proof.
  intros [(d0 & Hd0 & Hp0 & Hid0) Hall]. unfold floating_ips_sync_body.
  rewrite bool_decide_eq_false_2.
  2:{ intros [_ Hn]%list_elem_of_difference. apply Hn. rewrite <- Hid0.
      by apply list_elem_of_fmap_2. }
  destruct (id_to_fip_map_of_is_Some desired ∅ (FloatingIp.id f))
    as [d Hd]; [right; by exists d0|].
  rewrite Hd.
  apply id_to_fip_map_of_Some in Hd as [Hd|(Hin & Hp & Hidd)];
    [by rewrite lookup_empty in Hd|].
  rewrite (Hall d Hin Hp Hidd).
  rewrite (bool_decide_eq_false_2 (_ ≠ _)) by (intros Hn; by apply Hn).
  by rewrite andb_false_r.
Qed.

Lemma process_router_floating_ips_idle gw st :
  (forall d, d ∈ Router.floatingips (RouterInfo.router (ri st)) ->
     truthy (FloatingIp.port_id d) = true ->
     FloatingIp.id d ∈ FloatingIp.id <$> RouterInfo.floating_ips (ri st)) ->
  (forall f, f ∈ RouterInfo.floating_ips (ri st) ->
     counterpart (Router.floatingips (RouterInfo.router (ri st))) f) ->
  process_router_floating_ips driver_raises gw st = Ok tt st.
Proof.
  intros Hadd Hsync. unfold process_router_floating_ips, bind, get.
  cbv beta iota zeta. rewrite floating_ips_add_loop_idle by done.
  apply for_live_idle; [|lia].
  intros f Hf. apply floating_ips_sync_body_idle. by apply Hsync.
Qed.

Lemma routes_updated_idle st :
  set_order [] = [] ->
  RouterInfo.routes (ri st) = Router.routes (RouterInfo.router (ri st)) ->
  routes_updated driver_raises set_order st = Ok tt st.
Proof.
  intros Hnil Heq. unfold routes_updated, diff_list_of_dict.
  unfold bind at 1. simpl. rewrite Heq.
  assert (Hd : forall l : list Route.t, list_difference l l = []).
  { intros l. apply elem_of_nil_inv. by intros x [? ?]%list_elem_of_difference. }
  rewrite Hd. simpl. rewrite Hnil. simpl. unfold bind, modify. simpl.
  f_equal. destruct st as [r h cs]. unfold set_ri. simpl. f_equal.
  destruct r; simpl in *. unfold RouterInfo.set_routes. simpl. by rewrite Heq.
Qed.

Lemma settled_pass_idle st :
  (forall l, set_order l ≡ₚ l) -> settled (ri st) ->
  process_router driver_raises netaddr_prefixlen set_order st = Ok tt st.
Proof.
  intros Hperm (Hports & Hgw & Hfip & Hroutes).
  rewrite process_router_steps. cbv zeta.
  assert (Hnew : new_ports (ri st) = []).
  { apply filter_none. intros [i p] _ [Hc He]. simpl in *. by apply He, Hports. }
  assert (Hold : old_ports (ri st) = []).
  { apply filter_none. intros p Hp Hn. apply Hn, Hports.
    by apply list_elem_of_fmap_2. }
  rewrite Hnew, Hold. simpl. unfold bind at 1. simpl. unfold bind at 1. simpl.
  assert (Hstep : gateway_step driver_raises netaddr_prefixlen
                    (Router.gw_port (RouterInfo.router (ri st))) st = Ok tt st).
  { unfold gateway_step, bind, get. rewrite Hgw.
    by destruct (Router.gw_port (RouterInfo.router (ri st))). }
  unfold bind at 1. rewrite Hstep. unfold bind at 1. simpl.
  assert (Hphase : floating_ip_phase driver_raises
                     (Router.gw_port (RouterInfo.router (ri st))) st = Ok tt st).
  { destruct (Router.gw_port (RouterInfo.router (ri st))) as [g|] eqn:Hg; [|done].
    simpl. destruct Hfip as [Ha Hs]; [done|]. by apply process_router_floating_ips_idle. }
  unfold bind at 1. rewrite Hphase. unfold bind at 1. simpl.
  assert (Hsame : set_ri (RouterInfo.set_ex_gw_port
                    (Router.gw_port (RouterInfo.router (ri st)))) st = st).
  { destruct st as [r h cs]. unfold set_ri. simpl in *. f_equal.
    destruct r. simpl in *. unfold RouterInfo.set_ex_gw_port. simpl. by rewrite Hgw. }
  rewrite Hsame. apply routes_updated_idle; [|done].
  apply Permutation_nil_r. by rewrite Hperm.
Qed.


(** *** What a completed pass leaves behind *)

(** What the agent reads of a desired port to tell the ports apart. *)
Definition port_key (p : Port.t) : string * bool :=
  (Port.id p, Port.admin_state_up p).

Lemma current_port_ids_keys r r' :
  port_key <$> Router.interfaces (RouterInfo.router r')
    = port_key <$> Router.interfaces (RouterInfo.router r) ->
  current_port_ids r' = current_port_ids r.
Proof.
  assert (H : forall l : list Port.t,
            Port.id <$> filter (fun p => Port.admin_state_up p = true) l
            = fst <$> filter (fun k : string * bool => k.2 = true) (port_key <$> l)).
  { induction l as [|p l IH]; [done|]. rewrite fmap_cons, !filter_cons.
    change ((port_key p).2) with (Port.admin_state_up p).
    destruct (decide (Port.admin_state_up p = true)); rewrite ?fmap_cons, IH; done. }
  unfold current_port_ids. rewrite !H. by intros ->.
Qed.

Lemma add_new_port_interfaces gw ip st st' :
  add_new_port driver_raises netaddr_prefixlen gw ip st = Ok tt st' ->
  exists c,
    Router.interfaces (RouterInfo.router (ri st'))
      = <[ip.1 := Port.set_ip_cidr c ip.2]> (Router.interfaces (RouterInfo.router (ri st))) /\
    RouterInfo.internal_ports (ri st')
      = RouterInfo.internal_ports (ri st) ++ [Port.set_ip_cidr c ip.2].
Proof.
  unfold add_new_port. intros (p' & st1 & Hs & Hrun)%bind_Ok.
  apply set_subnet_info_Ok in Hs as [-> [c ->]].
  apply bind_Ok in Hrun as ([] & st2 & [= <-] & Hrun).
  apply bind_Ok in Hrun as ([] & st3 & Hadd & [= <-]).
  apply internal_network_added_Ok in Hadd as [Hr _].
  exists c. simpl. rewrite Hr. done.
Qed.

Lemma new_ports_loop_ports gw (l : list (nat * Port.t)) : forall st st',
  (forall ip, ip ∈ l ->
     (port_key <$> Router.interfaces (RouterInfo.router (ri st))) !! ip.1
     = Some (port_key ip.2)) ->
  for_each (add_new_port driver_raises netaddr_prefixlen gw) l st = Ok tt st' ->
  port_key <$> Router.interfaces (RouterInfo.router (ri st'))
    = port_key <$> Router.interfaces (RouterInfo.router (ri st)) /\
  exists added,
    RouterInfo.internal_ports (ri st') = RouterInfo.internal_ports (ri st) ++ added /\
    Port.id <$> added = Port.id <$> l.*2.
Proof.
  induction l as [|ip l IH]; intros st st' Hl Hrun.
  - injection Hrun as <-. split; [done|]. exists []. by rewrite app_nil_r.
  - simpl in Hrun. apply bind_Ok in Hrun as ([] & st1 & Hp & Hrun).
    apply add_new_port_interfaces in Hp as (c & Hi & Hports).
    assert (Hk : port_key <$> Router.interfaces (RouterInfo.router (ri st1))
                 = port_key <$> Router.interfaces (RouterInfo.router (ri st))).
    { rewrite Hi, list_fmap_insert. apply list_insert_id.
      rewrite (Hl ip) by (by left). done. }
    apply IH in Hrun as [Hk' (added & Hp' & Hids)].
    + split; [congruence|]. exists (Port.set_ip_cidr c ip.2 :: added).
      split; [rewrite Hp', Hports; by rewrite <- app_assoc|].
      by rewrite !fmap_cons, Hids.
    + intros ip' Hip'. rewrite Hk. apply Hl. by right.
Qed.

Lemma remove_old_port_router gw p st st' :
  remove_old_port driver_raises gw p st = Ok tt st' ->
  RouterInfo.router (ri st') = RouterInfo.router (ri st).
Proof.
  unfold remove_old_port. intros ([] & st1 & Hrem & Hrun)%bind_Ok.
  apply internal_network_removed_Ok in Hrem as [Hr _].
  unfold py_remove in Hrun. apply bind_Ok in Hrun as (l & ? & [= <- <-] & Hrun).
  case_bool_decide; [|done]. injection Hrun as <-. simpl. by rewrite Hr.
Qed.

Lemma old_ports_loop_router gw (l : list Port.t) st st' :
  for_each (remove_old_port driver_raises gw) l st = Ok tt st' ->
  RouterInfo.router (ri st') = RouterInfo.router (ri st).
Proof.
  apply (for_each_Ok_inv (fun st st' =>
           RouterInfo.router (ri st') = RouterInfo.router (ri st))); try congruence.
  intros p s s' _. apply remove_old_port_router.
Qed.

Lemma remove_first_filter {A} `{EqDecision A} (P : A -> Prop)
    `{forall x, Decision (P x)} (x : A) (l : list A) :
  P x -> filter P (remove_first x l) = remove_first x (filter P l).
Proof.
  intros HP. induction l as [|y l IH]; [done|]. simpl.
  destruct (decide (x = y)) as [<-|Hne].
  - rewrite filter_cons, decide_True by done. simpl. by rewrite decide_True.
  - rewrite !filter_cons. destruct (decide (P y)); [|done].
    simpl. rewrite decide_False by done. by rewrite IH.
Qed.

Lemma remove_first_Permutation {A} `{EqDecision A} (x : A) (l : list A) :
  x ∈ l -> l ≡ₚ x :: remove_first x l.
Proof.
  induction l as [|y l IH]; [by intros ?%elem_of_nil|]. simpl.
  destruct (decide (x = y)) as [<-|Hne]; [done|].
  intros [?|Hx]%elem_of_cons; [done|]. rewrite (IH Hx) at 1. apply Permutation_swap.
Qed.

Lemma old_ports_loop_ports gw (current : list string) (l : list Port.t) :
  forall st st',
  filter (fun p => Port.id p ∉ current) (RouterInfo.internal_ports (ri st)) ≡ₚ l ->
  for_each (remove_old_port driver_raises gw) l st = Ok tt st' ->
  filter (fun p => Port.id p ∉ current) (RouterInfo.internal_ports (ri st')) = [].
Proof.
  induction l as [|q l IH]; intros st st' Hperm Hrun.
  - injection Hrun as <-. by apply Permutation_nil_r.
  - simpl in Hrun. apply bind_Ok in Hrun as ([] & st1 & Hq & Hrun).
    apply remove_old_port_Ok in Hq as (_ & _ & Hports & _).
    assert (Hin : q ∈ filter (fun p => Port.id p ∉ current)
                      (RouterInfo.internal_ports (ri st))).
    { rewrite Hperm. by left. }
    apply (IH st1 st'); [|done]. rewrite Hports.
    apply list_elem_of_filter in Hin as [HP Hin'].
    rewrite remove_first_filter by done.
    apply (Permutation_cons_inv (a := q)).
    rewrite <- remove_first_Permutation; [done|].
    by apply list_elem_of_filter.
Qed.

Lemma floating_ip_step_fields st st' :
  floating_ip_step st st' ->
  RouterInfo.router (ri st') = RouterInfo.router (ri st) /\
  RouterInfo.internal_ports (ri st') = RouterInfo.internal_ports (ri st) /\
  RouterInfo.ex_gw_port (ri st') = RouterInfo.ex_gw_port (ri st) /\
  RouterInfo.routes (ri st') = RouterInfo.routes (ri st).
Proof.
  intros (T & _ & _ & Hw). destruct (ri st), (ri st').
  unfold without_floating_ips, RouterInfo.set_floating_ips in Hw. simpl in *.
  by injection Hw as -> -> -> -> -> ->.
Qed.

Lemma gateway_step_fields gw st st' :
  gateway_step driver_raises netaddr_prefixlen gw st = Ok tt st' ->
  RouterInfo.floating_ips (ri st') = RouterInfo.floating_ips (ri st) /\
  RouterInfo.routes (ri st') = RouterInfo.routes (ri st) /\
  Router.floatingips (RouterInfo.router (ri st'))
    = Router.floatingips (RouterInfo.router (ri st)) /\
  Router.routes (RouterInfo.router (ri st')) = Router.routes (RouterInfo.router (ri st)).
Proof.
  intros (Hw & _)%gateway_step_Ok.
  apply without_ports_fields in Hw as (_ & _ & Hf & Hr & _ & _ & Hdf & Hdr & _).
  destruct (ri st) as [? ? ? ? ? [] ?], (ri st') as [? ? ? ? ? [] ?]. done.
Qed.

(** The desired gateway after a pass: the port it was, with its 'ip_cidr'
    filled in if the pass applied it. *)
Definition filled_in (before after : option Port.t) : Prop :=
  match before with
  | None => after = None
  | Some g => after = Some g \/ exists c, after = Some (Port.set_ip_cidr c g)
  end.

(** The steps of a completed pass, with what each leaves of the fields it
    does not work on. *)
Lemma completed_pass_fields st st' :
  process_router driver_raises netaddr_prefixlen set_order st = Ok tt st' ->
  exists st3 st4,
    floating_ip_phase driver_raises (Router.gw_port (RouterInfo.router (ri st3))) st3
      = Ok tt st4 /\
    (forall i, i ∈ existing_port_ids (ri st3) <-> i ∈ current_port_ids (ri st)) /\
    current_port_ids (ri st3) = current_port_ids (ri st) /\
    filled_in (Router.gw_port (RouterInfo.router (ri st)))
              (Router.gw_port (RouterInfo.router (ri st3))) /\
    RouterInfo.floating_ips (ri st3) = RouterInfo.floating_ips (ri st) /\
    Router.floatingips (RouterInfo.router (ri st3))
      = Router.floatingips (RouterInfo.router (ri st)) /\
    Router.routes (RouterInfo.router (ri st3)) = Router.routes (RouterInfo.router (ri st)) /\
    ri st' = RouterInfo.set_routes (Router.routes (RouterInfo.router (ri st3)))
               (RouterInfo.set_ex_gw_port (Router.gw_port (RouterInfo.router (ri st3)))
                  (ri st4)).
Proof.
  intros Hrun.
  destruct (process_router_phases _ _ _ _ _ Hrun) as
    (st1 & st2 & st3 & st4 & H1 & H2 & H3 & H4 & H5).
  exists st3, st4. split; [done|].
  (* the ports *)
  pose proof H1 as [Hk1 (added & Hp1 & Hids)]%new_ports_loop_ports.
  2:{ intros [i p] [_ Hip]%list_elem_of_filter.
      apply elem_of_lookup_imap in Hip as (i' & p' & [= -> ->] & Hl).
      simpl. by rewrite list_lookup_fmap, Hl. }
  pose proof H1 as (_ & _ & _ & Hw1 & _)%(new_ports_loop_Ok _ _ _ (existing_port_ids (ri st))).
  2:{ by intros ip [[_ Hn] _]%list_elem_of_filter. }
  assert (Hadded : forall a, a ∈ added -> Port.id a ∈ current_port_ids (ri st)).
  { intros a Ha. apply (list_elem_of_fmap_2 Port.id) in Ha. rewrite Hids in Ha.
    apply list_elem_of_fmap in Ha as (p & -> & Hp).
    apply list_elem_of_fmap in Hp as (ip & -> & Hip).
    by apply list_elem_of_filter in Hip as [[Hc _] _]. }
  pose proof H2 as Hgone%(old_ports_loop_ports _ (current_port_ids (ri st))).
  2:{ rewrite Hp1, filter_app. rewrite (filter_none _ added), app_nil_r; [done|].
      intros a Ha Hn. by apply Hn, Hadded. }
  pose proof H2 as (_ & _ & _ & Hw2 & Hkept)%(old_ports_loop_Ok _ _ (current_port_ids (ri st))).
  2:{ by intros p [Hn _]%list_elem_of_filter. }
  pose proof (old_ports_loop_router _ _ _ _ H2) as Hr2.
  pose proof (gateway_step_Ok _ _ _ _ _ H3) as (Hw3 & Hp3 & Hi3 & Hgw3).
  pose proof (gateway_step_fields _ _ _ H3) as (Hf3 & Hro3 & Hdf3 & Hdr3).
  apply without_ports_fields in Hw1 as (_ & _ & Hf1 & _ & _ & Hg1 & Hdf1 & Hdr1 & _).
  apply without_ports_fields in Hw2 as (Hx2 & _ & Hf2 & _ & _ & Hg2 & Hdf2 & Hdr2 & _).
  split; [|split; [|split; [|split; [|split; [|split]]]]].
  - intros i. unfold existing_port_ids. rewrite Hp3. split.
    + intros (p & -> & Hp)%list_elem_of_fmap.
      destruct (decide (Port.id p ∈ current_port_ids (ri st))) as [|Hn]; [done|].
      assert (p ∈ filter (fun p => Port.id p ∉ current_port_ids (ri st))
                     (RouterInfo.internal_ports (ri st2))) as Hin
        by (by apply list_elem_of_filter).
      rewrite Hgone in Hin. by apply elem_of_nil in Hin.
    + intros Hi.
      destruct (decide (i ∈ Port.id <$> RouterInfo.internal_ports (ri st1)))
        as [(p & -> & Hp)%list_elem_of_fmap|Hn].
      { apply list_elem_of_fmap_2. by apply Hkept. }
      exfalso. apply Hn. rewrite Hp1, fmap_app, Hids. apply elem_of_app.
      destruct (decide (i ∈ existing_port_ids (ri st))) as [|Hne]; [by left|right].
      pose proof Hi as (p & -> & [_ Hp]%list_elem_of_filter)%list_elem_of_fmap.
      apply list_elem_of_lookup in Hp as [j Hj].
      apply (list_elem_of_fmap_2 Port.id (snd <$> new_ports (ri st)) p).
      apply (list_elem_of_fmap_2 snd (new_ports (ri st)) (j, p)).
      apply list_elem_of_filter. split; [done|].
      apply elem_of_lookup_imap. by exists j, p.
  - apply current_port_ids_keys. by rewrite Hi3, Hr2.
  - destruct (Router.gw_port (RouterInfo.router (ri st))) as [g|] eqn:Hg,
      (RouterInfo.ex_gw_port (ri st2)) as [ag|] eqn:Hag.
    + rewrite Hgw3, Hg2, Hg1. by left.
    + destruct Hgw3 as (c & -> & _). right. by exists c.
    + destruct Hgw3 as [-> _]. by rewrite Hg2, Hg1.
    + rewrite Hgw3, Hg2, Hg1. done.
  - congruence.
  - congruence.
  - congruence.
  - apply routes_updated_calls in H5 as (T & _ & _ & ->).
    apply floating_ip_phase_Ok, floating_ip_step_fields in H4 as (Hr4 & _).
    simpl. by rewrite Hr4.
Qed.


Lemma floating_ips_add_loop_added existing gw (l : list FloatingIp.t) :
  forall m st m' st',
  floating_ips_add_loop driver_raises existing gw l m st = Ok m' st' ->
  ri_floating_ips st'
  = ri_floating_ips st
    ++ filter (fun d => truthy (FloatingIp.port_id d) = true /\
                        FloatingIp.id d ∉ existing) l.
Proof.
  induction l as [|fip l IH]; intros m st m' st' Hrun.
  - injection Hrun as <- <-. by rewrite app_nil_r.
  - simpl in Hrun. rewrite filter_cons.
    destruct (truthy (FloatingIp.port_id fip)) eqn:Hport.
    + apply bind_Ok in Hrun as ([] & st1 & Hadd & Hrun). apply IH in Hrun as ->.
      case_bool_decide as Hnew.
      * apply bind_Ok in Hadd as ([] & st0 & [= <-] & [Hr _]%driver_call_Ok).
        rewrite decide_True by done. unfold ri_floating_ips. rewrite Hr. simpl.
        by rewrite <- app_assoc.
      * injection Hadd as <-. rewrite decide_False; [done|]. by intros [_ ?].
    + apply IH in Hrun as ->. rewrite decide_False; [done|]. by intros [? _].
Qed.

Lemma NoDup_fmap_eq {A B} (f : A -> B) (l : list A) x y :
  NoDup (f <$> l) -> x ∈ l -> y ∈ l -> f x = f y -> x = y.
Proof.
  induction l as [|z l IH]; [by intros _ ?%elem_of_nil|].
  rewrite fmap_cons. intros [Hz Hl]%NoDup_cons [->|Hx]%elem_of_cons [->|Hy]%elem_of_cons Hf;
    try done; [| |by apply IH].
  - exfalso. apply Hz. rewrite Hf. by apply list_elem_of_fmap_2.
  - exfalso. apply Hz. rewrite <- Hf. by apply list_elem_of_fmap_2.
Qed.

(** With nothing to remove and nothing to remap, the floating-IP step adds
    what is missing and its second loop finds nothing to do. *)
Lemma process_router_floating_ips_additions gw st st' :
  let desired := Router.floatingips (RouterInfo.router (ri st)) in
  NoDup (FloatingIp.id <$> desired) ->
  (forall f, f ∈ RouterInfo.floating_ips (ri st) ->
     exists d, d ∈ desired /\ truthy (FloatingIp.port_id d) = true /\
               FloatingIp.id d = FloatingIp.id f /\
               FloatingIp.fixed_ip_address d = FloatingIp.fixed_ip_address f) ->
  process_router_floating_ips driver_raises gw st = Ok tt st' ->
  (forall d, d ∈ desired -> truthy (FloatingIp.port_id d) = true ->
     FloatingIp.id d ∈ FloatingIp.id <$> RouterInfo.floating_ips (ri st')) /\
  (forall f, f ∈ RouterInfo.floating_ips (ri st') -> counterpart desired f).
Proof.
  intros desired Hnd Happlied. unfold process_router_floating_ips.
  intros (? & ? & [= <- <-] & Hrun)%bind_Ok. fold desired in Hrun.
  apply bind_Ok in Hrun as (m & st1 & Hadd & Hrun).
  apply bind_Ok in Hrun as (? & ? & [= <- <-] & Hrun).
  pose proof (floating_ips_add_loop_added _ _ _ _ _ _ _ Hadd) as Hfl.
  apply floating_ips_add_loop_Ok in Hadd as (-> & _ & _).
  assert (Hcp : forall f, f ∈ ri_floating_ips st1 -> counterpart desired f).
  { intros f. rewrite Hfl. intros [Hf|Hf]%elem_of_app.
    - destruct (Happlied f Hf) as (d & Hd & Hp & Hid & Hfx).
      split; [by exists d|]. intros d' Hd' _ Hid'.
      assert (d' = d) as -> by (eapply NoDup_fmap_eq; [exact Hnd|..]; congruence).
      done.
    - apply list_elem_of_filter in Hf as [[Hp _] Hf].
      split; [by exists f|]. intros d' Hd' _ Hid'.
      by assert (d' = f) as -> by (eapply NoDup_fmap_eq; [exact Hnd|..]; congruence). }
  rewrite (for_live_idle _ _ st1) in Hrun; [|..|lia].
  2:{ intros f Hf. apply floating_ips_sync_body_idle. by apply Hcp. }
  injection Hrun as <-. split; [|exact Hcp].
  intros d Hd Hp. change (RouterInfo.floating_ips (ri st1)) with (ri_floating_ips st1).
  rewrite Hfl, fmap_app. apply elem_of_app.
  destruct (decide (FloatingIp.id d ∈ FloatingIp.id <$> RouterInfo.floating_ips (ri st)))
    as [|Hn]; [by left|right].
  apply list_elem_of_fmap_2, list_elem_of_filter. done.
Qed.

(** A completed pass that had no applied floating IP to remove or to remap
    leaves the router settled. *)
Lemma completed_pass_settled st st' :
  process_router driver_raises netaddr_prefixlen set_order st = Ok tt st' ->
  (is_Some (Router.gw_port (RouterInfo.router (ri st))) ->
     NoDup (FloatingIp.id <$> Router.floatingips (RouterInfo.router (ri st))) /\
     forall f, f ∈ RouterInfo.floating_ips (ri st) ->
       exists d, d ∈ Router.floatingips (RouterInfo.router (ri st)) /\
                 truthy (FloatingIp.port_id d) = true /\
                 FloatingIp.id d = FloatingIp.id f /\
                 FloatingIp.fixed_ip_address d = FloatingIp.fixed_ip_address f) ->
  settled (ri st').
Proof.
  intros (st3 & st4 & H4 & Hports & Hcur & Hgw & Hf3 & Hdf3 & Hdr3 & Hri)%completed_pass_fields
         Hfip.
  pose proof H4 as (Hr4 & Hp4 & _ & _)%floating_ip_phase_Ok%floating_ip_step_fields.
  assert (Hrouter : RouterInfo.router (ri st') = RouterInfo.router (ri st3))
    by (by rewrite Hri).
  assert (Hex : existing_port_ids (ri st') = existing_port_ids (ri st3))
    by (unfold existing_port_ids; rewrite Hri; simpl; by rewrite Hp4).
  assert (Hcur' : current_port_ids (ri st') = current_port_ids (ri st))
    by (unfold current_port_ids in *; by rewrite Hrouter).
  unfold settled. rewrite Hrouter. split; [|split; [|split]].
  - intros i. rewrite Hex, Hcur'. apply Hports.
  - by rewrite Hri.
  - intros Hsome.
    assert (Hfl : RouterInfo.floating_ips (ri st') = RouterInfo.floating_ips (ri st4))
      by (by rewrite Hri).
    rewrite Hfl.
    destruct (Router.gw_port (RouterInfo.router (ri st3))) as [g|] eqn:Hg3;
      [|by destruct Hsome].
    simpl in H4. apply process_router_floating_ips_additions in H4; [done|..].
    + rewrite Hdf3. apply Hfip.
      destruct (Router.gw_port (RouterInfo.router (ri st))); [done|discriminate].
    + rewrite Hdf3, Hf3. apply Hfip.
      destruct (Router.gw_port (RouterInfo.router (ri st))); [done|discriminate].
  - by rewrite Hri.
Qed.

End Settled.

(** X1: a pass over a router whose applied state matches the desired state
    (ports by id, gateway, floating IPs, routes) asks nothing of the
    driver, whatever the driver would answer, and leaves the RouterInfo,
    the registry of hosting entities and the trace of calls as they are. *)
Theorem settled_router_pass_is_idle
    driver_raises netaddr_prefixlen set_order (st : L3NATAgent.state) :
  (forall l, set_order l ≡ₚ l) ->
  settled (L3NATAgent.ri st) ->
  L3NATAgent.process_router driver_raises netaddr_prefixlen set_order st = Ok tt st.
Proof. apply settled_pass_idle. Qed.

(** X2: when a pass completes, the ids of the applied internal ports are
    those of the desired ports that are administratively up, the applied
    gateway is the desired gateway (with its 'ip_cidr' filled in if the
    pass applied it) and the applied routes are the desired routes. *)
Theorem completed_pass_applies_ports_gateway_and_routes
    driver_raises netaddr_prefixlen set_order (st st' : L3NATAgent.state) :
  L3NATAgent.process_router driver_raises netaddr_prefixlen set_order st = Ok tt st' ->
  let r := L3NATAgent.ri st in
  let r' := L3NATAgent.ri st' in
  (forall i, i ∈ Port.id <$> RouterInfo.internal_ports r' <->
             i ∈ Port.id <$> filter (fun p => Port.admin_state_up p = true)
                               (Router.interfaces (RouterInfo.router r))) /\
  filled_in (Router.gw_port (RouterInfo.router r)) (RouterInfo.ex_gw_port r') /\
  RouterInfo.ex_gw_port r' = Router.gw_port (RouterInfo.router r') /\
  RouterInfo.routes r' = Router.routes (RouterInfo.router r) /\
  Router.routes (RouterInfo.router r') = Router.routes (RouterInfo.router r).
Proof.
  intros (st3 & st4 & H4 & Hports & Hcur & Hgw & Hf3 & Hdf3 & Hdr3 & Hri)%completed_pass_fields.
  pose proof H4 as (Hr4 & Hp4 & _ & _)%floating_ip_phase_Ok%floating_ip_step_fields.
  cbv zeta. rewrite Hri. simpl. rewrite Hr4, Hp4. repeat split; try done; apply Hports.
Qed.

(** X3: a pass that completes on a router none of whose applied floating
    IPs is to be removed or remapped (each is still desired, with a port
    and the same fixed address; the desired floating IPs have distinct
    ids) leaves the router settled: a further pass, whatever the driver
    would answer, asks nothing of the driver and changes nothing.  Without
    a desired gateway the floating IPs play no part. *)
Theorem pass_is_idempotent_when_no_floating_ip_changes
    driver_raises driver_raises' netaddr_prefixlen set_order (st st' : L3NATAgent.state) :
  (forall l, set_order l ≡ₚ l) ->
  L3NATAgent.process_router driver_raises netaddr_prefixlen set_order st = Ok tt st' ->
  (is_Some (Router.gw_port (RouterInfo.router (L3NATAgent.ri st))) ->
     NoDup (FloatingIp.id <$> Router.floatingips (RouterInfo.router (L3NATAgent.ri st))) /\
     forall f, f ∈ RouterInfo.floating_ips (L3NATAgent.ri st) ->
       exists d, d ∈ Router.floatingips (RouterInfo.router (L3NATAgent.ri st)) /\
                 truthy (FloatingIp.port_id d) = true /\
                 FloatingIp.id d = FloatingIp.id f /\
                 FloatingIp.fixed_ip_address d = FloatingIp.fixed_ip_address f) ->
  L3NATAgent.process_router driver_raises' netaddr_prefixlen set_order st' = Ok tt st'.
Proof.
  intros Hperm Hrun Hfip. apply settled_pass_idle; [done|].
  by eapply completed_pass_settled.
Qed.

(** A router as the controller describes it when it is first seen, and a
    driver that refuses every call. *)
Definition fresh_state (r : Router.t) : L3NATAgent.state :=
  L3NATAgent.mk_state (RouterInfo.init "r1" r) Sample.registry [].

Definition refusing : list RoutingDriver.call -> RoutingDriver.call -> bool :=
  fun _ _ => true.

Lemma settled_router_pass_witness :
  let st := Sample.state [Sample.fip1; Sample.fip2] [Sample.route1]
              (Sample.router [Sample.fip1; Sample.fip2] [Sample.route1]) in
  L3NATAgent.process_router refusing Sample.prefixlen_24 Sample.as_listed st = Ok tt st.
Proof.
  intros st. apply settled_router_pass_is_idle; [intros l; reflexivity|].
  split; [intros i; reflexivity|]. split; [reflexivity|]. split; [|reflexivity].
  intros _. split.
  - intros d [->|[->|H]%elem_of_cons]%elem_of_cons _;
      [by left|right; by left|by apply elem_of_nil in H].
  - intros f [->|[->|H]%elem_of_cons]%elem_of_cons; [| |by apply elem_of_nil in H].
    + split; [exists Sample.fip1; repeat split; by left|].
      intros d [->|[->|H]%elem_of_cons]%elem_of_cons _;
        [done|discriminate|by apply elem_of_nil in H].
    + split; [exists Sample.fip2; repeat split; right; by left|].
      intros d [->|[->|H]%elem_of_cons]%elem_of_cons _;
        [discriminate|done|by apply elem_of_nil in H].
Defined.

Lemma completed_pass_witness :
  let st := fresh_state (Sample.router [Sample.fip1] [Sample.route1]) in
  let r' := L3NATAgent.ri (final (Sample.process_router st)) in
  (forall i, i ∈ Port.id <$> RouterInfo.internal_ports r' <-> i ∈ ["p1"]) /\
  RouterInfo.ex_gw_port r' = Router.gw_port (RouterInfo.router r') /\
  RouterInfo.routes r' = [Sample.route1].
Proof.
  intros st r'.
  destruct (completed_pass_applies_ports_gateway_and_routes Sample.obliging
              Sample.prefixlen_24 Sample.as_listed st (final (Sample.process_router st)))
    as (Hp & _ & Hg & Hr & _); [vm_compute; reflexivity|].
  split; [exact Hp|]. split; [exact Hg|exact Hr].
Defined.

Lemma idempotent_pass_witness :
  let st := fresh_state (Sample.router [Sample.fip1; Sample.fip2] [Sample.route1]) in
  let st' := final (Sample.process_router st) in
  L3NATAgent.process_router refusing Sample.prefixlen_24 Sample.as_listed st' = Ok tt st'.
Proof.
  intros st st'.
  apply (pass_is_idempotent_when_no_floating_ip_changes Sample.obliging refusing
           Sample.prefixlen_24 Sample.as_listed st st').
  - intros l. reflexivity.
  - vm_compute. reflexivity.
  - intros _. split.
    + apply (bool_decide_unpack _). vm_compute. exact I.
    + intros f H. by apply elem_of_nil in H.
Defined.

(** ** What a pass keeps, however it ends *)

(** Every run of [m], completed or not, ends in a state related to the one
    it started from. *)
Definition keeps {S A} (R : S -> S -> Prop) (m : M S A) : Prop :=
  forall s, R s (final (m s)).

Lemma final_bind {S A B} (m : M S A) (k : A -> M S B) s :
  final (bind m k s)
  = match m s with Ok a s1 => final (k a s1) | Raise _ s1 => s1 end.
Proof. unfold bind. by destruct (m s). Qed.

Lemma completes_bind {S A B} (m : M S A) (k : A -> M S B) s :
  completes (bind m k s)
  = match m s with Ok a s1 => completes (k a s1) | Raise _ _ => false end.
Proof. unfold bind. by destruct (m s). Qed.

Section Keeps.

Context {S : Type} (R : S -> S -> Prop) `{!PreOrder R}.

Lemma keeps_ret {A} (a : A) : keeps R (ret a).
Proof. intros s. reflexivity. Qed.

Lemma keeps_raise {A} (e : exn) : keeps R (raise (A:=A) e).
Proof. intros s. reflexivity. Qed.

Lemma keeps_get : keeps R get.
Proof. intros s. reflexivity. Qed.

Lemma keeps_gets {A} (f : S -> A) : keeps R (gets f).
Proof. intros s. reflexivity. Qed.

Lemma keeps_modify (f : S -> S) : (forall s, R s (f s)) -> keeps R (modify f).
Proof. intros Hf s. apply Hf. Qed.

Lemma keeps_bind {A B} (m : M S A) (k : A -> M S B) :
  keeps R m -> (forall a, keeps R (k a)) -> keeps R (bind m k).
Proof.
  intros Hm Hk s. rewrite final_bind. specialize (Hm s).
  destruct (m s) as [a s1|e s1]; [|done]. simpl in Hm.
  etransitivity; [exact Hm|apply Hk].
Qed.

Lemma keeps_if {A} (b : bool) (m1 m2 : M S A) :
  keeps R m1 -> keeps R m2 -> keeps R (if b then m1 else m2).
Proof. by destruct b. Qed.

Lemma keeps_for_each {A} (body : A -> M S unit) (l : list A) :
  (forall x, x ∈ l -> keeps R (body x)) -> keeps R (for_each body l).
Proof.
  induction l as [|x l IH]; intros Hbody; [apply keeps_ret|]. simpl.
  apply keeps_bind; [apply Hbody; by left|]. intros _. apply IH.
  intros y Hy. apply Hbody. by right.
Qed.

Lemma keeps_for_live {A} (lst : S -> list A) (body : A -> M S unit) :
  (forall x, keeps R (body x)) -> forall fuel i, keeps R (for_live fuel lst body i).
Proof.
  intros Hbody. induction fuel as [|fuel IH]; intros i; [apply keeps_raise|]. simpl.
  apply keeps_bind; [apply keeps_gets|]. intros l.
  destruct (l !! i); [|apply keeps_ret].
  apply keeps_bind; [apply Hbody|]. intros _. apply IH.
Qed.

Lemma keeps_py_remove {A} `{EqDecision A} (x : A) (lst : S -> list A)
    (set : list A -> S -> S) :
  (forall s, x ∈ lst s -> R s (set (remove_first x (lst s)) s)) ->
  keeps R (py_remove x lst set).
Proof.
  intros Hset s. unfold py_remove, bind, gets. case_bool_decide; [|reflexivity].
  simpl. by apply Hset.
Qed.

(** When [m] raises, the state it raises in is related to the one it
    started from. *)
Definition keeps_when_raising {A} (m : M S A) : Prop :=
  forall s e s', m s = Raise e s' -> R s s'.

Lemma keeps_when_raising_bind {A B} (m : M S A) (k : A -> M S B) :
  keeps R m -> (forall a, keeps_when_raising (k a)) -> keeps_when_raising (bind m k).
Proof.
  intros Hm Hk s e s' [H|(a & s1 & H & Hr)]%bind_Raise.
  - specialize (Hm s). by rewrite H in Hm.
  - specialize (Hm s). rewrite H in Hm. etransitivity; [exact Hm|by eapply Hk].
Qed.

Lemma keeps_when_raising_weaken {A} (m : M S A) : keeps R m -> keeps_when_raising m.
Proof. intros Hm s e s' H. specialize (Hm s). by rewrite H in Hm. Qed.

Lemma keeps_when_raising_modify (f : S -> S) : keeps_when_raising (modify f).
Proof. by intros s e s'. Qed.

End Keeps.

Section PassKeeps.

Import L3NATAgent.

Variable driver_raises : list RoutingDriver.call -> RoutingDriver.call -> bool.
Variable netaddr_prefixlen : string -> option string.
Variable set_order : list Route.t -> list Route.t.

(** A relation that the lookups of the driver, the calls to it and the
    updates of the floating IPs and of the desired state respect. *)
Variable R : state -> state -> Prop.
Context `{!PreOrder R}.
Hypothesis R_registry : forall st h, R st (mk_state (ri st) h (calls st)).
Hypothesis R_call : forall st c, R st (mk_state (ri st) (_he st) (calls st ++ [c])).
Hypothesis R_floating_ips : forall st l,
  R st (mk_state (RouterInfo.set_floating_ips l (ri st)) (_he st) (calls st)).
Hypothesis R_desired : forall st f,
  R st (mk_state (RouterInfo.update_router f (ri st)) (_he st) (calls st)).

Lemma keeps_lift_he {A} (m : M HostingEntities.t A) : keeps R (lift_he m).
Proof. intros st. unfold lift_he. destruct (m (_he st)); apply R_registry. Qed.

Lemma keeps_get_driver : keeps R get_driver.
Proof. apply (keeps_bind R); [apply (keeps_get R)|]. intros st. apply keeps_lift_he. Qed.

Lemma keeps_invoke d c : keeps R (invoke driver_raises d c).
Proof. intros st. unfold invoke. case_match; [reflexivity|apply R_call]. Qed.

Ltac keeps_steps :=
  repeat first
    [ apply (keeps_ret R) | apply (keeps_raise R) | apply (keeps_get R)
    | apply (keeps_gets R) | apply keeps_get_driver | apply keeps_invoke
    | apply (keeps_if R)
    | apply (keeps_bind R); [|intros ?]
    | apply (keeps_for_each R); intros ? _
    | case_match ].

Lemma keeps_driver_call c :
  keeps R (bind get_driver (fun d => invoke driver_raises d c)).
Proof. keeps_steps. Qed.

Lemma keeps_external_gateway_added g : keeps R (external_gateway_added driver_raises g).
Proof. unfold external_gateway_added. keeps_steps. Qed.

Lemma keeps_external_gateway_removed g :
  keeps R (external_gateway_removed driver_raises g).
Proof. unfold external_gateway_removed. keeps_steps. Qed.

Lemma keeps_internal_network_added p gw :
  keeps R (internal_network_added driver_raises p gw).
Proof. unfold internal_network_added. keeps_steps. Qed.

Lemma keeps_internal_network_removed p gw :
  keeps R (internal_network_removed driver_raises p gw).
Proof. unfold internal_network_removed. keeps_steps. Qed.

Lemma keeps_set_subnet_info p : keeps R (_set_subnet_info netaddr_prefixlen p).
Proof. unfold _set_subnet_info. keeps_steps. Qed.

Lemma keeps_set_floating_ips (f : RouterInfo.t -> list FloatingIp.t) :
  keeps R (modify (set_ri (fun r => RouterInfo.set_floating_ips (f r) r))).
Proof. apply (keeps_modify R). intros st. apply R_floating_ips. Qed.

Lemma keeps_remove_floating_ip fip : keeps R (remove_floating_ip fip).
Proof. apply (keeps_py_remove R). intros st _. apply R_floating_ips. Qed.

Lemma keeps_process_router_floating_ips gw :
  keeps R (process_router_floating_ips driver_raises gw).
Proof.
  unfold process_router_floating_ips.
  apply (keeps_bind R); [apply (keeps_get R)|intros st0].
  apply (keeps_bind R); [|intros m].
  - generalize (∅ : gmap string FloatingIp.t).
    induction (Router.floatingips _) as [|fip l IH]; intros m; [apply (keeps_ret R)|].
    simpl. apply (keeps_if R); [|apply IH].
    apply (keeps_bind R); [|intros _; apply IH].
    apply (keeps_if R); [|apply (keeps_ret R)].
    apply (keeps_bind R); [|intros _; apply keeps_driver_call].
    apply (keeps_set_floating_ips (fun r => RouterInfo.floating_ips r ++ [fip])).
  - apply (keeps_bind R); [apply (keeps_get R)|intros st1].
    apply (keeps_for_live R). intros fip.
    unfold floating_ips_sync_body, floating_ip_removed, floating_ip_added.
    repeat first
      [ apply (keeps_ret R) | apply (keeps_raise R) | apply (keeps_get R)
      | apply keeps_remove_floating_ip | apply keeps_driver_call
      | apply (keeps_set_floating_ips (fun r => RouterInfo.floating_ips r ++ [_]))
      | apply (keeps_if R)
      | apply (keeps_bind R); [|intros ?]
      | case_match ].
Qed.

Lemma keeps_gateway_step gw : keeps R (gateway_step driver_raises netaddr_prefixlen gw).
Proof.
  unfold gateway_step.
  apply (keeps_bind R); [apply (keeps_get R)|intros st0].
  repeat case_match; try apply (keeps_ret R);
    [|apply keeps_external_gateway_removed].
  apply (keeps_bind R); [apply keeps_set_subnet_info|intros g'].
  apply (keeps_bind R); [|intros _; apply keeps_external_gateway_added].
  apply (keeps_modify R). intros st. apply R_desired.
Qed.

Lemma keeps_floating_ip_phase gw : keeps R (floating_ip_phase driver_raises gw).
Proof.
  destruct gw; [apply keeps_process_router_floating_ips|apply (keeps_ret R)].
Qed.

Lemma keeps_routes_replace_loop adds :
  forall removes, keeps R (routes_replace_loop driver_raises adds removes).
Proof.
  induction adds as [|a adds IH]; intros removes; [apply (keeps_ret R)|]. simpl.
  apply (keeps_bind R); [|intros r].
  { intros st. unfold local. destruct (suppress_replaced a removes); reflexivity. }
  apply (keeps_bind R); [apply keeps_get_driver|intros d].
  apply (keeps_bind R); [apply keeps_invoke|intros _]. apply IH.
Qed.

Lemma keeps_routes_delete_loop removes :
  keeps R (for_each (fun route =>
                       do driver <- get_driver ;
                       invoke driver_raises driver (RoutingDriver.routes_updated "delete" route))
                    removes).
Proof. apply (keeps_for_each R). intros r _. apply keeps_driver_call. Qed.

(** [routes_updated] replaces the applied routes last: when it raises,
    only its loops have run. *)
Lemma routes_updated_keeps_when_raising :
  keeps_when_raising R (routes_updated driver_raises set_order).
Proof.
  unfold routes_updated.
  apply (keeps_when_raising_bind R); [apply (keeps_get R)|intros st0].
  destruct (diff_list_of_dict _ _ _) as [adds removes].
  apply (keeps_when_raising_bind R); [apply keeps_routes_replace_loop|intros removes'].
  apply (keeps_when_raising_bind R); [apply keeps_routes_delete_loop|intros _].
  apply keeps_when_raising_modify.
Qed.

Hypothesis R_internal_ports : forall st l,
  R st (mk_state (RouterInfo.set_internal_ports l (ri st)) (_he st) (calls st)).

Lemma keeps_add_new_port gw ip :
  keeps R (add_new_port driver_raises netaddr_prefixlen gw ip).
Proof.
  unfold add_new_port.
  apply (keeps_bind R); [apply keeps_set_subnet_info|intros p].
  apply (keeps_bind R); [apply (keeps_modify R); intros st; apply R_desired|intros _].
  apply (keeps_bind R); [apply keeps_internal_network_added|intros _].
  apply (keeps_modify R). intros st. apply R_internal_ports.
Qed.

Lemma keeps_remove_old_port gw p : keeps R (remove_old_port driver_raises gw p).
Proof.
  unfold remove_old_port.
  apply (keeps_bind R); [apply keeps_internal_network_removed|intros _].
  apply (keeps_py_remove R). intros st _. apply R_internal_ports.
Qed.

(** The pass up to the point where the gateway is recorded. *)
Lemma pass_before_routes st :
  process_router driver_raises netaddr_prefixlen set_order st
  = (do ex_gw_port <-
       (let gw := Router.gw_port (RouterInfo.router (ri st)) in
        run for_each (add_new_port driver_raises netaddr_prefixlen gw) (new_ports (ri st)) ;
        run for_each (remove_old_port driver_raises gw) (old_ports (ri st)) ;
        run gateway_step driver_raises netaddr_prefixlen gw ;
        do ex_gw_port <- _get_ex_gw_port ;
        run floating_ip_phase driver_raises ex_gw_port ;
        ret ex_gw_port) ;
     run modify (set_ri (RouterInfo.set_ex_gw_port ex_gw_port)) ;
     routes_updated driver_raises set_order) st.
Proof.
  rewrite process_router_steps. unfold bind, _get_ex_gw_port, gets, ret. cbv zeta.
  destruct (for_each _ (new_ports (ri st)) st) as [[] s1|]; [|done].
  destruct (for_each _ (old_ports (ri st)) s1) as [[] s2|]; [|done].
  destruct (gateway_step _ _ _ s2) as [[] s3|]; [|done].
  destruct (floating_ip_phase _ _ s3) as [[] s4|]; done.
Qed.

Lemma keeps_pass_before_routes st0 :
  keeps R (let gw := Router.gw_port (RouterInfo.router (ri st0)) in
           run for_each (add_new_port driver_raises netaddr_prefixlen gw) (new_ports (ri st0)) ;
           run for_each (remove_old_port driver_raises gw) (old_ports (ri st0)) ;
           run gateway_step driver_raises netaddr_prefixlen gw ;
           do ex_gw_port <- _get_ex_gw_port ;
           run floating_ip_phase driver_raises ex_gw_port ;
           ret ex_gw_port).
Proof.
  cbv zeta.
  apply (keeps_bind R); [apply (keeps_for_each R); intros; apply keeps_add_new_port|intros _].
  apply (keeps_bind R); [apply (keeps_for_each R); intros; apply keeps_remove_old_port|intros _].
  apply (keeps_bind R); [apply keeps_gateway_step|intros _].
  apply (keeps_bind R); [apply (keeps_gets R)|intros gw].
  apply (keeps_bind R); [apply keeps_floating_ip_phase|intros _]. apply (keeps_ret R).
Qed.

Hypothesis R_ex_gw_port : forall st g,
  R st (mk_state (RouterInfo.set_ex_gw_port g (ri st)) (_he st) (calls st)).
Hypothesis R_routes : forall st l,
  R st (mk_state (RouterInfo.set_routes l (ri st)) (_he st) (calls st)).

Lemma keeps_routes_updated : keeps R (routes_updated driver_raises set_order).
Proof.
  unfold routes_updated.
  apply (keeps_bind R); [apply (keeps_get R)|intros st0].
  destruct (diff_list_of_dict _ _ _) as [adds removes].
  apply (keeps_bind R); [apply keeps_routes_replace_loop|intros removes'].
  apply (keeps_bind R); [apply keeps_routes_delete_loop|intros _].
  apply (keeps_modify R). intros st. apply R_routes.
Qed.

(** The pass from the gateway step on. *)
Lemma keeps_pass_after_ports gw :
  keeps R (run gateway_step driver_raises netaddr_prefixlen gw ;
           do ex_gw_port <- _get_ex_gw_port ;
           run floating_ip_phase driver_raises ex_gw_port ;
           run modify (set_ri (RouterInfo.set_ex_gw_port ex_gw_port)) ;
           routes_updated driver_raises set_order).
Proof.
  apply (keeps_bind R); [apply keeps_gateway_step|intros _].
  apply (keeps_bind R); [apply (keeps_gets R)|intros g].
  apply (keeps_bind R); [apply keeps_floating_ip_phase|intros _].
  apply (keeps_bind R); [apply (keeps_modify R); intros st; apply R_ex_gw_port|intros _].
  apply keeps_routes_updated.
Qed.

End PassKeeps.

(** The relations the properties below are about. *)
Definition same_router_info (st st' : L3NATAgent.state) : Prop :=
  L3NATAgent.ri st' = L3NATAgent.ri st.

Definition same_gateway_and_routes (st st' : L3NATAgent.state) : Prop :=
  RouterInfo.ex_gw_port (L3NATAgent.ri st') = RouterInfo.ex_gw_port (L3NATAgent.ri st) /\
  RouterInfo.routes (L3NATAgent.ri st') = RouterInfo.routes (L3NATAgent.ri st).

#[global] Instance same_router_info_preorder : PreOrder same_router_info.
Proof. split; [by intros st|]. intros s1 s2 s3 H1 H2. unfold same_router_info in *. congruence. Qed.

#[global] Instance same_gateway_and_routes_preorder : PreOrder same_gateway_and_routes.
Proof.
  split; [by intros st|]. intros s1 s2 s3 [H1 H1'] [H2 H2'].
  unfold same_gateway_and_routes. split; congruence.
Qed.


(** X4: when a pass raises, the applied routes are as they were before the
    pass; the applied gateway is as it was too, unless the pass raised in
    its last step, the update of the routes, in which case the gateway
    recorded is the desired one. *)
Theorem failed_pass_keeps_applied_routes
    driver_raises netaddr_prefixlen set_order (st st' : L3NATAgent.state) e :
  L3NATAgent.process_router driver_raises netaddr_prefixlen set_order st = Raise e st' ->
  RouterInfo.routes (L3NATAgent.ri st') = RouterInfo.routes (L3NATAgent.ri st) /\
  (RouterInfo.ex_gw_port (L3NATAgent.ri st') = RouterInfo.ex_gw_port (L3NATAgent.ri st) \/
   (exists s, L3NATAgent.routes_updated driver_raises set_order s = Raise e st') /\
   RouterInfo.ex_gw_port (L3NATAgent.ri st')
   = Router.gw_port (RouterInfo.router (L3NATAgent.ri st'))).
Proof.
  intros Hrun. rewrite pass_before_routes in Hrun.
  pose proof (keeps_pass_before_routes driver_raises netaddr_prefixlen
                same_gateway_and_routes) as Hkeep.
  specialize (Hkeep ltac:(by intros) ltac:(by intros) ltac:(by intros)
                    ltac:(by intros) ltac:(by intros) st st).
  apply bind_Raise in Hrun as [Hrun|(gw & s4 & Hok & Hrun)].
  - rewrite Hrun in Hkeep. destruct Hkeep as [Hg Hr]. split; [done|by left].
  - rewrite Hok in Hkeep. destruct Hkeep as [Hg Hr]. simpl in Hg, Hr.
    apply bind_Raise in Hrun as [[=]|([] & s5 & [= <-] & Hrun)].
    pose proof (routes_updated_keeps_when_raising driver_raises set_order
                  same_router_info ltac:(by intros) ltac:(by intros) _ _ _ Hrun) as Hri.
    unfold same_router_info in Hri. rewrite Hri. simpl. split; [done|right].
    split; [by eexists|].
    cbv zeta in Hok.
    apply bind_Ok in Hok as ([] & s1 & _ & Hok).
    apply bind_Ok in Hok as ([] & s2 & _ & Hok).
    apply bind_Ok in Hok as ([] & s3 & _ & Hok).
    apply bind_Ok in Hok as (g & ? & [= <- <-] & Hok).
    apply bind_Ok in Hok as ([] & s4' & Hphase & [= <- <-]).
    by apply floating_ip_phase_Ok, floating_ip_step_fields in Hphase as (-> & _).
Qed.

(** Between two states of a pass for the desired gateway [gw]: the calls
    have grown, and every port now in the applied list either was there or
    has been the subject of [internal_network_added] and, with a gateway
    and snat, of [enable_internal_network_NAT] among the new calls. *)
Definition recorded_after_served (gw : option Port.t) (st st' : L3NATAgent.state) : Prop :=
  RouterInfo.snat_enabled (L3NATAgent.ri st') = RouterInfo.snat_enabled (L3NATAgent.ri st) /\
  exists new,
    L3NATAgent.calls st' = L3NATAgent.calls st ++ new /\
    forall p, p ∈ RouterInfo.internal_ports (L3NATAgent.ri st') ->
      p ∈ RouterInfo.internal_ports (L3NATAgent.ri st) \/
      (RoutingDriver.internal_network_added p ∈ new /\
       forall g, gw = Some g -> RouterInfo.snat_enabled (L3NATAgent.ri st) = true ->
         RoutingDriver.enable_internal_network_NAT p g ∈ new).

#[global] Instance recorded_after_served_preorder gw : PreOrder (recorded_after_served gw).
Proof.
  split.
  - intros st. split; [done|]. exists []. rewrite app_nil_r. split; [done|]. by left.
  - intros s1 s2 s3 (Hs1 & n1 & Hc1 & Hp1) (Hs2 & n2 & Hc2 & Hp2).
    split; [congruence|]. exists (n1 ++ n2). split; [by rewrite Hc2, Hc1, app_assoc|].
    intros p [Hp|[Ha Hn]]%Hp2.
    + apply Hp1 in Hp as [Hp|[Ha Hn]]; [by left|right].
      split; [apply elem_of_app; by left|]. intros g Hg Hs. apply elem_of_app. left. auto.
    + right. split; [apply elem_of_app; by right|].
      intros g Hg Hs. apply elem_of_app. right. apply Hn; congruence.
Qed.

Lemma recorded_frame gw (st st' : L3NATAgent.state) :
  RouterInfo.snat_enabled (L3NATAgent.ri st') = RouterInfo.snat_enabled (L3NATAgent.ri st) ->
  RouterInfo.internal_ports (L3NATAgent.ri st') = RouterInfo.internal_ports (L3NATAgent.ri st) ->
  (exists new, L3NATAgent.calls st' = L3NATAgent.calls st ++ new) ->
  recorded_after_served gw st st'.
Proof.
  intros Hs Hp [new Hc]. split; [done|]. exists new. split; [done|].
  intros p. rewrite Hp. by left.
Qed.

Ltac frame :=
  intros; apply recorded_frame; simpl;
  [done|done|first [by exists []; rewrite app_nil_r|by eexists]].

Section Recorded.

Import L3NATAgent.

Variable driver_raises : list RoutingDriver.call -> RoutingDriver.call -> bool.
Variable netaddr_prefixlen : string -> option string.
Variable set_order : list Route.t -> list Route.t.

Lemma recorded_add_new_port gw ip :
  keeps (recorded_after_served gw)
        (add_new_port driver_raises netaddr_prefixlen gw ip).
Proof.
  intros st. unfold add_new_port. rewrite final_bind.
  destruct (_set_subnet_info netaddr_prefixlen ip.2 st) as [p s1|e s1] eqn:Hsub.
  2:{ pose proof (keeps_set_subnet_info netaddr_prefixlen (recorded_after_served gw) ip.2 st)
        as H. by rewrite Hsub in H. }
  apply set_subnet_info_Ok in Hsub as [-> _].
  rewrite final_bind. simpl. rewrite final_bind.
  set (s2 := set_ri _ st).
  assert (H2 : recorded_after_served gw st s2) by (subst s2; frame).
  destruct (internal_network_added driver_raises p gw s2) as [[] s3|e s3] eqn:Hadd.
  - apply internal_network_added_Ok in Hadd as [Hr Hc]. simpl.
    unfold recorded_after_served, set_ri. cbn [ri calls _he]. rewrite Hr, Hc.
    subst s2. simpl.
    split; [done|]. eexists. split; [reflexivity|].
    intros q [Hq|Hq%list_elem_of_singleton]%elem_of_app; [by left|subst q; right].
    split; [by left|]. intros g -> Hs. right. simpl. rewrite Hs. by left.
  - etransitivity; [exact H2|].
    pose proof (keeps_internal_network_added driver_raises (recorded_after_served gw)
                  ltac:(frame) ltac:(frame) p gw s2) as H. by rewrite Hadd in H.
Qed.

Lemma recorded_remove_old_port gw gw' p :
  keeps (recorded_after_served gw) (remove_old_port driver_raises gw' p).
Proof.
  unfold remove_old_port.
  apply (keeps_bind (recorded_after_served gw)); [|intros _].
  - apply (keeps_internal_network_removed driver_raises (recorded_after_served gw)); frame.
  - apply (keeps_py_remove (recorded_after_served gw)). intros st _.
    split; [done|]. exists []. rewrite app_nil_r. split; [done|].
    intros q Hq%elem_of_remove_first. by left.
Qed.

Lemma recorded_process_router st :
  recorded_after_served (Router.gw_port (RouterInfo.router (ri st))) st
    (final (process_router driver_raises netaddr_prefixlen set_order st)).
Proof.
  rewrite process_router_steps. cbv zeta.
  set (gw := Router.gw_port (RouterInfo.router (ri st))).
  revert st gw. 
  assert (H : forall gw l1 l2,
            keeps (recorded_after_served gw)
              (run for_each (add_new_port driver_raises netaddr_prefixlen gw) l1 ;
               run for_each (remove_old_port driver_raises gw) l2 ;
               run gateway_step driver_raises netaddr_prefixlen gw ;
               do ex_gw_port <- _get_ex_gw_port ;
               run floating_ip_phase driver_raises ex_gw_port ;
               run modify (set_ri (RouterInfo.set_ex_gw_port ex_gw_port)) ;
               routes_updated driver_raises set_order)).
  { intros gw l1 l2.
    apply (keeps_bind (recorded_after_served gw)); [|intros _].
    { apply (keeps_for_each (recorded_after_served gw)). intros ip _.
      apply recorded_add_new_port. }
    apply (keeps_bind (recorded_after_served gw)); [|intros _].
    { apply (keeps_for_each (recorded_after_served gw)). intros p _.
      apply recorded_remove_old_port. }
    apply (keeps_pass_after_ports driver_raises netaddr_prefixlen set_order
             (recorded_after_served gw)); frame. }
  intros st. apply H.
Qed.

End Recorded.

(** X5: however a pass ends, a port it has put on the applied list has
    been the subject of an [internal_network_added] call that the driver
    served during the pass and, when the router has a desired gateway and
    snat enabled, of an [enable_internal_network_NAT] call as well: a port
    whose calls the driver refuses is not recorded. *)
Theorem port_is_recorded_once_the_driver_served_it
    driver_raises netaddr_prefixlen set_order (st : L3NATAgent.state) :
  let st' := final (L3NATAgent.process_router driver_raises netaddr_prefixlen set_order st) in
  exists new,
    L3NATAgent.calls st' = L3NATAgent.calls st ++ new /\
    forall p, p ∈ RouterInfo.internal_ports (L3NATAgent.ri st') ->
      p ∈ RouterInfo.internal_ports (L3NATAgent.ri st) \/
      (RoutingDriver.internal_network_added p ∈ new /\
       forall g, Router.gw_port (RouterInfo.router (L3NATAgent.ri st)) = Some g ->
         RouterInfo.snat_enabled (L3NATAgent.ri st) = true ->
         RoutingDriver.enable_internal_network_NAT p g ∈ new).
Proof.
  intros st'. by destruct (recorded_process_router driver_raises netaddr_prefixlen
                             set_order st) as [_ H].
Qed.

Lemma failed_pass_witness :
  let st := Sample.state [] [Sample.route1] (Sample.router [] [Sample.route2]) in
  let st' := final (L3NATAgent.process_router refusing Sample.prefixlen_24
                      Sample.as_listed st) in
  RouterInfo.routes (L3NATAgent.ri st') = [Sample.route1].
Proof.
  intros st st'.
  destruct (failed_pass_keeps_applied_routes refusing Sample.prefixlen_24
              Sample.as_listed st st' (Exception "Error!")) as [H _];
    [vm_compute; reflexivity|exact H].
Defined.

(** ** A floating IP that the driver refuses *)

Section Refused.

Import L3NATAgent.

Variable driver_raises : list RoutingDriver.call -> RoutingDriver.call -> bool.
Variable netaddr_prefixlen : string -> option string.
Variable set_order : list Route.t -> list Route.t.

(** With a hosting device in the router dictionary the driver is found,
    or made; only the registry may change. *)
Lemma get_driver_succeeds st hd :
  Router.hosting_device (RouterInfo.router (ri st)) = Some hd ->
  exists d h, get_driver st = Ok d (mk_state (ri st) h (calls st)).
Proof.
  intros Hhd. unfold get_driver, lift_he, HostingEntities.get_driver, bind, get.
  cbv beta iota.
  assert (Hset : exists d h, HostingEntities._set_driver (ri st) (_he st) = Ok d h).
  { unfold HostingEntities._set_driver. rewrite Hhd. by eexists _, _. }
  destruct Hset as (d & h & Hset).
  destruct (HostingEntities.router_id_hosting_entities (_he st)
              !! RouterInfo.router_id (ri st)) as [he|].
  - destruct (HostingEntities._drivers (_he st) !! HostingDevice.id he) as [d'|].
    + by eexists _, _.
    + rewrite Hset. by eexists _, _.
  - rewrite Hset. by eexists _, _.
Qed.

Lemma floating_ips_add_loop_refused existing g (pre rest : list FloatingIp.t) f hd :
  forall m st,
  (forall d, d ∈ pre -> truthy (FloatingIp.port_id d) = true ->
             FloatingIp.id d ∈ existing) ->
  truthy (FloatingIp.port_id f) = true ->
  FloatingIp.id f ∉ existing ->
  Router.hosting_device (RouterInfo.router (ri st)) = Some hd ->
  (forall tr, driver_raises tr
     (RoutingDriver.floating_ip_added (Some g) (FloatingIp.floating_ip_address f)
        (FloatingIp.fixed_ip_address f)) = true) ->
  exists h,
    floating_ips_add_loop driver_raises existing g (pre ++ f :: rest) m st
    = Raise (Exception "Error!")
        (mk_state (RouterInfo.set_floating_ips (RouterInfo.floating_ips (ri st) ++ [f])
                     (ri st)) h (calls st)).
Proof.
  induction pre as [|d pre IH]; intros m st Hpre Hp Hnew Hhd Hrefuse.
  - simpl. rewrite Hp, bool_decide_eq_true_2 by done.
    unfold bind at 1 2, modify, floating_ip_added.
    set (st1 := set_ri _ st).
    destruct (get_driver_succeeds st1 hd) as (d & h & Hd); [done|].
    unfold bind. rewrite Hd. unfold invoke. simpl. rewrite Hrefuse. by exists h.
  - simpl. destruct (truthy (FloatingIp.port_id d)) eqn:Hpd.
    + rewrite bool_decide_eq_false_2
        by (intros Hn; apply Hn, Hpre; [by left|done]).
      unfold bind at 1. simpl. apply IH; try done. intros d' Hd'. apply Hpre. by right.
    + apply IH; try done. intros d' Hd'. apply Hpre. by right.
Qed.

Lemma refused_floating_ip_recorded st g f hd :
  (forall l, set_order l ≡ₚ l) ->
  let r := ri st in
  let desired := Router.floatingips (RouterInfo.router r) in
  settled (RouterInfo.set_floating_ips (RouterInfo.floating_ips r ++ [f]) r) ->
  Router.gw_port (RouterInfo.router r) = Some g ->
  NoDup (FloatingIp.id <$> desired) ->
  f ∈ desired -> truthy (FloatingIp.port_id f) = true ->
  FloatingIp.id f ∉ FloatingIp.id <$> RouterInfo.floating_ips r ->
  Router.hosting_device (RouterInfo.router r) = Some hd ->
  (forall tr, driver_raises tr
     (RoutingDriver.floating_ip_added (Some g) (FloatingIp.floating_ip_address f)
        (FloatingIp.fixed_ip_address f)) = true) ->
  exists h,
    process_router driver_raises netaddr_prefixlen set_order st
    = Raise (Exception "Error!")
        (mk_state (RouterInfo.set_floating_ips (RouterInfo.floating_ips r ++ [f]) r)
                  h (calls st)).
Proof.
  intros Hperm r desired (Hports & Hgw & Hfip & Hroutes) Hg Hnd Hf Hp Hnew Hhd Hrefuse.
  simpl in Hports, Hgw, Hfip, Hroutes.
  destruct Hfip as [Hall _]; [by rewrite Hg|].
  apply list_elem_of_split in Hf as (pre & rest & Hsplit).
  destruct (floating_ips_add_loop_refused
              (FloatingIp.id <$> RouterInfo.floating_ips r) g pre rest f hd ∅ st)
    as (h & Hloop); try done.
  { intros d Hd Hpd.
    assert (Hin : d ∈ desired) by (rewrite Hsplit; apply elem_of_app; by left).
    specialize (Hall d Hin Hpd). rewrite fmap_app in Hall.
    apply elem_of_app in Hall as [|Hdf%list_elem_of_singleton]; [done|].
    exfalso. fold desired in Hnd. rewrite Hsplit, fmap_app, fmap_cons in Hnd.
    apply NoDup_app in Hnd as (_ & Hnd & _). apply (Hnd (FloatingIp.id d)).
    - by apply list_elem_of_fmap_2.
    - rewrite Hdf. by left. }
  exists h. rewrite process_router_steps. cbv zeta.
  assert (Hnew' : new_ports (ri st) = []).
  { apply filter_none. intros [i p] _ [Hc He]. simpl in *. by apply He, Hports. }
  assert (Hold : old_ports (ri st) = []).
  { apply filter_none. intros p Hpp Hn. apply Hn, Hports.
    by apply list_elem_of_fmap_2. }
  rewrite Hnew', Hold. simpl. unfold bind at 1. simpl. unfold bind at 1. simpl.
  assert (Hstep : gateway_step driver_raises netaddr_prefixlen
                    (Router.gw_port (RouterInfo.router (ri st))) st = Ok tt st).
  { unfold gateway_step, bind, get. cbv beta iota. change (ri st) with r.
    rewrite Hgw, Hg. done. }
  unfold bind at 1. rewrite Hstep. unfold bind at 1. simpl.
  fold r. rewrite Hg. simpl.
  unfold bind at 1. unfold process_router_floating_ips.
  unfold bind at 1. simpl. unfold bind at 1.
  fold r. fold desired. rewrite Hsplit, Hloop. done.
Qed.

End Refused.

(** X6: the agent puts a new floating IP on the applied list before it
    asks the driver to add it.  On a router that is settled except for one
    desired floating IP, when the driver refuses [floating_ip_added] for
    it, the pass raises with no call served, the floating IP is on the
    applied list all the same, and any further pass, whatever the driver
    would answer, completes without asking anything: the floating IP is
    never configured. *)
Theorem refused_floating_ip_is_never_retried
    driver_raises netaddr_prefixlen set_order (st : L3NATAgent.state) g f hd :
  (forall l, set_order l ≡ₚ l) ->
  let r := L3NATAgent.ri st in
  settled (RouterInfo.set_floating_ips (RouterInfo.floating_ips r ++ [f]) r) ->
  Router.gw_port (RouterInfo.router r) = Some g ->
  NoDup (FloatingIp.id <$> Router.floatingips (RouterInfo.router r)) ->
  f ∈ Router.floatingips (RouterInfo.router r) ->
  truthy (FloatingIp.port_id f) = true ->
  FloatingIp.id f ∉ FloatingIp.id <$> RouterInfo.floating_ips r ->
  Router.hosting_device (RouterInfo.router r) = Some hd ->
  (forall tr, driver_raises tr
     (RoutingDriver.floating_ip_added (Some g) (FloatingIp.floating_ip_address f)
        (FloatingIp.fixed_ip_address f)) = true) ->
  exists st',
    L3NATAgent.process_router driver_raises netaddr_prefixlen set_order st
      = Raise (Exception "Error!") st' /\
    L3NATAgent.calls st' = L3NATAgent.calls st /\
    RouterInfo.floating_ips (L3NATAgent.ri st') = RouterInfo.floating_ips r ++ [f] /\
    forall driver_raises',
      L3NATAgent.process_router driver_raises' netaddr_prefixlen set_order st' = Ok tt st'.
Proof.
  intros Hperm r Hsettled Hg Hnd Hf Hp Hnew Hhd Hrefuse.
  destruct (refused_floating_ip_recorded driver_raises netaddr_prefixlen set_order
              st g f hd) as (h & Hrun); try done.
  eexists. split; [exact Hrun|]. split; [done|]. split; [done|].
  intros driver_raises'. by apply settled_pass_idle.
Qed.

(** ** The registry of hosting entities *)

(** X7: once [get_driver] has returned a driver for a router, every later
    lookup for that router id returns the same driver and leaves the
    registry as it is, whatever hosting device the router dictionary then
    names: the binding of a router is not revised. *)
Theorem driver_lookup_is_cached (s s1 : HostingEntities.t) (r r' : RouterInfo.t) d :
  HostingEntities.get_driver r s = Ok d s1 ->
  RouterInfo.router_id r' = RouterInfo.router_id r ->
  HostingEntities.get_driver r' s1 = Ok d s1.
Proof.
  intros Hrun Hid.
  assert (Hs1 : exists he,
            HostingEntities.router_id_hosting_entities s1 !! RouterInfo.router_id r = Some he /\
            HostingEntities._drivers s1 !! HostingDevice.id he = Some d).
  { unfold HostingEntities.get_driver, bind, get in Hrun. cbv beta iota in Hrun.
    assert (Hset : HostingEntities._set_driver r s = Ok d s1 ->
              exists he,
                HostingEntities.router_id_hosting_entities s1 !! RouterInfo.router_id r
                  = Some he /\
                HostingEntities._drivers s1 !! HostingDevice.id he = Some d).
    { unfold HostingEntities._set_driver.
      destruct (Router.hosting_device (RouterInfo.router r)) as [he|]; [|done].
      intros [= <- <-]. exists he. simpl. by rewrite !lookup_insert_eq. }
    destruct (HostingEntities.router_id_hosting_entities s !! RouterInfo.router_id r)
      as [he|] eqn:Hb; [|by apply Hset].
    destruct (HostingEntities._drivers s !! HostingDevice.id he) as [d'|] eqn:Hd;
      [|by apply Hset].
    injection Hrun as <- <-. by exists he. }
  destruct Hs1 as (he & Hb & Hd).
  unfold HostingEntities.get_driver, bind, get. cbv beta iota.
  by rewrite Hid, Hb, Hd.
Qed.

(** X8: the first lookup for a router that has no binding makes a new
    driver, without a session, and stores it under the id of the router's
    hosting device, in place of any driver cached there; the routers
    already bound to a device of that id get this new driver from then
    on. *)
Theorem first_lookup_replaces_the_device_driver (s : HostingEntities.t) (r : RouterInfo.t) hd :
  HostingEntities.router_id_hosting_entities s !! RouterInfo.router_id r = None ->
  Router.hosting_device (RouterInfo.router r) = Some hd ->
  let d := Driver.mk (HostingDevice.ip_address hd) (HostingDevice.port hd)
             "stack" "cisco" None in
  let s' := HostingEntities.mk
              (<[RouterInfo.router_id r := hd]> (HostingEntities.router_id_hosting_entities s))
              (<[HostingDevice.id hd := d]> (HostingEntities._drivers s))
              (HostingEntities.backlog_hosting_entities s) in
  HostingEntities.get_driver r s = Ok d s' /\
  forall r1 hd1,
    HostingEntities.router_id_hosting_entities s !! RouterInfo.router_id r1 = Some hd1 ->
    HostingDevice.id hd1 = HostingDevice.id hd ->
    HostingEntities.get_driver r1 s' = Ok d s'.
Proof.
  intros Hb Hhd d s'. split.
  - unfold HostingEntities.get_driver, bind, get. cbv beta iota. rewrite Hb.
    unfold HostingEntities._set_driver. rewrite Hhd. done.
  - intros r1 hd1 Hb1 Hid.
    unfold HostingEntities.get_driver, bind, get. cbv beta iota. subst s'. simpl.
    rewrite lookup_insert_ne by (intros Heq; rewrite Heq in Hb; congruence).
    rewrite Hb1, Hid, lookup_insert_eq. done.
Qed.

(** X9: for a router whose dictionary names no hosting device, and for
    which no driver is cached, [get_driver] raises UnboundLocalError: the
    KeyError of the missing entry is caught and logged, and the return
    statement then finds the driver variable unbound.  The registry is
    left as it was. *)
Theorem driver_lookup_without_hosting_device (s : HostingEntities.t) (r : RouterInfo.t) :
  Router.hosting_device (RouterInfo.router r) = None ->
  (forall he, HostingEntities.router_id_hosting_entities s !! RouterInfo.router_id r = Some he ->
              HostingEntities._drivers s !! HostingDevice.id he = None) ->
  HostingEntities.get_driver r s = Raise (UnboundLocalError "_csr_driver") s.
Proof.
  intros Hhd Hnone. unfold HostingEntities.get_driver, bind, get. cbv beta iota.
  assert (Hset : HostingEntities._set_driver r s = Raise (UnboundLocalError "_csr_driver") s).
  { unfold HostingEntities._set_driver. by rewrite Hhd. }
  destruct (HostingEntities.router_id_hosting_entities s !! RouterInfo.router_id r)
    as [he|] eqn:Hb; [|done].
  by rewrite (Hnone he).
Qed.

(** X10: [remove_driver] raises KeyError for a router that has no binding
    and changes nothing; for a bound router it deletes the binding and
    drops every cached driver, those of the devices that other routers are
    still bound to included: the membership test compares a device id, a
    string, with the device dictionaries, and never succeeds. *)
Theorem remove_driver_drops_every_driver (s : HostingEntities.t) router_id :
  (HostingEntities.router_id_hosting_entities s !! router_id = None ->
   HostingEntities.remove_driver router_id s = Raise (KeyError router_id) s) /\
  (is_Some (HostingEntities.router_id_hosting_entities s !! router_id) ->
   HostingEntities.remove_driver router_id s
   = Ok tt (HostingEntities.mk
              (delete router_id (HostingEntities.router_id_hosting_entities s))
              ∅ (HostingEntities.backlog_hosting_entities s))).
Proof.
  unfold HostingEntities.remove_driver, bind, get. cbv beta iota. split.
  - by intros ->.
  - intros [he ->]. unfold modify. simpl. f_equal.
    unfold HostingEntities.set_drivers. simpl. f_equal.
    apply map_eq. intros k. rewrite lookup_empty.
    apply map_lookup_filter_None. right. intros d _. simpl.
    by rewrite py_in_str_dicts.
Qed.

(** What a failed probe of a device that is not backlogged leaves. *)
Lemma failed_probe_files_entry utcnow ping strptime (s : HostingEntities.t)
    router_id router he0 str c :
  Router.hosting_device router = Some he0 ->
  HostingDevice.created_at he0 = TsString str ->
  strptime str = Some c ->
  HostingEntities.backlog_hosting_entities s !! HostingDevice.id he0 = None ->
  HostingEntities.is_pingable ping (HostingDevice.ip_address he0) = false ->
  let he2 :=
    HostingDevice.set_backlog_insertion_ts
      (Some (utcnow `max` (c + HostingDevice.booting_time he0))%Z)
      (HostingDevice.set_created_at (TsDatetime c) he0) in
  final (HostingEntities.is_hosting_entity_reachable utcnow ping strptime router_id router s)
  = HostingEntities.mk
      (HostingEntities.router_id_hosting_entities s)
      (alter Driver.clear_connection (HostingDevice.id he0) (HostingEntities._drivers s))
      (<[HostingDevice.id he0 := HostingEntities.mk_entry he2 [router_id]]>
         (HostingEntities.backlog_hosting_entities s)).
Proof.
  intros Hhd Hc Hp Hb Hping he2.
  unfold HostingEntities.is_hosting_entity_reachable.
  rewrite Hhd, Hc, Hp. unfold bind, get. rewrite Hb.
  simpl. rewrite Hping. unfold modify, HostingEntities.clear_driver_connection,
    bind, get, ret. simpl.
  destruct (HostingEntities._drivers s !! HostingDevice.id he0) as [d|] eqn:Hd; simpl.
  - unfold HostingEntities.set_drivers, HostingEntities.set_backlog. simpl.
    f_equal. apply map_eq. intros k. rewrite lookup_alter, lookup_insert.
    case_decide; subst; by rewrite ?Hd.
  - unfold HostingEntities.set_backlog. simpl. f_equal.
    apply map_eq. intros k. rewrite lookup_alter.
    case_decide; subst; by rewrite ?Hd.
Qed.

(** X11: a device that [is_hosting_entity_reachable] has filed in the
    backlog at time [t0] is reported by a later
    [check_backlogged_hosting_entities], at time [t1], as reachable
    exactly when its boot time is over and it answers the probe, and as
    dead exactly when its boot time is over, it does not answer, and the
    dead timeout has passed since both the failed probe and the end of
    the boot time: a device that was still booting when the probe failed
    is not declared dead before its boot time plus the timeout.  A
    reported device has left the backlog. *)
Theorem backlogged_device_is_reported_by_a_later_check
    t0 ping strptime (s : HostingEntities.t) router_id router he0 str c
    t1 ping' dead_timeout :
  backlog_wf s ->
  Router.hosting_device router = Some he0 ->
  HostingDevice.created_at he0 = TsString str ->
  strptime str = Some c ->
  HostingEntities.backlog_hosting_entities s !! HostingDevice.id he0 = None ->
  HostingEntities.is_pingable ping (HostingDevice.ip_address he0) = false ->
  let s1 := final (HostingEntities.is_hosting_entity_reachable t0 ping strptime
                     router_id router s) in
  let he_id := HostingDevice.id he0 in
  let booted := (c + HostingDevice.booting_time he0 < t1)%Z in
  let answers := HostingEntities.is_pingable ping' (HostingDevice.ip_address he0) in
  exists resp s2,
    HostingEntities.check_backlogged_hosting_entities t1 ping' dead_timeout s1
      = Ok resp s2 /\
    (he_id ∈ HostingEntities.reachable resp <-> booted /\ answers = true) /\
    (he_id ∈ HostingEntities.dead resp <->
       booted /\ answers = false /\
       (t0 + dead_timeout < t1)%Z /\
       (c + HostingDevice.booting_time he0 + dead_timeout < t1)%Z) /\
    (he_id ∈ HostingEntities.reachable resp ++ HostingEntities.dead resp ->
     HostingEntities.backlog_hosting_entities s2 !! he_id = None).
Proof.
  intros Hwf Hhd Hc Hp Hb Hping s1 he_id booted answers.
  pose proof (failed_probe_files_entry t0 ping strptime s router_id router he0 str c
                Hhd Hc Hp Hb Hping) as Hs1.
  fold s1 in Hs1. cbv zeta in Hs1.
  set (he2 := HostingDevice.set_backlog_insertion_ts _ _) in Hs1.
  assert (Hentry : HostingEntities.backlog_hosting_entities s1 !! he_id
                   = Some (HostingEntities.mk_entry he2 [router_id])).
  { rewrite Hs1. simpl. apply lookup_insert_eq. }
  assert (Hwf1 : backlog_wf s1).
  { intros k e. rewrite Hs1. simpl. rewrite lookup_insert. case_decide.
    - intros [= <-]. by eexists _, _.
    - apply Hwf. }
  destruct (check_backlog_closed t1 ping' dead_timeout s1 Hwf1)
    as (s2 & Hrun & _ & _ & Hbl).
  set (keys := (map_to_list (HostingEntities.backlog_hosting_entities s1)).*1) in Hrun.
  assert (Hkey : he_id ∈ keys).
  { apply list_elem_of_fmap.
    exists (he_id, HostingEntities.mk_entry he2 [router_id]).
    split; [done|]. by apply elem_of_map_to_list. }
  assert (Hv : verdict_of t1 ping' dead_timeout s1 he_id
               = judge t1 ping' dead_timeout c
                   (t0 `max` (c + HostingDevice.booting_time he0))%Z he2).
  { unfold verdict_of. rewrite Hentry. done. }
  eexists _, s2. split; [exact Hrun|]. simpl.
  unfold judge in Hv. change (HostingDevice.booting_time he2) with
    (HostingDevice.booting_time he0) in Hv.
  change (HostingDevice.ip_address he2) with (HostingDevice.ip_address he0) in Hv.
  fold answers in Hv. subst booted.
  split; [|split].
  - rewrite list_elem_of_filter, Hv.
    case_bool_decide; destruct answers; try case_bool_decide;
      split; try (intros [??]; done || lia); intros [??]; (done || lia || split; (done || lia)).
  - rewrite list_elem_of_filter, Hv.
    case_bool_decide; destruct answers; try case_bool_decide;
      split; try (intros [??]; done || lia); try (intros (?&?&?&?); done || lia).
  - intros Hin. rewrite Hbl.
    apply elem_of_app in Hin as [[Hin _]%list_elem_of_filter|[Hin _]%list_elem_of_filter];
      by rewrite Hin.
Qed.

(** ** Routers coming and going *)


Section Removals.

Import L3NATAgent.

Variable driver_raises : list RoutingDriver.call -> RoutingDriver.call -> bool.
Variable netaddr_prefixlen : string -> option string.
Variable set_order : list Route.t -> list Route.t.


Lemma router_removed_Ok router_id deconfigure a a' :
  _router_removed driver_raises netaddr_prefixlen set_order router_id deconfigure a
    = Ok tt a' ->
  router_info a' = delete router_id (router_info a).
Proof.
  unfold _router_removed, bind, get. cbv beta iota.
  destruct (router_info a !! router_id) as [ri0|] eqn:Hri.
  - unfold on_router. destruct (_ (mk_state _ _ _)) as [[] st|e st]; [|done].
    intros [= <-]. simpl. apply map_eq. intros k.
    destruct (decide (k = router_id)) as [->|Hne].
    + by rewrite !lookup_delete_eq.
    + by rewrite !lookup_delete_ne, lookup_insert_ne.
  - intros [= <-]. by rewrite delete_id.
Qed.





(** X13: [_router_added] puts a router into [router_info] only after the
    driver has served [router_added] for it: when the lookup of the driver
    or the call raises, the table is as it was, although a binding and a
    driver for the router may have been registered by then. *)
Theorem router_is_known_once_the_driver_added_it router_id router a :
  let o := _router_added driver_raises router_id router a in
  if completes o
  then router_info (final o)
         = <[router_id := RouterInfo.init router_id router]> (router_info a) /\
       driver_calls (final o)
         = driver_calls a ++ [RoutingDriver.router_added router_id]
  else router_info (final o) = router_info a /\
       driver_calls (final o) = driver_calls a.
Proof.
  unfold _router_added, on_new_router. cbv zeta. rewrite completes_bind, !final_bind.
  destruct (bind get_driver _ (mk_state _ _ _)) as [[] st|e st] eqn:Hbody; simpl.
  - apply driver_call_Ok in Hbody as [-> ->]. done.
  - apply bind_Raise in Hbody as [Hg|(d & st1 & Hg & Hi)].
    + pose proof (get_driver_final (mk_state (RouterInfo.init router_id router)
                                       (_hdm a) (driver_calls a))) as [_ Hc].
      rewrite Hg in Hc. done.
    + apply get_driver_Ok in Hg as [_ Hc]. unfold invoke in Hi.
      destruct (driver_raises _ _); [|done]. injection Hi as _ <-. done.
Qed.


Lemma for_each_always {S A} (R : S -> S -> Prop) `{!PreOrder R}
    (body : A -> M S unit) (l : list A) :
  (forall x s, exists s', body x s = Ok tt s' /\ R s s') ->
  forall s, exists s', for_each body l s = Ok tt s' /\ R s s'.
Proof.
  intros Hbody. induction l as [|x l IH]; intros s; [by exists s|].
  destruct (Hbody x s) as (s1 & Hx & H1). destruct (IH s1) as (s2 & Hl & H2).
  exists s2. simpl. rewrite (bind_of_Ok _ _ _ _ _ Hx). split; [done|by etransitivity].
Qed.

Lemma router_removed_drivers router_id deconfigure a a' :
  _router_removed driver_raises netaddr_prefixlen set_order router_id deconfigure a
    = Ok tt a' ->
  _hdm a' = _hdm a \/ forall h, HostingEntities._drivers (_hdm a') !! h = None.
Proof.
  unfold _router_removed. intros (? & ? & [= <- <-] & H)%bind_Ok.
  destruct (router_info a !! router_id) as [ri0|]; [|injection H as <-; by left].
  apply bind_Ok in H as ([] & a1 & H & [= <-]). simpl.
  unfold on_router in H.
  destruct deconfigure; [|injection H as <-; by left].
  destruct (bind _ _ (mk_state _ _ _)) as [[] st|] eqn:Hbody; [|done].
  injection H as <-. simpl. right.
  apply bind_Ok in Hbody as ([] & st1 & _ & Hbody).
  apply bind_Ok in Hbody as (d & st2 & _ & Hbody).
  apply bind_Ok in Hbody as ([] & st3 & _ & Hrem).
  unfold lift_he in Hrem.
  destruct (HostingEntities.remove_driver router_id (_he st3)) as [[] h'|] eqn:Hrd; [|done].
  injection Hrem as <-. by apply remove_driver_Ok in Hrd as (_ & Hd & _).
Qed.

(** Keeping a router or a driver out once it is out. *)
Definition nothing_comes_back (a a' : t) : Prop :=
  (forall k, router_info a !! k = None -> router_info a' !! k = None) /\
  (forall h, HostingEntities._drivers (_hdm a) !! h = None ->
             HostingEntities._drivers (_hdm a') !! h = None).

#[local] Instance nothing_comes_back_preorder : PreOrder nothing_comes_back.
Proof.
  split; [by intros a|]. intros a1 a2 a3 [H1 H1'] [H2 H2']. split; auto.
Qed.

Lemma router_removed_nothing_comes_back router_id deconfigure a a' :
  _router_removed driver_raises netaddr_prefixlen set_order router_id deconfigure a
    = Ok tt a' ->
  nothing_comes_back a a' /\ router_info a' !! router_id = None.
Proof.
  intros H. pose proof (router_removed_Ok _ _ _ _ H) as Hri.
  apply router_removed_drivers in H as [Hh|Hh].
  - split; [split|].
    + intros k Hk. rewrite Hri.
      destruct (decide (k = router_id)) as [->|];
        [apply lookup_delete_eq|by rewrite lookup_delete_ne].
    + by rewrite Hh.
    + rewrite Hri. apply lookup_delete_eq.
  - split; [split|].
    + intros k Hk. rewrite Hri.
      destruct (decide (k = router_id)) as [->|];
        [apply lookup_delete_eq|by rewrite lookup_delete_ne].
    + intros h _. apply Hh.
    + rewrite Hri. apply lookup_delete_eq.
Qed.

Lemma hosting_entity_removed_completed
    (hosting_data : list (string * option (list string))) deconfigure : forall a a',
  hosting_entity_removed driver_raises netaddr_prefixlen set_order
    hosting_data deconfigure a = Ok tt a' ->
  nothing_comes_back a a' /\
  forall item, item ∈ hosting_data ->
    HostingEntities._drivers (_hdm a') !! item.1 = None /\
    forall router_id, router_id ∈ default [] item.2 ->
      router_info a' !! router_id = None.
Proof.
  unfold hosting_entity_removed.
  induction hosting_data as [|item data IH]; intros a a' Hrun.
  - injection Hrun as <-. split; [reflexivity|]. by intros item Hi%elem_of_nil.
  - simpl in Hrun. apply bind_Ok in Hrun as ([] & a2 & Hitem & Hrun).
    apply bind_Ok in Hitem as ([] & a1 & Hrouters & Hpop).
    assert (H1 : nothing_comes_back a a1 /\
                 forall router_id, router_id ∈ default [] item.2 ->
                   router_info a1 !! router_id = None).
    { clear -Hrouters. revert a Hrouters.
      induction (default [] item.2) as [|r l IHl]; intros a Hrouters.
      - injection Hrouters as <-. split; [reflexivity|]. by intros r Hr%elem_of_nil.
      - simpl in Hrouters. apply bind_Ok in Hrouters as ([] & a0 & Hr & Hrouters).
        apply router_removed_nothing_comes_back in Hr as [Hn Hr].
        apply IHl in Hrouters as [Hn' Hl]. split; [by etransitivity|].
        intros k [->|Hk]%elem_of_cons; [by apply Hn'|by apply Hl]. }
    destruct H1 as [Hn1 Hr1].
    assert (H2 : nothing_comes_back a1 a2 /\
                 HostingEntities._drivers (_hdm a2) !! item.1 = None).
    { unfold lift_hdm, HostingEntities.pop, modify in Hpop. injection Hpop as <-. simpl.
      split; [split; [done|]|apply lookup_delete_eq]. simpl.
      intros h Hh. destruct (decide (h = item.1)) as [->|];
        [apply lookup_delete_eq|by rewrite lookup_delete_ne]. }
    destruct H2 as [Hn2 Hd2].
    apply IH in Hrun as [Hn3 Hrest].
    split; [by do 2 (etransitivity; [eassumption|])|].
    intros item' [->|Hi]%elem_of_cons; [|by apply Hrest].
    split; [by apply Hn3|]. intros r Hr. apply Hn3, Hn2. by apply Hr1.
Qed.

(** What a removal without deconfiguration leaves alone. *)
Definition quietly (a a' : t) : Prop :=
  driver_calls a' = driver_calls a /\
  HostingEntities.router_id_hosting_entities (_hdm a')
    = HostingEntities.router_id_hosting_entities (_hdm a) /\
  HostingEntities.backlog_hosting_entities (_hdm a')
    = HostingEntities.backlog_hosting_entities (_hdm a).

#[local] Instance quietly_preorder : PreOrder quietly.
Proof.
  split; [by intros a|]. intros a1 a2 a3 (?&?&?) (?&?&?).
  unfold quietly. repeat split; congruence.
Qed.

Lemma hosting_entity_removed_quietly
    (hosting_data : list (string * option (list string))) a :
  exists a',
    hosting_entity_removed driver_raises netaddr_prefixlen set_order
      hosting_data false a = Ok tt a' /\ quietly a a'.
Proof.
  apply (for_each_always quietly). intros item a0.
  destruct (for_each_always quietly
              (fun router_id => _router_removed driver_raises netaddr_prefixlen
                                  set_order router_id false)
              (default [] item.2)) with (s := a0) as (a1 & Hr & Hq1).
  { intros r s. unfold _router_removed, bind, get. cbv beta iota.
    destruct (router_info s !! r); [|by exists s].
    eexists. split; [reflexivity|]. done. }
  eexists. rewrite (bind_of_Ok _ _ _ _ _ Hr). split; [reflexivity|].
  etransitivity; [exact Hq1|]. done.
Qed.

(** X14: when [hosting_entity_removed] completes, none of the routers
    listed in the payload is in [router_info] and none of the hosting
    entities it names has a cached driver.  With deconfigure unset it
    always completes, asks nothing of the driver and leaves the bindings
    of the routers to their hosting entities, and the backlog, as they
    were. *)
Theorem hosting_entity_removal_forgets_routers_and_drivers
    (hosting_data : list (string * option (list string))) deconfigure a :
  let o := hosting_entity_removed driver_raises netaddr_prefixlen set_order
             hosting_data deconfigure a in
  (completes o = true ->
   forall item, item ∈ hosting_data ->
     HostingEntities._drivers (_hdm (final o)) !! item.1 = None /\
     forall router_id, router_id ∈ default [] item.2 ->
       router_info (final o) !! router_id = None) /\
  (deconfigure = false ->
   completes o = true /\
   driver_calls (final o) = driver_calls a /\
   HostingEntities.router_id_hosting_entities (_hdm (final o))
     = HostingEntities.router_id_hosting_entities (_hdm a) /\
   HostingEntities.backlog_hosting_entities (_hdm (final o))
     = HostingEntities.backlog_hosting_entities (_hdm a)).
Proof.
  intros o. split.
  - intros Hc. subst o.
    destruct (hosting_entity_removed _ _ _ _ _ a) as [[] a'|] eqn:Hrun; [|done].
    by apply hosting_entity_removed_completed in Hrun as [_ H].
  - intros ->. subst o.
    destruct (hosting_entity_removed_quietly hosting_data a) as (a' & -> & Hq).
    split; [done|]. exact Hq.
Qed.

End Removals.

(** ** The full-resync task when its follow-up fails *)

Section FollowUp.

Import L3NATAgent.

Variable utcnow : Z.
Variable ping_succeeds : string -> bool.
Variable hosting_entity_dead_timeout : Z.
Variable controller : L3PluginApi.message -> list Router.t.
Variable conf_use_namespaces : bool.
Variable conf_router_id : string.
Variable _process_routers : list Router.t -> bool -> M L3NATAgent.t unit.

(** X15: when the backlog check of [_sync_routers_task] reports a device,
    reachable again or dead, the task raises with [fullsync] already
    cleared, the reported devices already taken out of the backlog, and
    nothing sent to the controller: the routers of a device that answers
    again are not fetched, a dead device is not reported, and the backlog
    that a later check would go through no longer holds either. *)
Theorem failed_followup_forgets_the_reported_devices (a a1 : L3NATAgent.t) res h :
  fullsync a = true ->
  _process_routers
    (controller (L3PluginApi.cfg_sync_routers
                   (_router_ids conf_use_namespaces conf_router_id)
                   (L3PluginApi.AList [])))
    true (clear_pending a) = Ok tt a1 ->
  backlog_wf (_hdm a1) ->
  HostingEntities.check_backlogged_hosting_entities utcnow ping_succeeds
    hosting_entity_dead_timeout (_hdm a1) = Ok res h ->
  HostingEntities.reachable res ++ HostingEntities.dead res <> [] ->
  exists e a',
    _sync_routers_task utcnow ping_succeeds hosting_entity_dead_timeout
      controller conf_use_namespaces conf_router_id _process_routers a = Raise e a' /\
    fullsync a' = false /\
    casts a' = casts a1 /\
    _hdm a' = h /\
    forall he_id,
      he_id ∈ HostingEntities.reachable res ++ HostingEntities.dead res ->
      HostingEntities.backlog_hosting_entities h !! he_id = None.
Proof.
  intros Hfull Hproc Hwf Hcheck Hsome.
  assert (Hgone : forall he_id,
            he_id ∈ HostingEntities.reachable res ++ HostingEntities.dead res ->
            HostingEntities.backlog_hosting_entities h !! he_id = None).
  { destruct (check_backlog_closed utcnow ping_succeeds hosting_entity_dead_timeout
                (_hdm a1) Hwf) as (s' & Hrun & _ & _ & Hbl).
    rewrite Hcheck in Hrun. injection Hrun as -> ->. simpl.
    intros k Hk. rewrite Hbl.
    apply elem_of_app in Hk as [[Hk _]%list_elem_of_filter|[Hk _]%list_elem_of_filter];
      by rewrite Hk. }
  assert (Htask : _sync_routers_task utcnow ping_succeeds hosting_entity_dead_timeout
                    controller conf_use_namespaces conf_router_id _process_routers a
                  = process_backlog utcnow ping_succeeds
                      hosting_entity_dead_timeout controller _process_routers
                      (set_fullsync false a1)).
  { unfold _sync_routers_task, bind, get. rewrite Hfull. cbn [negb].
    unfold try_except_else, bind, modify, plugin_rpc.
    rewrite first_get_routers_binds. unfold ret. cbv beta iota. by rewrite Hproc. }
  rewrite Htask. unfold process_backlog, bind, lift_hdm.
  cbn [_hdm set_fullsync]. rewrite Hcheck.
  destruct (HostingEntities.reachable res) as [|k l] eqn:Hr.
  - destruct (HostingEntities.dead res) as [|k l] eqn:Hd; [done|].
    unfold plugin_rpc, ret. rewrite no_report_dead_hosting_entities.
    unfold raise. eexists _, _. split; [reflexivity|]. simpl. repeat split; try done.
  - unfold plugin_rpc. rewrite get_routers_rejects_he_ids. unfold raise.
    eexists _, _. split; [reflexivity|]. simpl. repeat split; try done.
Qed.

End FollowUp.

(** ** The CSR1000v driver: sessions and names *)

Section Sessions.

Import CSR1000vRoutingDriver.

Variable reply : list (confstr * string) -> confstr -> string.
Variable running_vrfs : list (confstr * string) -> list string.
Variable running_has_interface : list (confstr * string) -> string -> bool.
Variable running_has_cfg : list (confstr * string) -> cfgline -> bool.
Variable running_has_acl : list (confstr * string) -> string -> string -> string -> bool.

(** X16: [_get_connection] swallows the failure to connect and returns
    None.  With no session cached and a device that cannot be connected
    to, every push operation other than [create_vrf] therefore raises an
    AttributeError, for the method it looks up on None, and [create_vrf],
    which catches it, returns normally; nothing is pushed and the driver
    object is left as it was. *)
Theorem operations_without_a_session (o : operation) (d : t) :
  _csr_conn d = false ->
  let result := perform false reply running_vrfs running_has_interface
                  running_has_cfg running_has_acl o d in
  match o with
  | op_create_vrf _ => result = Ok tt d
  | _ => exists attr, result = Raise (AttributeError attr) d
  end.
Proof.
  intros Hconn. destruct d as [c i p]. simpl in Hconn. subst c.
  destruct o; cbv zeta; try (eexists; reflexivity); reflexivity.
Qed.

(** With a session cached: the session stays, the flag of the data
    interfaces stays, and what is pushed is no interface enabling. *)
Definition session_kept (d d' : t) : Prop :=
  _csr_conn d = true ->
  _csr_conn d' = true /\ _intfs_enabled d' = _intfs_enabled d /\
  exists new, pushed d' = pushed d ++ new /\
              Forall (fun p : confstr * string => forall i, p.1 <> ENABLE_INTF i) new.

#[local] Instance session_kept_preorder : PreOrder session_kept.
Proof.
  split.
  - intros d Hc. repeat split; try done. exists []. by rewrite app_nil_r.
  - intros d1 d2 d3 H12 H23 Hc. destruct (H12 Hc) as (Hc2 & Hi2 & n1 & Hp1 & Hf1).
    destruct (H23 Hc2) as (Hc3 & Hi3 & n2 & Hp2 & Hf2).
    split; [done|]. split; [congruence|]. exists (n1 ++ n2).
    split; [by rewrite Hp2, Hp1, app_assoc|by apply Forall_app].
Qed.

Lemma session_kept_try_except {A} (body : M t A) (handler : exn -> M t A) :
  keeps session_kept body -> (forall e, keeps session_kept (handler e)) ->
  keeps session_kept (try_except body handler).
Proof.
  intros Hb Hh d. unfold try_except. specialize (Hb d).
  destruct (body d) as [a d1|e d1]; [done|].
  etransitivity; [exact Hb|apply Hh].
Qed.

Lemma session_kept_get_connection connect_succeeds :
  keeps session_kept (_get_connection connect_succeeds reply).
Proof.
  intros d Hc. unfold _get_connection, bind, get. rewrite Hc. simpl.
  repeat split; try done. exists []. by rewrite app_nil_r.
Qed.

Lemma session_kept_push conn c name :
  (forall i, c <> ENABLE_INTF i) -> keeps session_kept (push reply conn c name).
Proof.
  intros Hne d Hc. unfold push, edit_config, _check_response, bind. destruct conn; simpl.
  - destruct (contains "<ok />" _); simpl; (split; [done|]); (split; [done|]);
      eexists; (split; [reflexivity|]); by apply Forall_singleton.
  - repeat split; try done. exists []. by rewrite app_nil_r.
Qed.

Ltac session_steps :=
  repeat first
    [ apply (keeps_ret session_kept) | apply (keeps_raise session_kept)
    | apply (keeps_get session_kept) | apply (keeps_gets session_kept)
    | apply session_kept_push; intros ?; discriminate
    | apply session_kept_get_connection
    | apply session_kept_try_except; [|intros ?]
    | apply (keeps_if session_kept)
    | apply (keeps_bind session_kept); [|intros ?] ].

(** X17: no push operation drops the session of the driver.  On a driver
    with an open session an operation, whether it returns or raises for a
    rejected push, leaves [_csr_conn] set, so that the next operation
    reuses the session.  Nor does it push the enabling of the data
    interfaces or change the flag that records it: interfaces whose
    enabling failed when the session was opened stay that way for as long
    as the session is kept. *)
Theorem operation_keeps_the_cached_session connect_succeeds (o : operation) (d : t) :
  _csr_conn d = true ->
  let d' := final (perform connect_succeeds reply running_vrfs running_has_interface
                     running_has_cfg running_has_acl o d) in
  _csr_conn d' = true /\ _intfs_enabled d' = _intfs_enabled d /\
  exists new, pushed d' = pushed d ++ new /\
              Forall (fun p : confstr * string => forall i, p.1 <> ENABLE_INTF i) new.
Proof.
  intros Hc d'. subst d'. revert d Hc.
  change (keeps session_kept (perform connect_succeeds reply running_vrfs
            running_has_interface running_has_cfg running_has_acl o)).
  destruct o; simpl;
    unfold create_vrf, remove_vrf, create_subinterface, edit_running_config,
      remove_subinterface, nat_rules_for_internet_access, add_interface_nat,
      remove_interface_nat, remove_dyn_nat_rule, add_floating_ip,
      remove_floating_ip, add_static_route, remove_static_route,
      add_default_static_route, remove_default_static_route,
      _get_vrfs, _interface_exists, _cfg_exists, _check_acl, _get_running_config;
    session_steps.
Qed.

End Sessions.

(** X18: the VRF of a router is named by the first fourteen characters of
    "nrouter-" followed by the router id, that is by the first six
    characters of the id: the name is at most fourteen characters long,
    and two routers whose ids agree on their first six characters get the
    same VRF. *)
Theorem vrf_name_keeps_six_characters_of_the_router_id (ri ri' : RouterInfo.t) :
  CSR1000vRoutingDriver._csr_get_vrf_name ri
    = String.append "nrouter-" (String.substring 0 6 (RouterInfo.router_id ri)) /\
  String.length (CSR1000vRoutingDriver._csr_get_vrf_name ri) <= 14 /\
  (String.substring 0 6 (RouterInfo.router_id ri)
     = String.substring 0 6 (RouterInfo.router_id ri') ->
   CSR1000vRoutingDriver._csr_get_vrf_name ri
     = CSR1000vRoutingDriver._csr_get_vrf_name ri').
Proof.
  assert (H : forall r, CSR1000vRoutingDriver._csr_get_vrf_name r
                        = String.append "nrouter-" (String.substring 0 6 (RouterInfo.router_id r)))
    by reflexivity.
  assert (Hlen : forall n s, String.length (String.substring 0 n s) <= n).
  { induction n as [|n IH]; intros [|c s]; simpl; try lia. specialize (IH s). lia. }
  split; [apply H|]. split.
  - rewrite H. specialize (Hlen 6 (RouterInfo.router_id ri)).
    revert Hlen. generalize (String.substring 0 6 (RouterInfo.router_id ri)).
    intros s Hs. simpl. change (String.append EmptyString s) with s. lia.
  - intros Heq. by rewrite !H, Heq.
Qed.

(** ** The properties above at sample inputs *)

Lemma refused_floating_ip_witness :
  let st := Sample.state [Sample.fip1] [] (Sample.router [Sample.fip1; Sample.fip2] []) in
  exists st',
    L3NATAgent.process_router refusing Sample.prefixlen_24 Sample.as_listed st
      = Raise (Exception "Error!") st' /\
    RouterInfo.floating_ips (L3NATAgent.ri st') = [Sample.fip1; Sample.fip2] /\
    Sample.process_router st' = Ok tt st'.
Proof.
  intros st.
  destruct (refused_floating_ip_is_never_retried refusing Sample.prefixlen_24
              Sample.as_listed st Sample.gw Sample.fip2 Sample.hd1)
    as (st' & Hrun & _ & Hfips & Hlater).
  - intros l. reflexivity.
  - split; [intros i; reflexivity|]. split; [reflexivity|]. split; [|reflexivity].
    intros _. split.
    + intros d [->|[->|H]%elem_of_cons]%elem_of_cons _;
        [by left|right; by left|by apply elem_of_nil in H].
    + intros f [->|[->|H]%elem_of_cons]%elem_of_cons; [| |by apply elem_of_nil in H].
      * split; [exists Sample.fip1; repeat split; by left|].
        intros d [->|[->|H]%elem_of_cons]%elem_of_cons _;
          [done|discriminate|by apply elem_of_nil in H].
      * split; [exists Sample.fip2; repeat split; right; by left|].
        intros d [->|[->|H]%elem_of_cons]%elem_of_cons _;
          [discriminate|done|by apply elem_of_nil in H].
  - reflexivity.
  - apply (bool_decide_unpack _). vm_compute. exact I.
  - right. by left.
  - reflexivity.
  - apply (bool_decide_unpack _). vm_compute. exact I.
  - reflexivity.
  - intros tr. reflexivity.
  - exists st'. split; [exact Hrun|]. split; [exact Hfips|]. apply Hlater.
Defined.

(** A router on [Sample.hd1] seen by an empty registry, and the same
    router id once the controller names no hosting device for it. *)
Definition empty_registry : HostingEntities.t := HostingEntities.mk ∅ ∅ ∅.

Definition homeless_router : Router.t :=
  Router.mk "r1" true None [] [] [] None None.

Lemma driver_lookup_witness :
  let r := RouterInfo.init "r1" (Sample.router [] []) in
  let s1 := final (HostingEntities.get_driver r empty_registry) in
  HostingEntities.get_driver (RouterInfo.init "r1" homeless_router) s1
  = Ok (Driver.mk "20.0.0.5" "22" "stack" "cisco" None) s1.
Proof.
  intros r s1.
  apply (driver_lookup_is_cached empty_registry s1 r
           (RouterInfo.init "r1" homeless_router)); reflexivity.
Defined.

Lemma first_lookup_witness :
  let s := HostingEntities.mk {["r2" := Sample.hd1]} {["hd1" := Sample.driver]} ∅ in
  let d := Driver.mk "20.0.0.5" "22" "stack" "cisco" None in
  exists s',
    HostingEntities.get_driver (RouterInfo.init "r1" (Sample.router [] [])) s = Ok d s' /\
    HostingEntities.get_driver (RouterInfo.init "r2" (Sample.router [] [])) s' = Ok d s'.
Proof.
  intros s d.
  destruct (first_lookup_replaces_the_device_driver s
              (RouterInfo.init "r1" (Sample.router [] [])) Sample.hd1)
    as [Hfirst Hothers]; [reflexivity|reflexivity|].
  eexists. split; [exact Hfirst|].
  apply (Hothers (RouterInfo.init "r2" (Sample.router [] [])) Sample.hd1); reflexivity.
Defined.

Lemma no_hosting_device_witness :
  HostingEntities.get_driver (RouterInfo.init "r1" homeless_router) empty_registry
  = Raise (UnboundLocalError "_csr_driver") empty_registry.
Proof.
  apply driver_lookup_without_hosting_device; [reflexivity|].
  intros he H. discriminate H.
Defined.

Lemma backlogged_device_witness :
  let s1 := final (HostingEntities.is_hosting_entity_reachable 1000
                     Sample.nobody_answers Sample.strptime "r1" (Sample.router [] [])
                     Sample.registry) in
  exists resp s2,
    HostingEntities.check_backlogged_hosting_entities 2000 Sample.nobody_answers 300 s1
      = Ok resp s2 /\
    "hd1" ∈ HostingEntities.dead resp /\
    HostingEntities.backlog_hosting_entities s2 !! "hd1" = None.
Proof.
  intros s1.
  destruct (backlogged_device_is_reported_by_a_later_check 1000 Sample.nobody_answers
              Sample.strptime Sample.registry "r1" (Sample.router [] []) Sample.hd1
              "2014-01-01 00:00:00" 0 2000 Sample.nobody_answers 300)
    as (resp & s2 & Hrun & _ & Hdead & Hgone).
  - intros k e H. discriminate H.
  - reflexivity.
  - reflexivity.
  - reflexivity.
  - reflexivity.
  - reflexivity.
  - exists resp, s2. split; [exact Hrun|].
    assert (Hin : "hd1" ∈ HostingEntities.dead resp).
    { apply Hdead. simpl. repeat split; (lia || reflexivity). }
    split; [exact Hin|]. apply Hgone, elem_of_app. by right.
Defined.


Lemma failed_followup_witness :
  exists e a',
    L3NATAgent._sync_routers_task 2000 Sample.everybody_answers 300 (fun _ => [])
      true "r1" (fun _ _ => ret tt)
      (Sample.agent (Sample.router_info [] [] (Sample.router [] []))
         Sample.backlogged_registry)
    = Raise e a' /\
    L3NATAgent.fullsync a' = false /\
    HostingEntities.backlog_hosting_entities (L3NATAgent._hdm a') !! "hd1" = None.
Proof.
  destruct (failed_followup_forgets_the_reported_devices 2000 Sample.everybody_answers
              300 (fun _ => []) true "r1" (fun _ _ => ret tt)
              (Sample.agent (Sample.router_info [] [] (Sample.router [] []))
                 Sample.backlogged_registry)
              (L3NATAgent.clear_pending
                 (Sample.agent (Sample.router_info [] [] (Sample.router [] []))
                    Sample.backlogged_registry))
              (HostingEntities.mk_response ["hd1"] [])
              (HostingEntities.mk {["r1" := Sample.hd1]} ∅ ∅))
    as (e & a' & Hrun & Hfull & _ & Hh & Hgone).
  - reflexivity.
  - reflexivity.
  - intros k e H.
    change (({["hd1" := HostingEntities.mk_entry Sample.hd1_backlogged ["r1"]]}
               : gmap string HostingEntities.backlog_entry) !! k = Some e) in H.
    apply lookup_singleton_Some in H as [<- <-].
    exists 0%Z, 1000%Z. split; reflexivity.
  - vm_compute. reflexivity.
  - discriminate.
  - exists e, a'. split; [exact Hrun|]. split; [exact Hfull|].
    rewrite Hh. reflexivity.
Defined.

Lemma no_session_witness :
  let d := CSR1000vRoutingDriver.mk false false [] in
  exists attr,
    CSR1000vRoutingDriver.perform false Sample.rejecting (fun _ => [])
      (fun _ _ => false) (fun _ _ => false) (fun _ _ _ _ => false)
      (CSR1000vRoutingDriver.op_add_floating_ip "8.8.8.8" "7.7.7.7" "nrouter-r1") d
    = Raise (AttributeError attr) d.
Proof.
  intros d.
  exact (operations_without_a_session Sample.rejecting (fun _ => [])
           (fun _ _ => false) (fun _ _ => false) (fun _ _ _ _ => false)
           (CSR1000vRoutingDriver.op_add_floating_ip "8.8.8.8" "7.7.7.7" "nrouter-r1")
           d eq_refl).
Defined.

Lemma cached_session_witness :
  let o := CSR1000vRoutingDriver.perform true Sample.rejecting (fun _ => [])
             (fun _ _ => false) (fun _ _ => false) (fun _ _ _ _ => false)
             (CSR1000vRoutingDriver.op_add_floating_ip "8.8.8.8" "7.7.7.7" "nrouter-r1")
             Sample.connected in
  completes o = false /\ CSR1000vRoutingDriver._csr_conn (final o) = true.
Proof.
  intros o. split; [reflexivity|].
  exact (proj1 (operation_keeps_the_cached_session Sample.rejecting (fun _ => [])
                  (fun _ _ => false) (fun _ _ => false) (fun _ _ _ _ => false) true
                  (CSR1000vRoutingDriver.op_add_floating_ip "8.8.8.8" "7.7.7.7"
                     "nrouter-r1")
                  Sample.connected eq_refl)).
Defined.

(** ** Where an operation of the driver stops *)

Section Rejections.

Import CSR1000vRoutingDriver.

Variable connect_succeeds : bool.
Variable reply : list (confstr * string) -> confstr -> string.
Variable running_vrfs : list (confstr * string) -> list string.
Variable running_has_interface : list (confstr * string) -> string -> bool.
Variable running_has_cfg : list (confstr * string) -> cfgline -> bool.
Variable running_has_acl : list (confstr * string) -> string -> string -> string -> bool.














End Rejections.

